(** * standup-cli: the agent orchestration core

    A shallow embedding of [src/agent/tools.ts] (access guard, error
    normaliser, tool executor) and [src/agent/loop.ts] (conversation driver,
    autonomous and interactive session modes), with the properties the
    specification states about them; and of what stands around them, the
    data-fetch functions of [src/github] and the configuration of
    [src/setup.ts], with further properties of the code.

    Conventions of the embedding.
    - A JavaScript string is a [string]: a sequence of UTF-16 code units
      restricted to the range 0..255 (Latin-1).  [toLowerCase], [trim] and
      [JSON.stringify]'s quoting are written out for that range.
    - A JSON value (tool input, tool payload) is a [Json] tree; numbers are
      integers, printed in decimal as JavaScript prints them below 10^21.  A
      property read that finds nothing is [None] (JavaScript's [undefined]).
    - A function that can throw returns an [Outcome].
    - The outside world (inference provider, GitHub, Slack, console) is a
      trace of events and a record of oracles.  The order in which the
      concurrent tool calls of a turn settle is one of the oracles. *)

From Stdlib Require Import ZArith NArith Ascii String List Bool Lia.
From stdpp Require Import base tactics option list strings pretty.
Import ListNotations.

Local Open Scope string_scope.
Set Warnings "-register-all".

(** ** JavaScript strings *)

Module JsString.

Definition code (c : ascii) : nat := nat_of_ascii c.

Definition chr (n : nat) : string := String (ascii_of_nat n) EmptyString.

(** The line feed, U+000A, and the double quote, U+0022. *)
Definition nl : string := chr 10.
Definition dq : string := chr 34.

(** [String.prototype.toLowerCase] on one code unit below 256: A-Z, and the
    Latin-1 capitals U+00C0..U+00DE except the multiplication sign U+00D7. *)
Definition lower_char (c : ascii) : ascii :=
  let n := code c in
  if ((65 <=? n) && (n <=? 90))%nat then ascii_of_nat (n + 32)
  else if ((192 <=? n) && (n <=? 222) && negb (n =? 215))%nat
       then ascii_of_nat (n + 32)
  else c.

Fixpoint toLowerCase (s : string) : string :=
  match s with
  | EmptyString => EmptyString
  | String c r => String (lower_char c) (toLowerCase r)
  end.

(** White space and line terminators below 256: TAB, LF, VT, FF, CR, SP and
    the no-break space U+00A0. *)
Definition is_space (c : ascii) : bool :=
  let n := code c in
  (((9 <=? n) && (n <=? 13)) || (n =? 32) || (n =? 160))%nat.

Fixpoint trimStart (s : string) : string :=
  match s with
  | EmptyString => EmptyString
  | String c r => if is_space c then trimStart r else s
  end.

(** Drops the trailing white space: a character is kept when something
    that is kept follows it, or when it is not white space itself. *)
Fixpoint trimEnd (s : string) : string :=
  match s with
  | EmptyString => EmptyString
  | String c r =>
      match trimEnd r with
      | EmptyString => if is_space c then EmptyString else String c EmptyString
      | r' => String c r'
      end
  end.

Definition trim (s : string) : string := trimEnd (trimStart s).

(** [hay.includes(needle)]. *)
Fixpoint includes (hay needle : string) : bool :=
  String.prefix needle hay
  || match hay with
     | EmptyString => false
     | String _ r => includes r needle
     end.

(** [parts.join(sep)] on an array of strings. *)
Fixpoint join (sep : string) (parts : list string) : string :=
  match parts with
  | [] => ""
  | [x] => x
  | x :: rest => x ++ sep ++ join sep rest
  end.

End JsString.

Import JsString.

(** ** JSON values and JavaScript conversions *)

Inductive Json : Type :=
| JNull
| JBool (b : bool)
| JNum (z : Z)
| JStr (s : string)
| JArr (items : list Json)
| JObj (props : list (string * Json)).

(** A JavaScript value as the code meets it: [None] is [undefined]. *)
Definition JsVal : Type := option Json.

(** Something thrown: an [Error] instance with its message, or any other
    value. *)
Inductive Thrown : Type :=
| ErrorObj (message : string)
| NonError (v : JsVal).

Inductive Outcome (A : Type) : Type :=
| Ret (a : A)
| Throw (e : Thrown).
Arguments Ret {A} a.
Arguments Throw {A} e.

(** The exception monad, with stdpp's [x ← m; k] for sequencing. *)
#[global] Instance Outcome_ret : MRet Outcome := fun A a => Ret a.

#[global] Instance Outcome_bind : MBind Outcome := fun A B k m =>
  match m with
  | Ret a => k a
  | Throw e => Throw e
  end.

Module Js.

(** Property read [o.key] on an object's own properties, first match. *)
Fixpoint assoc (key : string) (props : list (string * Json)) : JsVal :=
  match props with
  | [] => None
  | (k, v) :: rest => if String.eqb k key then Some v else assoc key rest
  end.

(** [String(v)] and the conversion a template literal applies.  An array
    joins its elements with a comma, [null] and [undefined] elements giving
    the empty string; a plain object gives [[object Object]]. *)
Fixpoint toString (v : Json) : string :=
  match v with
  | JNull => "null"
  | JBool true => "true"
  | JBool false => "false"
  | JNum z => pretty z
  | JStr s => s
  | JArr items =>
      join "," (map (fun x => match x with JNull => "" | _ => toString x end) items)
  | JObj _ => "[object Object]"
  end.

Definition String_ (v : JsVal) : string :=
  match v with
  | None => "undefined"
  | Some j => toString j
  end.

(** Truthiness, as [!v] and [if (v)] see it. *)
Definition truthy (v : JsVal) : bool :=
  match v with
  | None | Some JNull | Some (JBool false) => false
  | Some (JNum z) => negb (z =? 0)%Z
  | Some (JStr s) => negb (String.eqb s "")
  | Some _ => true
  end.

(** The message of the [TypeError] raised by a property access or method
    call [v.name(...)] that cannot succeed, in the wording of V8. *)
Definition typeError (v : JsVal) (what name : string) : Thrown :=
  match v with
  | None =>
      ErrorObj ("Cannot read properties of undefined (reading '" ++ name ++ "')")
  | Some JNull =>
      ErrorObj ("Cannot read properties of null (reading '" ++ name ++ "')")
  | Some _ => ErrorObj (what ++ "." ++ name ++ " is not a function")
  end.

(** [v.toLowerCase()], where the source text of the receiver is [what]. *)
Definition toLowerCase (what : string) (v : JsVal) : Outcome string :=
  match v with
  | Some (JStr s) => Ret (JsString.toLowerCase s)
  | _ => Throw (typeError v what "toLowerCase")
  end.

(** [v.key]: reading a property of [undefined] or [null] throws; a
    primitive has none of the properties read here. *)
Definition getProp (v : JsVal) (key : string) : Outcome JsVal :=
  match v with
  | None | Some JNull => Throw (typeError v "" key)
  | Some (JObj props) => Ret (assoc key props)
  | Some _ => Ret None
  end.

(** [arr.some(f)], [arr.filter(f)] and [arr.map(f)] with a callback that
    can throw: elements are visited in order, [some] stops at the first
    hit, and a throw ends the traversal. *)
Fixpoint some {A} (f : A -> Outcome bool) (l : list A) : Outcome bool :=
  match l with
  | [] => Ret false
  | x :: rest => b ← f x; if b : bool then Ret true else some f rest
  end.

Fixpoint filter {A} (f : A -> Outcome bool) (l : list A) : Outcome (list A) :=
  match l with
  | [] => Ret []
  | x :: rest =>
      b ← f x; keep ← filter f rest;
      Ret (if b : bool then x :: keep else keep)
  end.

Fixpoint map {A B} (f : A -> Outcome B) (l : list A) : Outcome (list B) :=
  match l with
  | [] => Ret []
  | x :: rest => y ← f x; ys ← map f rest; Ret (y :: ys)
  end.

(** [v.length]: arrays and strings have one, a plain object only when it
    has such a property, other primitives none. *)
Definition lengthOf (v : Json) : JsVal :=
  match v with
  | JArr items => Some (JNum (Z.of_nat (List.length items)))
  | JStr s => Some (JNum (Z.of_nat (String.length s)))
  | JObj props => assoc "length" props
  | _ => None
  end.

(** An element of [arr.join(sep)]: [null] and [undefined] give the empty
    string. *)
Definition joinItem (v : JsVal) : string :=
  match v with
  | None | Some JNull => ""
  | Some j => toString j
  end.

(** [error instanceof Error ? error.message : String(error)]. *)
Definition errorText (e : Thrown) : string :=
  match e with
  | ErrorObj m => m
  | NonError v => String_ v
  end.

End Js.

(** [JSON.stringify]. *)
Module JSON.

Definition hex_digit (n : nat) : string :=
  chr (if (n <? 10)%nat then 48 + n else 87 + n).

(** One code unit inside a quoted JSON string. *)
Definition quote_char (c : ascii) : string :=
  let n := code c in
  if (n =? 8)%nat then "\b"
  else if (n =? 9)%nat then "\t"
  else if (n =? 10)%nat then "\n"
  else if (n =? 12)%nat then "\f"
  else if (n =? 13)%nat then "\r"
  else if (n =? 34)%nat then "\" ++ dq
  else if (n =? 92)%nat then "\\"
  else if (n <? 32)%nat then "\u00" ++ hex_digit (n / 16) ++ hex_digit (n mod 16)
  else String c "".

Fixpoint quote_body (s : string) : string :=
  match s with
  | EmptyString => ""
  | String c r => quote_char c ++ quote_body r
  end.

Definition quote (s : string) : string := dq ++ quote_body s ++ dq.

(** [JSON.stringify(v, null, gap)] at the current indentation; the empty
    [gap] gives the compact form of [JSON.stringify(v)]. *)
Fixpoint serialize (gap indent : string) (v : Json) : string :=
  match v with
  | JNull => "null"
  | JBool true => "true"
  | JBool false => "false"
  | JNum z => pretty z
  | JStr s => quote s
  | JArr items =>
      let inner := indent ++ gap in
      match items with
      | [] => "[]"
      | _ =>
          let parts := map (serialize gap inner) items in
          if String.eqb gap "" then "[" ++ join "," parts ++ "]"
          else "[" ++ nl ++ inner ++ join ("," ++ nl ++ inner) parts
               ++ nl ++ indent ++ "]"
      end
  | JObj props =>
      let inner := indent ++ gap in
      match props with
      | [] => "{}"
      | _ =>
          let parts :=
            map (fun kv =>
                   quote (fst kv)
                   ++ (if String.eqb gap "" then ":" else ": ")
                   ++ serialize gap inner (snd kv)) props in
          if String.eqb gap "" then "{" ++ join "," parts ++ "}"
          else "{" ++ nl ++ inner ++ join ("," ++ nl ++ inner) parts
               ++ nl ++ indent ++ "}"
      end
  end.

Definition stringify (v : Json) : string := serialize "" "" v.

Definition stringify_indent2 (v : Json) : string := serialize "  " "" v.

(** [JSON.stringify({ error: msg })]. *)
Definition error_payload (msg : string) : string :=
  stringify (JObj [("error", JStr msg)]).

End JSON.

(** ** [src/agent/tools.ts] *)

Record Repo : Type := { owner : string; repo : string }.

(** [ToolContext].  An allow-list that is [None] is not configured; the empty
    array is a configured list that allows nothing.  The GitHub client handle
    is left out. *)
Record ToolContext : Type := {
  since : Z;
  slackToken : string;
  slackChannelId : string;
  timezone : string;
  allowedRepos : option (list Repo);
  allowedMembers : option (list string)
}.

(** The entry handed to the Slack poster: the four properties read from the
    planner's entry, whatever they are, and an empty [rawSummary]. *)
Record Note : Type := {
  note_username : JsVal;
  note_yesterday : JsVal;
  note_today : JsVal;
  note_blockers : JsVal;
  note_rawSummary : string
}.

(** The network calls of the tools, with the arguments that come from the
    tool input or the clock; the client handle, the credentials and the
    constant title of the post are the same in every call and not carried. *)
Inductive NetCall : Type :=
| FetchCommits (owner repo username : JsVal)
| FetchPRs (owner repo username : JsVal)
| FetchIssues (owner repo username : JsVal)
| PostSlack (notes : list Note) (dateLabel : string).

(** [executeTool] up to its first suspension point: it has returned or
    thrown without touching the network ([Done]), or it has issued one
    network call and resumes with that call's outcome ([Await]). *)
Inductive Step : Type :=
| Done (r : Outcome string)
| Await (c : NetCall) (k : Outcome Json -> Outcome string).

Module Tools.

Definition repoLabel (r : Repo) : string := owner r ++ "/" ++ repo r.

Definition repoMatches (owner_ repo_ : JsVal) (r : Repo) : Outcome bool :=
  o ← Js.toLowerCase "owner" owner_;
  if String.eqb (toLowerCase (owner r)) o
  then p ← Js.toLowerCase "repo" repo_;
       Ret (String.eqb (toLowerCase (repo r)) p)
  else Ret false.

Definition repoDenied (owner_ repo_ : JsVal) (repos : list Repo) : string :=
  "Access denied: repository " ++ dq ++ Js.String_ owner_ ++ "/"
  ++ Js.String_ repo_ ++ dq
  ++ " is not in the configured list. Allowed repos: "
  ++ join ", " (map repoLabel repos).

Definition validateRepo (owner_ repo_ : JsVal) (ctx : ToolContext)
  : Outcome (option string) :=
  match allowedRepos ctx with
  | None => Ret None
  | Some repos =>
      allowed ← Js.some (repoMatches owner_ repo_) repos;
      if negb allowed then Ret (Some (repoDenied owner_ repo_ repos))
      else Ret None
  end.

Definition memberMatches (what : string) (username : JsVal) (m : string)
  : Outcome bool :=
  u ← Js.toLowerCase what username;
  Ret (String.eqb (toLowerCase m) u).

Definition memberDenied (username : JsVal) (members : list string) : string :=
  "Access denied: " ++ dq ++ Js.String_ username ++ dq
  ++ " is not a configured team member. Allowed members: "
  ++ join ", " members.

Definition validateMember (username : JsVal) (ctx : ToolContext)
  : Outcome (option string) :=
  match allowedMembers ctx with
  | None => Ret None
  | Some members =>
      allowed ← Js.some (memberMatches "username" username) members;
      if negb allowed then Ret (Some (memberDenied username members))
      else Ret None
  end.

Definition msgNotFound : string :=
  "Repository or user not found. The repo may be private or the name may be incorrect.".
Definition msgBadCredentials : string :=
  "GitHub authentication failed. The token may be invalid or expired.".
Definition msgRateLimit : string :=
  "GitHub API rate limit exceeded. Please wait a few minutes and try again.".

Definition formatGitHubError (error : Thrown) : string :=
  match error with
  | NonError v => Js.String_ v
  | ErrorObj msg =>
      if includes msg "Not Found" || includes msg "404" then msgNotFound
      else if includes msg "Bad credentials" || includes msg "401"
           then msgBadCredentials
      else if includes msg "rate limit" || includes msg "403" then msgRateLimit
      else msg
  end.

(** After the awaited fetch: the [try] block's [return] and its [catch]. *)
Definition fetchSettled (r : Outcome Json) : Outcome string :=
  match r with
  | Ret data => Ret (JSON.stringify_indent2 data)
  | Throw error => Ret (JSON.error_payload (formatGitHubError error))
  end.

(** The three fetch cases are the same code around a different fetch
    function. *)
Definition fetchCase (call : JsVal -> JsVal -> JsVal -> NetCall)
    (input : list (string * Json)) (ctx : ToolContext) : Step :=
  let owner_ := Js.assoc "owner" input in
  let repo_ := Js.assoc "repo" input in
  let username := Js.assoc "username" input in
  match validateRepo owner_ repo_ ctx with
  | Throw e => Done (Throw e)
  | Ret (Some repoErr) => Done (Ret (JSON.error_payload repoErr))
  | Ret None =>
      match validateMember username ctx with
      | Throw e => Done (Throw e)
      | Ret (Some memberErr) => Done (Ret (JSON.error_payload memberErr))
      | Ret None => Await (call owner_ repo_ username) fetchSettled
      end
  end.

Definition msgNoNotes : string :=
  "No standup notes provided. Include at least one team member.".

(** [!standup_notes || standup_notes.length === 0]. *)
Definition notesMissing (standup_notes : JsVal) : bool :=
  negb (Js.truthy standup_notes)
  || match standup_notes with
     | Some v => match Js.lengthOf v with
                 | Some (JNum 0) => true
                 | _ => false
                 end
     | None => false
     end.

(** The receiver of [standup_notes.filter] and [standup_notes.map]: only an
    array has these methods. *)
Definition asArray (method : string) (standup_notes : JsVal)
  : Outcome (list Json) :=
  match standup_notes with
  | Some (JArr items) => Ret items
  | _ => Throw (Js.typeError standup_notes "standup_notes" method)
  end.

(** The [filter] callback: the entry is kept when no allowed member equals
    its username; [e.username] is read once per member visited. *)
Definition notMember (members : list string) (e : Json) : Outcome bool :=
  found ← Js.some (fun m => u ← Js.getProp (Some e) "username";
                            memberMatches "e.username" u m) members;
  Ret (negb found).

Definition invalidUsers (members : list string) (entries : list Json)
  : Outcome (list JsVal) :=
  bad ← Js.filter (notMember members) entries;
  Js.map (fun e => Js.getProp (Some e) "username") bad.

Definition standupDenied (invalid : list JsVal) (members : list string)
  : string :=
  "Access denied: standup includes non-team members: "
  ++ join ", " (map Js.joinItem invalid)
  ++ ". Allowed: " ++ join ", " members.

Definition toNote (entry : Json) : Outcome Note :=
  u ← Js.getProp (Some entry) "username";
  y ← Js.getProp (Some entry) "yesterday";
  t ← Js.getProp (Some entry) "today";
  b ← Js.getProp (Some entry) "blockers";
  Ret {| note_username := u; note_yesterday := y; note_today := t;
         note_blockers := b; note_rawSummary := "" |}.

Definition msgPosted (n : nat) : string :=
  "Standup posted to Slack for " ++ pretty n ++ " team member(s).".

(** After the awaited post: the [try] block's [return] and its [catch]. *)
Definition postSettled (n : nat) (r : Outcome Json) : Outcome string :=
  match r with
  | Ret _ => Ret (msgPosted n)
  | Throw error =>
      let msg := Js.errorText error in
      if includes msg "invalid_auth" || includes msg "not_authed"
      then Ret (JSON.error_payload
                  "Slack authentication failed. Check your SLACK_USER_TOKEN.")
      else if includes msg "channel_not_found"
      then Ret (JSON.error_payload
                  "Slack channel not found. Check your SLACK_CHANNEL_ID.")
      else Ret (JSON.error_payload ("Slack posting failed: " ++ msg))
  end.

Section Executor.

(** [new Date().toLocaleDateString("en-IN", { ..., timeZone })]: the
    label of today in the given time zone, or the [RangeError] of a time
    zone the runtime does not know. *)
Variable dateLabelOf : string -> Outcome string.

Definition postCase (input : list (string * Json)) (ctx : ToolContext)
  : Step :=
  let standup_notes := Js.assoc "standup_notes" input in
  if notesMissing standup_notes
  then Done (Ret (JSON.error_payload msgNoNotes))
  else
    let checked : Outcome (option string) :=
      match allowedMembers ctx with
      | None => Ret None
      | Some members =>
          entries ← asArray "filter" standup_notes;
          invalid ← invalidUsers members entries;
          if (0 <? List.length invalid)%nat
          then Ret (Some (standupDenied invalid members))
          else Ret None
      end in
    match checked with
    | Throw e => Done (Throw e)
    | Ret (Some denied) => Done (Ret (JSON.error_payload denied))
    | Ret None =>
        let prepared : Outcome (string * list Note) :=
          dateLabel ← dateLabelOf (timezone ctx);
          entries ← asArray "map" standup_notes;
          notes ← Js.map toNote entries;
          Ret (dateLabel, notes) in
        match prepared with
        | Throw e => Done (Throw e)
        | Ret (dateLabel, notes) =>
            Await (PostSlack notes dateLabel)
                  (postSettled (List.length notes))
        end
    end.

Definition executeTool (name : string) (input : list (string * Json))
    (ctx : ToolContext) : Step :=
  if String.eqb name "fetch_commits" then fetchCase FetchCommits input ctx
  else if String.eqb name "fetch_pull_requests" then fetchCase FetchPRs input ctx
  else if String.eqb name "fetch_issues" then fetchCase FetchIssues input ctx
  else if String.eqb name "post_standup_to_slack" then postCase input ctx
  else Done (Ret (JSON.error_payload ("Unknown tool: " ++ name))).

End Executor.

End Tools.

(** ** [src/agent/loop.ts] *)

(** A [tool_use] block: the correlation identifier the provider assigned,
    the tool's name and its input object. *)
Record ToolUse : Type := {
  id : string;
  name : string;
  input : list (string * Json)
}.

Inductive ContentBlock : Type :=
| TextBlock (text : string)
| ToolUseBlock (t : ToolUse)
| OtherBlock.

Record ToolResultBlock : Type := {
  tool_use_id : string;
  content : string;
  is_error : option bool
}.

Inductive Role : Type := user | assistant.

Inductive Content : Type :=
| Text (s : string)
| Blocks (bs : list ContentBlock)
| ToolResults (rs : list ToolResultBlock).

(** A history entry; [body] is the source's [content], a name the
    tool-result block already has here. *)
Record Message : Type := { role : Role; body : Content }.

(** What the program prints, one constructor per [console.log] (and
    [rl.prompt]) of the two session modes, with the values it interpolates. *)
Inductive LogLine : Type :=
| LogIteration (n : nat)
| LogAuthFailed
| LogRateLimited
| LogOverloaded
| LogApiError (msg : string)
| LogThought (text : string)
| LogToolUse (name summary : string)
| LogToolError (errMsg : string)
| LogStarting (members repos : nat)
| LogLookingBack (hours : Z) (sinceIso : string)
| LogFinished (iterations : nat)
| LogMaxIterations (max : nat)
| LogGitHubUser (login : string)
| LogGitHubUnverified
| LogRepos (names : string)
| LogTeam (names : string)
| LogLookback (hours : Z) (sinceIso : string)
| LogChatMode
| LogPrompt
| LogBlank
| LogBye.

(** What happens, in the order it happens. *)
Inductive Event : Type :=
| Logged (l : LogLine)
| Inferred (system : string) (messages : list Message)
           (r : Outcome (list ContentBlock))
| Requested (c : NetCall)
| Replied (c : NetCall) (r : Outcome Json)
| Authenticated (r : Outcome string).

(** The trace of a run, most recent event first. *)
Definition Trace : Type := list Event.

(** The collaborators of the core, each an oracle that may look at the trace
    so far: the inference provider, the network behind the tools, the order
    in which concurrent tool calls settle ([pick tr k], taken modulo [k],
    names the one of the [k] unsettled calls that settles next), the GitHub
    identity check, and the clock. *)
Record Collaborators : Type := {
  infer : Trace -> string -> list Message -> Outcome (list ContentBlock);
  respond : Trace -> NetCall -> Outcome Json;
  pick : Trace -> nat -> nat;
  getAuthenticated : Trace -> Outcome string;
  dateLabelOf : string -> Outcome string;
  now : Z;
  toISOString : Z -> string
}.

Record AgentConfig : Type := {
  team_members : list string;
  github_owner : string;
  github_repo : string;
  github_repos : option (list Repo);
  lookback_hours : Z;
  config_timezone : string
}.

Module Loop.

Definition MAX_ITERATIONS : nat := 20.

(** [content.filter(block => block.type === "tool_use")], which also
    narrows the element type. *)
Fixpoint toolUsesOf (blocks : list ContentBlock) : list ToolUse :=
  match blocks with
  | [] => []
  | ToolUseBlock t :: rest => t :: toolUsesOf rest
  | _ :: rest => toolUsesOf rest
  end.

Definition summarizeInput (input : list (string * Json)) : string :=
  let p1 := if Js.truthy (Js.assoc "owner" input)
            then [Js.String_ (Js.assoc "owner" input) ++ "/"
                  ++ Js.String_ (Js.assoc "repo" input)]
            else [] in
  let p2 := if Js.truthy (Js.assoc "username" input)
            then [Js.String_ (Js.assoc "username" input)]
            else [] in
  let p3 := match Js.assoc "standup_notes" input with
            | Some notes =>
                if Js.truthy (Some notes)
                then [Js.String_ (Js.lengthOf notes) ++ " member(s)"]
                else []
            | None => []
            end in
  join ", " (p1 ++ p2 ++ p3).

(** The lines logged for the text blocks of a response, in order. *)
Fixpoint thoughts (blocks : list ContentBlock) : list Event :=
  match blocks with
  | [] => []
  | TextBlock text :: rest =>
      if String.eqb (trim text) "" then thoughts rest
      else Logged (LogThought (trim text)) :: thoughts rest
  | _ :: rest => thoughts rest
  end.

(** The [catch] of the inference call: which line is logged. *)
Definition classifyApiError (error : Thrown) : LogLine :=
  let msg := Js.errorText error in
  if includes msg "401" || includes msg "authentication" then LogAuthFailed
  else if includes msg "429" || includes msg "rate" then LogRateLimited
  else if includes msg "overloaded" || includes msg "529" then LogOverloaded
  else LogApiError msg.

Section Driver.

Variable env : Collaborators.

(** The callback given to [toolUses.map], up to its first suspension:
    it logs the call and starts [executeTool], which either finishes at
    once or issues its network call. *)
Definition startTool (ctx : ToolContext) (t : ToolUse) (tr : Trace)
  : Step * Trace :=
  let tr1 := Logged (LogToolUse (name t) (summarizeInput (input t))) :: tr in
  match Tools.executeTool (dateLabelOf env) (name t) (input t) ctx with
  | Done r => (Done r, tr1)
  | Await c k => (Await c k, Requested c :: tr1)
  end.

Fixpoint startAll (ctx : ToolContext) (toolUses : list ToolUse)
    (tr : Trace) : list Step * Trace :=
  match toolUses with
  | [] => ([], tr)
  | b :: rest =>
      let '(s, tr1) := startTool ctx b tr in
      let '(ss, tr2) := startAll ctx rest tr1 in
      (s :: ss, tr2)
  end.

(** The rest of the callback, run when its [executeTool] settles: the
    network reply, if one is awaited, then the [return] of the [try] or
    of the [catch]. *)
Definition settleTool (id_ : string) (s : Step) (tr : Trace)
  : ToolResultBlock * Trace :=
  let '(result, tr1) :=
    match s with
    | Done r => (r, tr)
    | Await c k => let r := respond env tr c in (k r, Replied c r :: tr)
    end in
  match result with
  | Ret text =>
      ({| tool_use_id := id_; content := text; is_error := None |}, tr1)
  | Throw error =>
      let errMsg := Js.errorText error in
      ({| tool_use_id := id_; content := JSON.error_payload errMsg;
          is_error := Some true |},
       Logged (LogToolError errMsg) :: tr1)
  end.

(** [Promise.all]: the started callbacks settle one at a time in the
    order the scheduler picks, and each stores its value in the slot of
    its own index. *)
Fixpoint settleAll (fuel : nat) (pending : list (nat * (string * Step)))
    (slots : list (option ToolResultBlock)) (tr : Trace)
  : list (option ToolResultBlock) * Trace :=
  match fuel with
  | O => (slots, tr)
  | S fuel' =>
      let j := pick env tr (length pending) mod length pending in
      match pending !! j with
      | None => (slots, tr)
      | Some (i, (id_, s)) =>
          let '(block, tr1) := settleTool id_ s tr in
          settleAll fuel' (delete j pending) (<[i := Some block]> slots) tr1
      end
  end.

(** [await Promise.all(toolUses.map(async ...))].  Every slot is filled
    when the last callback has settled ([settleAll_filled] below), so
    reading the slots out drops nothing. *)
Definition promiseAll (ctx : ToolContext) (toolUses : list ToolUse)
    (tr : Trace) : list ToolResultBlock * Trace :=
  let '(steps, tr1) := startAll ctx toolUses tr in
  let n := length toolUses in
  let pending := zip (seq 0 n) (zip (map id toolUses) steps) in
  let '(slots, tr2) := settleAll n pending (replicate n None) tr1 in
  (omap (fun slot => slot) slots, tr2).

(** [if (iteration != null) console.log(...)]. *)
Definition logIteration (iteration : option nat) (tr : Trace) : Trace :=
  match iteration with
  | Some n => Logged (LogIteration n) :: tr
  | None => tr
  end.

Definition runAgentTurn (messages : list Message) (systemPrompt : string)
    (ctx : ToolContext) (iteration : option nat) (tr : Trace)
  : bool * list Message * Trace :=
  let tr0 := logIteration iteration tr in
  let r := infer env tr0 systemPrompt messages in
  let tr1 := Inferred systemPrompt messages r :: tr0 in
  match r with
  | Throw error => (true, messages, Logged (classifyApiError error) :: tr1)
  | Ret response =>
      let messages1 :=
        (messages ++ [{| role := assistant; body := Blocks response |}])%list in
      let tr2 := (rev (thoughts response) ++ tr1)%list in
      let toolUses := toolUsesOf response in
      if (length toolUses =? 0)%nat then (true, messages1, tr2)
      else
        let '(toolResults, tr3) := promiseAll ctx toolUses tr2 in
        (false,
         (messages1 ++ [{| role := user; body := ToolResults toolResults |}])%list,
         tr3)
  end.

(** [buildToolContext]: a session always configures both allow-lists,
    from the configuration. *)
Definition sessionRepos (config : AgentConfig) : list Repo :=
  match github_repos config with
  | Some repos => repos
  | None => [{| owner := github_owner config; repo := github_repo config |}]
  end.

Definition buildToolContext (slackToken_ slackChannelId_ : string)
    (config : AgentConfig) : ToolContext * list Repo :=
  let lookbackMs := (lookback_hours config * 60 * 60 * 1000)%Z in
  let repos := sessionRepos config in
  ({| since := (now env - lookbackMs)%Z;
      slackToken := slackToken_;
      slackChannelId := slackChannelId_;
      timezone := config_timezone config;
      allowedRepos := Some repos;
      allowedMembers := Some (team_members config) |},
   repos).

Definition buildTaskPrompt (config : AgentConfig) (repos : list Repo)
    (since_ : Z) : string :=
  let repoList := join nl (map (fun r => "  - " ++ Tools.repoLabel r) repos) in
  "Generate today's standup for the following team:" ++ nl ++ nl
  ++ "Team members: " ++ join ", " (team_members config) ++ nl ++ nl
  ++ "Repositories:" ++ nl ++ repoList ++ nl ++ nl
  ++ "Lookback period: " ++ pretty (lookback_hours config)
  ++ " hours (since " ++ toISOString env since_ ++ ")" ++ nl
  ++ "Timezone: " ++ config_timezone config ++ nl ++ nl
  ++ "Gather each member's activity from each repo, cross-reference, then post the standup to Slack.".

(** The two system prompts are fixed texts handed to the provider as
    they are; nothing in the core reads them. *)
Variable AUTONOMOUS_SYSTEM_PROMPT : string.
Variable buildInteractiveSystemPrompt :
  list string -> list Repo -> Z -> Z -> string -> string.

(** The [for] loop of [runAgentLoop], from [iteration] on, with [n] the
    number of values [iteration] can still take. *)
Fixpoint autoTurns (n iteration : nat) (ctx : ToolContext)
    (messages : list Message) (tr : Trace) : list Message * Trace :=
  match n with
  | O => (messages, tr)
  | S n' =>
      let '(done, messages1, tr1) :=
        runAgentTurn messages AUTONOMOUS_SYSTEM_PROMPT ctx (Some iteration) tr in
      if done : bool then (messages1, Logged (LogFinished iteration) :: tr1)
      else
        let tr2 := if (iteration =? MAX_ITERATIONS)%nat
                   then Logged (LogMaxIterations MAX_ITERATIONS) :: tr1
                   else tr1 in
        autoTurns n' (S iteration) ctx messages1 tr2
  end.

Definition runAgentLoop (slackToken_ slackChannelId_ : string)
    (config : AgentConfig) (tr : Trace) : list Message * Trace :=
  let '(ctx, repos) := buildToolContext slackToken_ slackChannelId_ config in
  let taskPrompt := buildTaskPrompt config repos (since ctx) in
  let messages := [{| role := user; body := Text taskPrompt |}] in
  let tr1 :=
    Logged (LogLookingBack (lookback_hours config) (toISOString env (since ctx)))
    :: Logged (LogStarting (length (team_members config)) (length repos))
    :: tr in
  autoTurns MAX_ITERATIONS 1 ctx messages tr1.

(** The inner [for] loop of the interactive mode: at most [n] turns. *)
Fixpoint subLoop (n : nat) (systemPrompt : string) (ctx : ToolContext)
    (messages : list Message) (tr : Trace) : list Message * Trace :=
  match n with
  | O => (messages, tr)
  | S n' =>
      let '(done, messages1, tr1) :=
        runAgentTurn messages systemPrompt ctx None tr in
      if done : bool then (messages1, tr1)
      else subLoop n' systemPrompt ctx messages1 tr1
  end.

Definition isExit (input_ : string) : bool :=
  String.eqb (toLowerCase input_) "exit"
  || String.eqb (toLowerCase input_) "quit".

(** [for await (const line of rl)], over the lines the user enters until
    the input ends. *)
Fixpoint readLoop (lines : list string) (systemPrompt : string)
    (ctx : ToolContext) (messages : list Message) (tr : Trace)
  : list Message * Trace :=
  match lines with
  | [] => (messages, tr)
  | line :: rest =>
      let input_ := trim line in
      if String.eqb input_ ""
      then readLoop rest systemPrompt ctx messages (Logged LogPrompt :: tr)
      else if isExit input_ then (messages, tr)
      else
        let messages1 :=
          (messages ++ [{| role := user; body := Text input_ |}])%list in
        let '(messages2, tr2) :=
          subLoop MAX_ITERATIONS systemPrompt ctx messages1 tr in
        readLoop rest systemPrompt ctx messages2
                 (Logged LogPrompt :: Logged LogBlank :: tr2)
  end.

Definition runInteractiveAgent (slackToken_ slackChannelId_ : string)
    (config : AgentConfig) (lines : list string) (tr : Trace)
  : list Message * Trace :=
  let '(ctx, repos) := buildToolContext slackToken_ slackChannelId_ config in
  let systemPrompt :=
    buildInteractiveSystemPrompt (team_members config) repos
      (lookback_hours config) (since ctx) (config_timezone config) in
  let who := getAuthenticated env tr in
  let tr1 :=
    Logged (match who with
            | Ret login => LogGitHubUser login
            | Throw _ => LogGitHubUnverified
            end)
    :: Authenticated who :: tr in
  let tr2 :=
    Logged LogPrompt
    :: Logged LogChatMode
    :: Logged (LogLookback (lookback_hours config) (toISOString env (since ctx)))
    :: Logged (LogTeam (join ", " (team_members config)))
    :: Logged (LogRepos (join ", " (map Tools.repoLabel repos)))
    :: tr1 in
  let '(messages, tr3) := readLoop lines systemPrompt ctx [] tr2 in
  (messages, Logged LogBye :: tr3).

End Driver.

End Loop.

(** * Vocabulary of the properties *)

(** The case-insensitive comparison of the guard, on strings. *)
Definition sameRepo (o r : string) (x : Repo) : bool :=
  String.eqb (toLowerCase (owner x)) (toLowerCase o)
  && String.eqb (toLowerCase (repo x)) (toLowerCase r).

Definition sameMember (u m : string) : bool :=
  String.eqb (toLowerCase m) (toLowerCase u).

(** The names of the three read tools. *)
Definition fetchTools : list string :=
  ["fetch_commits"; "fetch_pull_requests"; "fetch_issues"].

(** The fetch function a read tool calls. *)
Definition fetchCall (name_ : string) : JsVal -> JsVal -> JsVal -> NetCall :=
  if String.eqb name_ "fetch_commits" then FetchCommits
  else if String.eqb name_ "fetch_pull_requests" then FetchPRs
  else FetchIssues.

(** The number of network calls of the tools recorded in a trace. *)
Fixpoint networkCalls (tr : Trace) : nat :=
  match tr with
  | [] => 0
  | Requested _ :: rest => S (networkCalls rest)
  | _ :: rest => networkCalls rest
  end.

(** The outcomes of the inference calls recorded in a trace, most recent
    first. *)
Fixpoint inferences (tr : Trace) : list (Outcome (list ContentBlock)) :=
  match tr with
  | [] => []
  | Inferred _ _ r :: rest => r :: inferences rest
  | _ :: rest => inferences rest
  end.

(** What [undefined.toLowerCase()] throws. *)
Definition undefinedToLowerCase : Thrown :=
  ErrorObj "Cannot read properties of undefined (reading 'toLowerCase')".

(** Some configured repository has this owner, case-insensitively. *)
Definition ownerConfigured (o : string) (repos : list Repo) : bool :=
  existsb (fun x => String.eqb (toLowerCase (owner x)) (toLowerCase o)) repos.

(** The username of a standup entry, when the entry is an object whose
    [username] is a string. *)
Definition usernameOf (e : Json) : option string :=
  match e with
  | JObj props =>
      match Js.assoc "username" props with
      | Some (JStr u) => Some u
      | _ => None
      end
  | _ => None
  end.

(** Some configured member equals this username, case-insensitively. *)
Definition isMember (members : list string) (u : string) : bool :=
  existsb (sameMember u) members.

(** The usernames of the entries that no configured member equals, in the
    order of the entries. *)
Definition disallowed (members : list string) (entries : list Json)
  : list string :=
  List.filter (fun u => negb (isMember members u)) (omap usernameOf entries).

(** The block is what the callback of the call [id_], started as [s],
    returns when it settles at some point of the run. *)
Definition settledAs (env : Collaborators) (id_ : string) (s : Step)
    (b : ToolResultBlock) : Prop :=
  exists tr0, b = (Loop.settleTool env id_ s tr0).1.

(** The step with which the driver starts the [i]-th call of a turn. *)
Definition startedAs (env : Collaborators) (ctx : ToolContext)
    (toolUses : list ToolUse) (tr : Trace) (i : nat) : option Step :=
  (Loop.startAll env ctx toolUses tr).1 !! i.

(** A turn with this inference outcome reports "finished": the call failed,
    or the response has no tool call. *)
Definition finishes (r : Outcome (list ContentBlock)) : bool :=
  match r with
  | Throw _ => true
  | Ret response =>
      match Loop.toolUsesOf response with
      | [] => true
      | _ => false
      end
  end.

(** The run of a bounded loop of turns, as the list of its inference
    outcomes: every turn but the last wanted to continue, and the last one
    either finished or used up the bound. *)
Definition boundedRun (n : nat) (before after : Trace)
    (pre : list (Outcome (list ContentBlock)))
    (last : Outcome (list ContentBlock)) : Prop :=
  inferences after = (last :: rev pre ++ inferences before)%list
  /\ length pre < n
  /\ Forall (fun r => finishes r = false) pre
  /\ (finishes last = true \/ finishes last = false /\ S (length pre) = n).

(** A recogniser of JSON texts (RFC 8259), as a pushdown automaton that
    reads one character at a time. *)
Module JsonText.

Inductive Frame : Type := InArray | InObject.

Inductive Mode : Type :=
| Value                       (* a value is expected *)
| ArrayFirst                  (* after [: a value or ] *)
| ObjectFirst                 (* after {: a key or } *)
| Key                         (* after a comma in an object: a key *)
| Colon                       (* after a key: a colon *)
| After                       (* after a value *)
| Str (key : bool)            (* inside a string *)
| Escape (key : bool)         (* after a backslash *)
| Hex (key : bool) (n : nat)  (* inside \u, n + 1 hex digits to go *)
| Literal (rest : string)     (* inside true, false or null *)
| Minus                       (* after -: a digit *)
| Zero                        (* after the leading 0 *)
| Int                         (* inside the integer part *)
| FracFirst                   (* after the point: a digit *)
| Frac                        (* inside the fraction *)
| ExpSign                     (* after e: a sign or a digit *)
| ExpFirst                    (* after the sign: a digit *)
| Exp.                        (* inside the exponent *)

Definition is_ws (c : ascii) : bool :=
  let n := code c in
  ((n =? 32) || (n =? 9) || (n =? 10) || (n =? 13))%nat.

Definition is_digit (c : ascii) : bool :=
  let n := code c in ((48 <=? n) && (n <=? 57))%nat.

Definition is_hex (c : ascii) : bool :=
  let n := code c in
  (((48 <=? n) && (n <=? 57)) || ((65 <=? n) && (n <=? 70))
   || ((97 <=? n) && (n <=? 102)))%nat.

Definition is_escape (c : ascii) : bool :=
  let n := code c in
  ((n =? 34) || (n =? 92) || (n =? 47) || (n =? 98) || (n =? 102)
   || (n =? 110) || (n =? 114) || (n =? 116))%nat.

(** The first character of a value. *)
Definition start (stack : list Frame) (c : ascii) : option (Mode * list Frame) :=
  let n := code c in
  if (n =? 123)%nat then Some (ObjectFirst, InObject :: stack)
  else if (n =? 91)%nat then Some (ArrayFirst, InArray :: stack)
  else if (n =? 34)%nat then Some (Str false, stack)
  else if (n =? 116)%nat then Some (Literal "rue", stack)
  else if (n =? 102)%nat then Some (Literal "alse", stack)
  else if (n =? 110)%nat then Some (Literal "ull", stack)
  else if (n =? 45)%nat then Some (Minus, stack)
  else if (n =? 48)%nat then Some (Zero, stack)
  else if is_digit c then Some (Int, stack)
  else None.

(** The character that follows a complete value. *)
Definition follow (stack : list Frame) (c : ascii) : option (Mode * list Frame) :=
  let n := code c in
  if is_ws c then Some (After, stack)
  else match stack with
       | InArray :: below =>
           if (n =? 44)%nat then Some (Value, stack)
           else if (n =? 93)%nat then Some (After, below)
           else None
       | InObject :: below =>
           if (n =? 44)%nat then Some (Key, stack)
           else if (n =? 125)%nat then Some (After, below)
           else None
       | [] => None
       end.

Definition exponent (stack : list Frame) (c : ascii)
  : option (Mode * list Frame) :=
  if ((code c =? 101) || (code c =? 69))%nat then Some (ExpSign, stack)
  else follow stack c.

Definition fraction (stack : list Frame) (c : ascii)
  : option (Mode * list Frame) :=
  if (code c =? 46)%nat then Some (FracFirst, stack) else exponent stack c.

Definition step (m : Mode) (stack : list Frame) (c : ascii)
  : option (Mode * list Frame) :=
  let n := code c in
  match m with
  | Value => if is_ws c then Some (Value, stack) else start stack c
  | ArrayFirst =>
      if is_ws c then Some (ArrayFirst, stack)
      else if (n =? 93)%nat then Some (After, tail stack)
      else start stack c
  | ObjectFirst =>
      if is_ws c then Some (ObjectFirst, stack)
      else if (n =? 125)%nat then Some (After, tail stack)
      else if (n =? 34)%nat then Some (Str true, stack)
      else None
  | Key =>
      if is_ws c then Some (Key, stack)
      else if (n =? 34)%nat then Some (Str true, stack)
      else None
  | Colon =>
      if is_ws c then Some (Colon, stack)
      else if (n =? 58)%nat then Some (Value, stack)
      else None
  | After => follow stack c
  | Str key =>
      if (n =? 34)%nat then Some (if key then Colon else After, stack)
      else if (n =? 92)%nat then Some (Escape key, stack)
      else if (n <? 32)%nat then None
      else Some (Str key, stack)
  | Escape key =>
      if (n =? 117)%nat then Some (Hex key 3, stack)
      else if is_escape c then Some (Str key, stack)
      else None
  | Hex key k =>
      if is_hex c
      then Some (match k with O => Str key | S k' => Hex key k' end, stack)
      else None
  | Literal rest =>
      match rest with
      | String x EmptyString =>
          if Ascii.eqb c x then Some (After, stack) else None
      | String x more =>
          if Ascii.eqb c x then Some (Literal more, stack) else None
      | EmptyString => None
      end
  | Minus =>
      if (n =? 48)%nat then Some (Zero, stack)
      else if is_digit c then Some (Int, stack)
      else None
  | Zero => fraction stack c
  | Int => if is_digit c then Some (Int, stack) else fraction stack c
  | FracFirst => if is_digit c then Some (Frac, stack) else None
  | Frac => if is_digit c then Some (Frac, stack) else exponent stack c
  | ExpSign =>
      if ((n =? 43) || (n =? 45))%nat then Some (ExpFirst, stack)
      else if is_digit c then Some (Exp, stack)
      else None
  | ExpFirst => if is_digit c then Some (Exp, stack) else None
  | Exp => if is_digit c then Some (Exp, stack) else follow stack c
  end.

(** The text may end here: one complete value has been read. *)
Definition complete (m : Mode) (stack : list Frame) : bool :=
  match stack with
  | [] => match m with
          | After | Zero | Int | Frac | Exp => true
          | _ => false
          end
  | _ => false
  end.

Fixpoint run (m : Mode) (stack : list Frame) (s : string) : bool :=
  match s with
  | EmptyString => complete m stack
  | String c r =>
      match step m stack c with
      | Some (m', stack') => run m' stack' r
      | None => false
      end
  end.

Definition is_json (s : string) : bool := run Value [] s.

(** The automaton after reading [x], if it did not get stuck. *)
Fixpoint steps (m : Mode) (stack : list Frame) (x : string)
  : option (Mode * list Frame) :=
  match x with
  | EmptyString => Some (m, stack)
  | String c r =>
      match step m stack c with
      | Some (m', stack') => steps m' stack' r
      | None => None
      end
  end.

Fixpoint blank (s : string) : bool :=
  match s with
  | EmptyString => true
  | String c r => is_ws c && blank r
  end.

(** A mode in which a complete value has just been read by
    [JSON.stringify]'s output: what follows is read as in [After]. *)
Definition settled (m : Mode) : Prop := m = After \/ m = Zero \/ m = Int.

(** A character that may follow a value in [JSON.stringify]'s output. *)
Definition delimiter (c : ascii) : bool :=
  is_ws c || (code c =? 44)%nat || (code c =? 93)%nat || (code c =? 125)%nat.

(** A run of decimal digits. *)
Fixpoint digits (s : string) : bool :=
  match s with
  | EmptyString => true
  | String c r => is_digit c && digits r
  end.

(** The white space [JSON.stringify] puts around elements, and a member of
    an object as it writes it. *)
Definition openWs (gap indent : string) : string :=
  if String.eqb gap "" then "" else nl ++ indent ++ gap.

Definition closeWs (gap indent : string) : string :=
  if String.eqb gap "" then "" else nl ++ indent.

Definition colonWs (gap : string) : string :=
  if String.eqb gap "" then "" else " ".

Definition member (gap inner : string) (kv : string * Json) : string :=
  JSON.quote (fst kv) ++ ":" ++ colonWs gap ++ JSON.serialize gap inner (snd kv).

(** What the main result says of one value. *)
Definition accepted (v : Json) : Prop :=
  forall gap indent m stack,
    blank gap = true -> blank indent = true ->
    m = Value \/ m = ArrayFirst ->
    exists m',
      steps m stack (JSON.serialize gap indent v) = Some (m', stack)
      /\ settled m'.

End JsonText.

(** What the driver feeds back for one tool call: a block with the call's
    identifier whose content is a JSON text, or else the plain confirmation
    of a successful post; flagged as an error exactly when [executeTool]
    threw, and then holding the thrown message as an [{error}] payload;
    unflagged, and an [{error}] payload, when [executeTool] returned without
    a network call. *)
Definition feedsBack (exec : Step) (t : ToolUse) (b : ToolResultBlock) : Prop :=
  tool_use_id b = id t
  /\ (JsonText.is_json (content b) = true
      \/ name t = "post_standup_to_slack"
         /\ is_error b = None
         /\ JsonText.is_json (content b) = false
         /\ exists n : nat,
              content b
              = "Standup posted to Slack for " ++ pretty n ++ " team member(s).")
  /\ (is_error b = Some true \/ is_error b = None)
  /\ (is_error b = Some true <-> exists error, exec = Done (Throw error))
  /\ (forall error,
        exec = Done (Throw error) ->
        content b = JSON.error_payload (Js.errorText error))
  /\ (forall text,
        exec = Done (Ret text) ->
        content b = text /\ exists msg, text = JSON.error_payload msg).

(** ** Scenarios *)

Module Scenario.

(** Collaborators that answer every call at once with an empty result and
    settle concurrent calls last-issued first. *)
Definition quiet : Collaborators := {|
  infer := fun _ _ _ => Ret [];
  respond := fun _ _ => Ret (JArr []);
  pick := fun _ k => k - 1;
  getAuthenticated := fun _ => Ret "octocat";
  dateLabelOf := fun _ => Ret "Monday, 2 November 2026";
  now := 1793577600000;
  toISOString := fun _ => "2026-11-01T00:00:00.000Z"
|}.

(** The session of the specification's scenarios: one repository,
    [acme/web], and two members, [alice] and [bob]. *)
Definition acme : ToolContext := {|
  since := 1793491200000;
  slackToken := "xoxp-token";
  slackChannelId := "C0123456";
  timezone := "Asia/Kolkata";
  allowedRepos := Some [{| owner := "acme"; repo := "web" |}];
  allowedMembers := Some ["alice"; "bob"]
|}.

Definition fetchInput (o r u : string) : list (string * Json) :=
  [("owner", JStr o); ("repo", JStr r); ("username", JStr u)].

Definition pullRequestsOfInfra : ToolUse := {|
  id := "toolu_01";
  name := "fetch_pull_requests";
  input := fetchInput "acme" "infra" "alice"
|}.

(** A request for [octo/<nothing>] by [alice]. *)
Definition commitsWithoutRepo : ToolUse := {|
  id := "toolu_02";
  name := "fetch_commits";
  input := [("owner", JStr "octo"); ("username", JStr "alice")]
|}.

(** A planner that first asks for the commits of [alice] and the issues of
    [carol] in one response, and then has nothing more to ask. *)
Definition twoCalls : list ContentBlock :=
  [ TextBlock "Fetching activity.";
    ToolUseBlock {| id := "toolu_A"; name := "fetch_commits";
                    input := fetchInput "acme" "web" "alice" |};
    ToolUseBlock {| id := "toolu_B"; name := "fetch_issues";
                    input := fetchInput "acme" "web" "carol" |} ].

Definition planner : Collaborators := {|
  infer := fun tr _ _ =>
             match inferences tr with
             | [] => Ret twoCalls
             | _ => Ret [TextBlock "Nothing else to do."]
             end;
  respond := fun _ _ => Ret (JArr []);
  pick := fun _ k => k - 1;
  getAuthenticated := fun _ => Ret "octocat";
  dateLabelOf := fun _ => Ret "Monday, 2 November 2026";
  now := 1793577600000;
  toISOString := fun _ => "2026-11-01T00:00:00.000Z"
|}.

Definition task : Message :=
  {| role := user; body := Text "Generate today's standup." |}.

(** A planner that posts the standup of [alice] at once. *)
Definition postAlice : ToolUse := {|
  id := "toolu_P";
  name := "post_standup_to_slack";
  input :=
    [("standup_notes",
      JArr [JObj [("username", JStr "alice");
                  ("yesterday", JArr [JStr "Merged PR 42"]);
                  ("today", JArr []);
                  ("blockers", JArr [])]])]
|}.

Definition poster : Collaborators := {|
  infer := fun _ _ _ => Ret [ToolUseBlock postAlice];
  respond := fun _ _ => Ret JNull;
  pick := fun _ _ => 0;
  getAuthenticated := fun _ => Ret "octocat";
  dateLabelOf := fun _ => Ret "Monday, 2 November 2026";
  now := 1793577600000;
  toISOString := fun _ => "2026-11-01T00:00:00.000Z"
|}.

(** A provider that rejects the API key. *)
Definition unauthenticated : Collaborators := {|
  infer := fun _ _ _ =>
             Throw (ErrorObj "401 authentication_error: invalid x-api-key");
  respond := fun _ _ => Ret (JArr []);
  pick := fun _ _ => 0;
  getAuthenticated := fun _ => Ret "octocat";
  dateLabelOf := fun _ => Ret "Monday, 2 November 2026";
  now := 1793577600000;
  toISOString := fun _ => "2026-11-01T00:00:00.000Z"
|}.

(** A planner that never stops asking for the commits of [alice]. *)
Definition greedy : Collaborators := {|
  infer := fun _ _ _ =>
             Ret [ToolUseBlock {| id := "toolu_G"; name := "fetch_commits";
                                  input := fetchInput "acme" "web" "alice" |}];
  respond := fun _ _ => Ret (JArr []);
  pick := fun _ _ => 0;
  getAuthenticated := fun _ => Ret "octocat";
  dateLabelOf := fun _ => Ret "Monday, 2 November 2026";
  now := 1793577600000;
  toISOString := fun _ => "2026-11-01T00:00:00.000Z"
|}.

Definition config : AgentConfig := {|
  team_members := ["alice"; "bob"];
  github_owner := "acme";
  github_repo := "web";
  github_repos := None;
  lookback_hours := 24;
  config_timezone := "Asia/Kolkata"
|}.

(** The outcomes of the inference calls of a run are all responses with
    tool calls. *)
Definition allContinue (rs : list (Outcome (list ContentBlock))) : bool :=
  forallb (fun r => negb (finishes r)) rs.

End Scenario.

(** * Vocabulary of the further properties *)

(** The request names a configured repository: owner and name are strings
    and equal a configured pair, case-insensitively. *)
Definition repoConfigured (repos : list Repo) (o r : JsVal) : Prop :=
  exists o' r' x,
    o = Some (JStr o') /\ r = Some (JStr r') /\ In x repos
    /\ toLowerCase (owner x) = toLowerCase o'
    /\ toLowerCase (repo x) = toLowerCase r'.

(** The username is a string and equals a configured member,
    case-insensitively. *)
Definition memberConfigured (members : list string) (u : JsVal) : Prop :=
  exists u' m,
    u = Some (JStr u') /\ In m members /\ toLowerCase m = toLowerCase u'.

(** A network call that the allow-lists of the context permit. *)
Definition permitted (ctx : ToolContext) (c : NetCall) : Prop :=
  match c with
  | FetchCommits o r u | FetchPRs o r u | FetchIssues o r u =>
      (forall repos, allowedRepos ctx = Some repos -> repoConfigured repos o r)
      /\ (forall members,
            allowedMembers ctx = Some members -> memberConfigured members u)
  | PostSlack notes _ =>
      forall members,
        allowedMembers ctx = Some members ->
        Forall (fun n => memberConfigured members (note_username n)) notes
  end.

Definition permittedEvent (ctx : ToolContext) (ev : Event) : Prop :=
  match ev with
  | Requested c => permitted ctx c
  | _ => True
  end.

(** A network call that the configuration of a session permits: a fetch for
    one of its repositories and one of its team members, or a post whose
    every note is for a team member. *)
Definition sessionPermits (config : AgentConfig) (c : NetCall) : Prop :=
  match c with
  | FetchCommits o r u | FetchPRs o r u | FetchIssues o r u =>
      repoConfigured
        (match github_repos config with
         | Some repos => repos
         | None => [{| owner := github_owner config;
                       repo := github_repo config |}]
         end) o r
      /\ memberConfigured (team_members config) u
  | PostSlack notes _ =>
      Forall (fun n => memberConfigured (team_members config) (note_username n))
             notes
  end.

(** [after] is [before] with more events on top, each satisfying [P]. *)
Definition grows (P : Event -> Prop) (before after : Trace) : Prop :=
  exists delta, after = (delta ++ before)%list /\ Forall P delta.

(** The number of replies to network calls of the tools recorded in a
    trace. *)
Fixpoint replies (tr : Trace) : nat :=
  match tr with
  | [] => 0
  | Replied _ _ :: rest => S (replies rest)
  | _ :: rest => replies rest
  end.

(** The number of started tool calls that wait for the network. *)
Fixpoint awaits (steps : list Step) : nat :=
  match steps with
  | [] => 0
  | Await _ _ :: rest => S (awaits rest)
  | Done _ :: rest => awaits rest
  end.

(** The tool calls of a turn, by the outcome of its inference call. *)
Definition callsOf (r : Outcome (list ContentBlock)) : list ToolUse :=
  match r with
  | Ret response => Loop.toolUsesOf response
  | Throw _ => []
  end.

(** The tool results answer the tool calls of the response, one for one and
    in order. *)
Definition answers (response : list ContentBlock)
    (results : list ToolResultBlock) : Prop :=
  Loop.toolUsesOf response <> []
  /\ map tool_use_id results = map id (Loop.toolUsesOf response).

(** What a bounded loop of turns appends to a history that ends with a
    [user] entry: exchanges of a response with tool calls and the results
    that answer it, closed by a response without tool calls or by nothing
    (the inference call failed, or the bound was reached). *)
Inductive Dialogue : list Message -> Prop :=
| DialogueStopped : Dialogue []
| DialogueFinished (response : list ContentBlock) :
    Loop.toolUsesOf response = [] ->
    Dialogue [{| role := assistant; body := Blocks response |}]
| DialogueContinued (response : list ContentBlock)
    (results : list ToolResultBlock) (rest : list Message) :
    answers response results ->
    Dialogue rest ->
    Dialogue ({| role := assistant; body := Blocks response |}
              :: {| role := user; body := ToolResults results |} :: rest).

(** The roles of the entries alternate, starting with [next]. *)
Fixpoint alternating (next : Role) (messages : list Message) : Prop :=
  match messages with
  | [] => True
  | m :: rest =>
      role m = next
      /\ alternating (match next with user => assistant | assistant => user end)
           rest
  end.

(** A property of a standup entry as the posting tool reads it from an entry
    that is not [null]. *)
Definition entryField (key : string) (e : Json) : JsVal :=
  match e with
  | JObj props => Js.assoc key props
  | _ => None
  end.

(** The note the posting tool makes of an entry. *)
Definition noteOf (e : Json) : Note :=
  {| note_username := entryField "username" e;
     note_yesterday := entryField "yesterday" e;
     note_today := entryField "today" e;
     note_blockers := entryField "blockers" e;
     note_rawSummary := "" |}.


(** * The data-fetch functions behind the read tools *)

(** More of JavaScript's string methods, on the same strings. *)
Module JsMore.

(** [s.substring(0, n)] and [s.slice(0, n)] for [n >= 0]: the first [n]
    code units, or all of [s] when it is shorter. *)
Fixpoint take (n : nat) (s : string) : string :=
  match n, s with
  | S n', String c r => String c (take n' r)
  | _, _ => EmptyString
  end.

(** [s.substring(n)]: [s] without its first [n] code units. *)
Fixpoint drop (n : nat) (s : string) : string :=
  match n, s with
  | S n', String _ r => drop n' r
  | _, _ => s
  end.

(** [s.split(sep)] for a separator of one code unit: the pieces between the
    separators, of which there is always at least one. *)
Fixpoint split (sep : ascii) (s : string) : list string :=
  match s with
  | EmptyString => [EmptyString]
  | String c r =>
      if Ascii.eqb c sep then EmptyString :: split sep r
      else match split sep r with
           | piece :: pieces => String c piece :: pieces
           | [] => [String c EmptyString]
           end
  end.

(** [s.split("\n")[0]]. *)
Definition firstLine (s : string) : string :=
  match split (ascii_of_nat 10) s with
  | piece :: _ => piece
  | [] => EmptyString
  end.

(** [error.message] in a [catch (error: any)]: reading it off [null] or
    [undefined] throws. *)
Definition messageOf (error : Thrown) : Outcome JsVal :=
  match error with
  | ErrorObj m => Ret (Some (JStr m))
  | NonError v => Js.getProp v "message"
  end.

End JsMore.

(** What the fetch functions print with [console.warn], one constructor per
    call site, with the username and the text of [error.message]. *)
Inductive Warning : Type :=
| WarnCommits (username text : string)
| WarnPRs (username text : string)
| WarnIssues (username text : string).

(** ** [src/github/commits.ts] *)

Module Commits.

(** What [octokit.repos.listCommits] gives for one commit, as far as the
    function reads it; [raw_author_date] is [commit.commit.author?.date]. *)
Record RawCommit : Type := {
  raw_sha : string;
  raw_message : string;
  raw_html_url : string;
  raw_author_date : option string
}.

Record CommitSummary : Type := {
  sha : string;
  message : string;
  url : string;
  timestamp : string
}.

(** The callback of [data.map]. *)
Definition summarize (commit : RawCommit) : CommitSummary :=
  {| sha := JsMore.take 7 (raw_sha commit);
     message := JsMore.firstLine (raw_message commit);
     url := raw_html_url commit;
     timestamp := match raw_author_date commit with
                  | Some date => date
                  | None => ""
                  end |}.

(** [fetchCommitsByUser], given the outcome of its one request: the
    summaries it returns and what it warns, unless its [catch] throws. *)
Definition fetchCommitsByUser (listCommits : Outcome (list RawCommit))
    (username : string) : Outcome (list CommitSummary * list Warning) :=
  match listCommits with
  | Ret data => Ret (map summarize data, [])
  | Throw error =>
      text ← JsMore.messageOf error;
      Ret ([], [WarnCommits username (Js.String_ text)])
  end.

(** The summary as [JSON.stringify] sees it. *)
Definition toJson (c : CommitSummary) : Json :=
  JObj [("sha", JStr (sha c)); ("message", JStr (message c));
        ("url", JStr (url c)); ("timestamp", JStr (timestamp c))].

(** What the [await] in the [fetch_commits] case of [executeTool] gets. *)
Definition reply (listCommits : Outcome (list RawCommit)) (username : string)
  : Outcome Json :=
  out ← fetchCommitsByUser listCommits username;
  Ret (JArr (map toJson out.1)).

End Commits.

(** ** [src/github/prs.ts] *)

Module PRs.

(** What [octokit.pulls.list] gives for one pull request, as far as the
    function reads it; [raw_login] is [pr.user?.login], [raw_merged_at] is
    [null] when it is [None]. *)
Record RawPR : Type := {
  raw_number : Z;
  raw_title : string;
  raw_state : string;
  raw_login : option string;
  raw_created_at : string;
  raw_merged_at : option string;
  raw_html_url : string
}.

(** One review of [octokit.pulls.listReviews]. *)
Record RawReview : Type := {
  review_login : option string;
  review_submitted_at : option string
}.

Record PRSummary : Type := {
  number : Z;
  title : string;
  state : string;
  action : string;
  url : string;
  timestamp : string
}.

(** The three kinds of request the function makes, each with its outcome:
    the first and the second listing of the pull requests, and the reviews
    of the pull request at a position of the second listing. *)
Record Api : Type := {
  listAuthored : Outcome (list RawPR);
  listReviewed : Outcome (list RawPR);
  listReviews : nat -> RawPR -> Outcome (list RawReview)
}.

Section Fetch.

(** [new Date(text).getTime()], [None] for an invalid date. *)
Variable parseDate : string -> option Z.

Variable api : Api.
Variable username : string.
Variable since : Z.

(** [login?.toLowerCase() === username.toLowerCase()]. *)
Definition byUser (login : option string) : bool :=
  match login with
  | Some l => String.eqb (toLowerCase l) (toLowerCase username)
  | None => false
  end.








(** The outer [catch]: it warns and lets the function return what it has. *)
Definition warned (results : list PRSummary) (error : Thrown)
  : Outcome (list PRSummary * list Warning) :=
  text ← JsMore.messageOf error;
  Ret (results, [WarnPRs username (Js.String_ text)]).


End Fetch.

End PRs.

(** ** [src/github/issues.ts] *)

Module Issues.

(** One comment of [octokit.issues.listCommentsForRepo];
    [comment_login] is [comment.user?.login]. *)
Record RawComment : Type := {
  comment_login : option string;
  comment_issue_url : string;
  comment_body : option string;
  comment_created_at : string
}.

(** One issue of [octokit.issues.get] or [octokit.issues.listForRepo];
    [raw_pull_request] says that [issue.pull_request] is there. *)
Record RawIssue : Type := {
  raw_number : Z;
  raw_title : string;
  raw_state : string;
  raw_html_url : string;
  raw_created_at : string;
  raw_updated_at : string;
  raw_pull_request : bool
}.

Record IssueActivitySummary : Type := {
  number : Z;
  title : string;
  state : string;
  action : string;
  url : string;
  comment : option string;
  timestamp : string
}.

(** The requests of the function with their outcomes: the comments of the
    repository, the issue of the comment at a position (of the member's
    comments) by its number, the issues the member created and the open
    issues assigned to the member. *)
Record Api : Type := {
  listComments : Outcome (list RawComment);
  getIssue : nat -> Z -> Outcome RawIssue;
  listCreated : Outcome (list RawIssue);
  listAssigned : Outcome (list RawIssue)
}.

Definition isDigit (c : ascii) : bool :=
  ((48 <=? code c) && (code c <=? 57))%nat.

(** A string cut before its longest run of digits at the end. *)
Fixpoint splitTrailingDigits (s : string) : string * string :=
  match s with
  | EmptyString => (EmptyString, EmptyString)
  | String c r =>
      let '(before, digits) := splitTrailingDigits r in
      match before with
      | EmptyString =>
          if isDigit c then (EmptyString, String c digits)
          else (String c EmptyString, digits)
      | _ => (String c before, digits)
      end
  end.

(** [s.endsWith(suffix)]. *)
Definition endsWith (s suffix : string) : bool :=
  (String.length suffix <=? String.length s)%nat
  && String.eqb (JsMore.drop (String.length s - String.length suffix) s) suffix.

(** [parseInt(digits)] on a run of decimal digits, from the value read so
    far. *)
Fixpoint parseDigits (acc : N) (digits : string) : N :=
  match digits with
  | EmptyString => acc
  | String c r => parseDigits (10 * acc + N.of_nat (code c - 48)) r
  end.

(** [url.match(/\/issues\/(\d+)$/)] and [parseInt(match[1])]: the number at
    the end of the address, when [/issues/] stands right before it. *)
Definition issueNumberOf (address : string) : option Z :=
  let '(before, digits) := splitTrailingDigits address in
  match digits with
  | EmptyString => None
  | _ => if endsWith before "/issues/"
         then Some (Z.of_N (parseDigits 0 digits))
         else None
  end.

Section Fetch.

Variable api : Api.
Variable username : string.

Definition byUser (login : option string) : bool :=
  match login with
  | Some l => String.eqb (toLowerCase l) (toLowerCase username)
  | None => false
  end.

(** The body of the first [for] loop for the member's comment at position
    [i]: what it pushes. *)
Definition commentedEntry (i : nat) (c : RawComment)
  : list IssueActivitySummary :=
  match issueNumberOf (comment_issue_url c) with
  | None => []
  | Some issueNumber =>
      match getIssue api i issueNumber with
      | Ret issue =>
          if raw_pull_request issue then []
          else [{| number := issueNumber;
                   title := raw_title issue;
                   state := raw_state issue;
                   action := "commented";
                   url := raw_html_url issue;
                   comment := JsMore.take 200 <$> comment_body c;
                   timestamp := comment_created_at c |}]
      | Throw _ => []
      end
  end.

Fixpoint commentedEntries (i : nat) (comments : list RawComment)
  : list IssueActivitySummary :=
  match comments with
  | [] => []
  | c :: rest => (commentedEntry i c ++ commentedEntries (S i) rest)%list
  end.

(** The body of the second [for] loop. *)
Definition createdEntry (issue : RawIssue) : list IssueActivitySummary :=
  if raw_pull_request issue then []
  else [{| number := raw_number issue;
           title := raw_title issue;
           state := raw_state issue;
           action := if String.eqb (raw_state issue) "closed" then "closed"
                     else "opened";
           url := raw_html_url issue;
           comment := None;
           timestamp := raw_created_at issue |}].

Definition assignedEntry (issue : RawIssue) : IssueActivitySummary :=
  {| number := raw_number issue;
     title := raw_title issue;
     state := raw_state issue;
     action := "assigned";
     url := raw_html_url issue;
     comment := None;
     timestamp := raw_updated_at issue |}.

(** The third [for] loop, which looks at the results so far. *)
Fixpoint addAssigned (results : list IssueActivitySummary)
    (issues : list RawIssue) : list IssueActivitySummary :=
  match issues with
  | [] => results
  | issue :: rest =>
      if raw_pull_request issue then addAssigned results rest
      else if existsb (fun r => (number r =? raw_number issue)%Z) results
           then addAssigned results rest
           else addAssigned (results ++ [assignedEntry issue])%list rest
  end.

Definition warned (results : list IssueActivitySummary) (error : Thrown)
  : Outcome (list IssueActivitySummary * list Warning) :=
  text ← JsMore.messageOf error;
  Ret (results, [WarnIssues username (Js.String_ text)]).

Definition fetchIssueActivityByUser
  : Outcome (list IssueActivitySummary * list Warning) :=
  match listComments api with
  | Throw error => warned [] error
  | Ret comments =>
      let userComments :=
        List.filter (fun c => byUser (comment_login c)) comments in
      let results1 := commentedEntries 0 userComments in
      match listCreated api with
      | Throw error => warned results1 error
      | Ret userIssues =>
          let results2 := (results1 ++ flat_map createdEntry userIssues)%list in
          match listAssigned api with
          | Throw error => warned results2 error
          | Ret assignedIssues => Ret (addAssigned results2 assignedIssues, [])
          end
      end
  end.

End Fetch.

End Issues.

(** Where an entry of the issue activity comes from: an issue that is not a
    pull request, fetched for a comment of the member, or listed as created
    by or as assigned to the member. *)
Definition issueSource (api : Issues.Api) (username : string)
    (e : Issues.IssueActivitySummary) : Prop :=
  (Issues.action e = "commented"
   /\ exists comments i c issue,
        Issues.listComments api = Ret comments
        /\ In c comments
        /\ Issues.byUser username (Issues.comment_login c) = true
        /\ Issues.issueNumberOf (Issues.comment_issue_url c)
           = Some (Issues.number e)
        /\ Issues.getIssue api i (Issues.number e) = Ret issue
        /\ Issues.raw_pull_request issue = false
        /\ Issues.title e = Issues.raw_title issue
        /\ Issues.comment e = JsMore.take 200 <$> Issues.comment_body c)
  \/ (In (Issues.action e) ["opened"; "closed"]
      /\ exists created issue,
           Issues.listCreated api = Ret created
           /\ In issue created
           /\ Issues.raw_pull_request issue = false
           /\ Issues.number e = Issues.raw_number issue
           /\ Issues.title e = Issues.raw_title issue
           /\ Issues.comment e = None)
  \/ (Issues.action e = "assigned"
      /\ exists assigned issue,
           Issues.listAssigned api = Ret assigned
           /\ In issue assigned
           /\ Issues.raw_pull_request issue = false
           /\ e = Issues.assignedEntry issue).


(** No entry reported as assigned repeats the number of an entry before
    it. *)
Definition assignedOnce (results : list Issues.IssueActivitySummary) : Prop :=
  forall i j x e,
    i < j -> results !! i = Some x -> results !! j = Some e ->
    Issues.action e = "assigned" ->
    Issues.number x <> Issues.number e.

(** A repository with one comment of alice on issue 42, which she also
    opened, and two issues assigned to her. *)
Module IssueScenario.

Definition issue (n : Z) (label : string) (pr : bool) : Issues.RawIssue :=
  {| Issues.raw_number := n;
     Issues.raw_title := label;
     Issues.raw_state := "open";
     Issues.raw_html_url := "https://github.com/acme/web/issues/" ++ label;
     Issues.raw_created_at := "2024-05-01T08:00:00Z";
     Issues.raw_updated_at := "2024-05-02T08:00:00Z";
     Issues.raw_pull_request := pr |}.

Definition api : Issues.Api :=
  {| Issues.listComments :=
       Ret [ {| Issues.comment_login := Some "Alice";
                Issues.comment_issue_url :=
                  "https://api.github.com/repos/acme/web/issues/42";
                Issues.comment_body := Some "looks good";
                Issues.comment_created_at := "2024-05-02T09:00:00Z" |} ];
     Issues.getIssue := fun _ n => Ret (issue n "login" false);
     Issues.listCreated := Ret [issue 42 "login" false; issue 7 "patch" true];
     Issues.listAssigned := Ret [issue 42 "login" false; issue 43 "logout" false]
  |}.

Definition reported : list Issues.IssueActivitySummary :=
  match Issues.fetchIssueActivityByUser api "alice" with
  | Ret (results, _) => results
  | Throw _ => []
  end.

End IssueScenario.

(** ** The configuration: [src/setup.ts]

    [runSetupWizard] and [updateConfig] as functions of what is typed and
    of the configuration read from the file.  The lines they print are left
    out, apart from the complaint an exit goes with; [parseInt] is a
    variable of the section. *)

Module Setup.

(** A number as [parseInt] gives it. *)
Inductive JsNumber : Type :=
| NaN
| Infinite (negative : bool)
| Finite (z : Z).

Record SetupConfig : Type := {
  github_token : string;
  github_owner : string;
  github_repo : string;
  github_repos : option (list Repo);
  team_members : list string;
  slack_user_token : string;
  slack_channel_id : string;
  anthropic_api_key : string;
  lookback_hours : JsNumber;
  schedule : string;
  timezone : string
}.

(** [Boolean(s)] and [if (s)] on a string. *)
Definition nonEmpty (s : string) : bool := negb (String.eqb s "").

Definition maskSecret (value : string) : string :=
  if negb (nonEmpty value) || (String.length value <? 8)%nat then "****"
  else JsMore.take 4 value ++ "****"
       ++ JsMore.drop (String.length value - 4) value.

(** [value.split(",").map((m) => m.trim()).filter(Boolean)]. *)
Definition pieces (value : string) : list string :=
  List.filter nonEmpty (map trim (JsMore.split "," value)).

(** What an exit of [updateConfig] complains about. *)
Inductive Complaint : Type :=
| ValueRequired (field : string)
| ConfigNotFound
| NoTeamMember
| InvalidRepoFormat (entry : string)
| NoRepository
| BadLookbackHours
| UnknownField (field : string).

(** [process.exit(code)] after a complaint, or [writeConfig(config)]. *)
Inductive Update : Type :=
| Exit (code : Z) (complaint : Complaint)
| Written (config : SetupConfig).

(** The loop over the pairs in [updateConfig]: the pairs parsed, or the
    first entry that is not [owner/repo]. *)
Fixpoint parseRepos (entries : list string) : string + list Repo :=
  match entries with
  | [] => inr []
  | entry :: rest =>
      match JsMore.split "/" entry with
      | [o; r] =>
          if negb (nonEmpty o) || negb (nonEmpty r) then inl entry
          else match parseRepos rest with
               | inl bad => inl bad
               | inr parsed => inr ({| owner := o; repo := r |} :: parsed)
               end
      | _ => inl entry
      end
  end.

(** [isNaN(hours) || hours <= 0]. *)
Definition notPositive (hours : JsNumber) : bool :=
  match hours with
  | NaN => true
  | Infinite negative => negative
  | Finite z => (z <=? 0)%Z
  end.

Definition withTeamMembers (c : SetupConfig) (members : list string)
  : SetupConfig :=
  {| github_token := github_token c; github_owner := github_owner c;
     github_repo := github_repo c; github_repos := github_repos c;
     team_members := members;
     slack_user_token := slack_user_token c;
     slack_channel_id := slack_channel_id c;
     anthropic_api_key := anthropic_api_key c;
     lookback_hours := lookback_hours c; schedule := schedule c;
     timezone := timezone c |}.

Definition withRepos (c : SetupConfig) (first : Repo) (parsed : list Repo)
  : SetupConfig :=
  {| github_token := github_token c; github_owner := owner first;
     github_repo := repo first; github_repos := Some parsed;
     team_members := team_members c;
     slack_user_token := slack_user_token c;
     slack_channel_id := slack_channel_id c;
     anthropic_api_key := anthropic_api_key c;
     lookback_hours := lookback_hours c; schedule := schedule c;
     timezone := timezone c |}.

Definition withSlackChannel (c : SetupConfig) (value : string) : SetupConfig :=
  {| github_token := github_token c; github_owner := github_owner c;
     github_repo := github_repo c; github_repos := github_repos c;
     team_members := team_members c;
     slack_user_token := slack_user_token c;
     slack_channel_id := value;
     anthropic_api_key := anthropic_api_key c;
     lookback_hours := lookback_hours c; schedule := schedule c;
     timezone := timezone c |}.

Definition withSlackToken (c : SetupConfig) (value : string) : SetupConfig :=
  {| github_token := github_token c; github_owner := github_owner c;
     github_repo := github_repo c; github_repos := github_repos c;
     team_members := team_members c;
     slack_user_token := value;
     slack_channel_id := slack_channel_id c;
     anthropic_api_key := anthropic_api_key c;
     lookback_hours := lookback_hours c; schedule := schedule c;
     timezone := timezone c |}.

Definition withGithubToken (c : SetupConfig) (value : string) : SetupConfig :=
  {| github_token := value; github_owner := github_owner c;
     github_repo := github_repo c; github_repos := github_repos c;
     team_members := team_members c;
     slack_user_token := slack_user_token c;
     slack_channel_id := slack_channel_id c;
     anthropic_api_key := anthropic_api_key c;
     lookback_hours := lookback_hours c; schedule := schedule c;
     timezone := timezone c |}.

Definition withAnthropicKey (c : SetupConfig) (value : string) : SetupConfig :=
  {| github_token := github_token c; github_owner := github_owner c;
     github_repo := github_repo c; github_repos := github_repos c;
     team_members := team_members c;
     slack_user_token := slack_user_token c;
     slack_channel_id := slack_channel_id c;
     anthropic_api_key := value;
     lookback_hours := lookback_hours c; schedule := schedule c;
     timezone := timezone c |}.

Definition withLookbackHours (c : SetupConfig) (hours : JsNumber)
  : SetupConfig :=
  {| github_token := github_token c; github_owner := github_owner c;
     github_repo := github_repo c; github_repos := github_repos c;
     team_members := team_members c;
     slack_user_token := slack_user_token c;
     slack_channel_id := slack_channel_id c;
     anthropic_api_key := anthropic_api_key c;
     lookback_hours := hours; schedule := schedule c;
     timezone := timezone c |}.

Definition withTimezone (c : SetupConfig) (value : string) : SetupConfig :=
  {| github_token := github_token c; github_owner := github_owner c;
     github_repo := github_repo c; github_repos := github_repos c;
     team_members := team_members c;
     slack_user_token := slack_user_token c;
     slack_channel_id := slack_channel_id c;
     anthropic_api_key := anthropic_api_key c;
     lookback_hours := lookback_hours c; schedule := schedule c;
     timezone := value |}.

Definition withSchedule (c : SetupConfig) (value : string) : SetupConfig :=
  {| github_token := github_token c; github_owner := github_owner c;
     github_repo := github_repo c; github_repos := github_repos c;
     team_members := team_members c;
     slack_user_token := slack_user_token c;
     slack_channel_id := slack_channel_id c;
     anthropic_api_key := anthropic_api_key c;
     lookback_hours := lookback_hours c; schedule := value;
     timezone := timezone c |}.

(** What is typed at the prompts of the wizard, in their order. *)
Record Answers : Type := {
  typed_github_token : string;
  typed_github_owner : string;
  typed_github_repo : string;
  typed_extra_repos : string;
  typed_team : string;
  typed_slack_token : string;
  typed_slack_channel : string;
  typed_schedule : string;
  typed_timezone : string;
  typed_lookback : string;
  typed_anthropic_key : string
}.

(** [prompt] hands back the line trimmed. *)
Definition prompt (typed : string) : string := trim typed.

(** The loop over the additional repositories of the wizard, which skips
    what is not [owner/repo]. *)
Fixpoint extraRepos (entries : list string) : list Repo :=
  match entries with
  | [] => []
  | entry :: rest =>
      match JsMore.split "/" entry with
      | [o; r] =>
          if nonEmpty o && nonEmpty r
          then {| owner := o; repo := r |} :: extraRepos rest
          else extraRepos rest
      | _ => extraRepos rest
      end
  end.

(** [s || fallback] on strings. *)
Definition orElse (s fallback : string) : string :=
  if nonEmpty s then s else fallback.

Section Numbers.

(** [parseInt(text, radix)], and [parseInt(text)] with [None]. *)
Variable parseInt : string -> option Z -> JsNumber.

(** [updateConfig(field, value)], where [loaded] is the configuration in the
    file, if there is one. *)
Definition updateConfig (field value : string) (loaded : option SetupConfig)
  : Update :=
  if negb (nonEmpty value) then Exit 1 (ValueRequired field)
  else
    match loaded with
    | None => Exit 1 ConfigNotFound
    | Some config =>
        if String.eqb field "team-members" then
          match pieces value with
          | [] => Exit 1 NoTeamMember
          | members => Written (withTeamMembers config members)
          end
        else if String.eqb field "repos" then
          match parseRepos (pieces value) with
          | inl entry => Exit 1 (InvalidRepoFormat entry)
          | inr [] => Exit 1 NoRepository
          | inr (first :: rest) =>
              Written (withRepos config first (first :: rest))
          end
        else if String.eqb field "slack-channel" then
          Written (withSlackChannel config value)
        else if String.eqb field "slack-token" then
          Written (withSlackToken config value)
        else if String.eqb field "github-token" then
          Written (withGithubToken config value)
        else if String.eqb field "anthropic-key" then
          Written (withAnthropicKey config value)
        else if String.eqb field "lookback-hours" then
          let hours := parseInt value (Some 10%Z) in
          if notPositive hours then Exit 1 BadLookbackHours
          else Written (withLookbackHours config hours)
        else if String.eqb field "timezone" then
          Written (withTimezone config value)
        else if String.eqb field "schedule" then
          Written (withSchedule config value)
        else Exit 1 (UnknownField field)
    end.

(** [runSetupWizard]: the configuration it writes, or [None] when it exits
    for want of the Anthropic key. *)
Definition runSetupWizard (typed : Answers) : option SetupConfig :=
  let github_token_ := prompt (typed_github_token typed) in
  let github_owner_ := prompt (typed_github_owner typed) in
  let github_repo_ := prompt (typed_github_repo typed) in
  let extraReposInput := prompt (typed_extra_repos typed) in
  let primary := {| owner := github_owner_; repo := github_repo_ |} in
  let github_repos_ :=
    if nonEmpty extraReposInput
    then primary :: extraRepos (pieces extraReposInput)
    else [primary] in
  let teamInput := prompt (typed_team typed) in
  let team_members_ := map trim (JsMore.split "," teamInput) in
  let slack_user_token_ := prompt (typed_slack_token typed) in
  let slack_channel_id_ := prompt (typed_slack_channel typed) in
  let schedule_ := prompt (typed_schedule typed) in
  let timezone_ := prompt (typed_timezone typed) in
  let lookbackInput := prompt (typed_lookback typed) in
  let anthropic_api_key_ := prompt (typed_anthropic_key typed) in
  if negb (nonEmpty anthropic_api_key_) then None
  else Some {| github_token := github_token_;
               github_owner := github_owner_;
               github_repo := github_repo_;
               github_repos := Some github_repos_;
               team_members := team_members_;
               slack_user_token := slack_user_token_;
               slack_channel_id := slack_channel_id_;
               anthropic_api_key := anthropic_api_key_;
               lookback_hours := if nonEmpty lookbackInput
                                 then parseInt lookbackInput None
                                 else Finite 24;
               schedule := orElse schedule_ "0 9 * * 1-5";
               timezone := orElse timezone_ "Asia/Kolkata" |}.

End Numbers.

(** [config.github_repos ?? [{ owner, repo }]] of [showCurrentConfig]. *)
Definition reposOf (config : SetupConfig) : list Repo :=
  match github_repos config with
  | Some repos => repos
  | None => [{| owner := github_owner config; repo := github_repo config |}]
  end.

End Setup.

(** The repository of the pipeline, [github_owner] and [github_repo], is
    the first of the repositories of the agent. *)
Definition primaryListed (config : Setup.SetupConfig) : Prop :=
  exists rest,
    Setup.reposOf config
    = {| owner := Setup.github_owner config;
         repo := Setup.github_repo config |} :: rest.

(** Every code unit of the text passes the test. *)
Fixpoint every (p : ascii -> bool) (s : string) : bool :=
  match s with
  | EmptyString => true
  | String c r => p c && every p r
  end.

Definition isNot (sep : ascii) (c : ascii) : bool := negb (Ascii.eqb c sep).

(** No code unit of the text is a separator or white space. *)
Definition plain (s : string) : bool :=
  every (fun c => negb (is_space c) && isNot "," c && isNot "/" c) s.

(** What [updateConfig] has checked when it writes the field: members and
    repositories are there and have names, the repository of the pipeline
    is the first, the hours are positive. *)
Definition fieldChecked (field : string) (config : Setup.SetupConfig) : Prop :=
  (field = "team-members" ->
     Setup.team_members config <> []
     /\ Forall (fun m => Setup.nonEmpty m = true) (Setup.team_members config))
  /\ (field = "repos" ->
        Setup.github_repos config <> None
        /\ primaryListed config
        /\ Forall (fun r => Setup.nonEmpty (owner r) = true
                            /\ Setup.nonEmpty (repo r) = true)
             (Setup.reposOf config))
  /\ (field = "lookback-hours" ->
        Setup.notPositive (Setup.lookback_hours config) = false).

(** What [updateConfig] leaves as it was when the field is another. *)
Definition othersKept (field : string) (before after : Setup.SetupConfig)
  : Prop :=
  (field <> "team-members" ->
     Setup.team_members after = Setup.team_members before)
  /\ (field <> "repos" ->
        Setup.github_repos after = Setup.github_repos before
        /\ Setup.github_owner after = Setup.github_owner before
        /\ Setup.github_repo after = Setup.github_repo before)
  /\ (field <> "lookback-hours" ->
        Setup.lookback_hours after = Setup.lookback_hours before)
  /\ (field <> "slack-channel" ->
        Setup.slack_channel_id after = Setup.slack_channel_id before)
  /\ (field <> "slack-token" ->
        Setup.slack_user_token after = Setup.slack_user_token before)
  /\ (field <> "github-token" ->
        Setup.github_token after = Setup.github_token before)
  /\ (field <> "anthropic-key" ->
        Setup.anthropic_api_key after = Setup.anthropic_api_key before)
  /\ (field <> "timezone" -> Setup.timezone after = Setup.timezone before)
  /\ (field <> "schedule" -> Setup.schedule after = Setup.schedule before).

(** A name a repository or its owner can be written with in a list of
    pairs. *)
Definition plainName (s : string) : bool := Setup.nonEmpty s && plain s.

(** A configuration, and what is typed at the wizard to get it. *)
Module SetupScenario.

Definition typed : Setup.Answers :=
  {| Setup.typed_github_token := "ghp_0123456789abcdef";
     Setup.typed_github_owner := " acme ";
     Setup.typed_github_repo := "web";
     Setup.typed_extra_repos := "acme/infra, acme/docs/old,";
     Setup.typed_team := "alice, bob";
     Setup.typed_slack_token := "xoxp-1";
     Setup.typed_slack_channel := "C01";
     Setup.typed_schedule := "";
     Setup.typed_timezone := "";
     Setup.typed_lookback := "";
     Setup.typed_anthropic_key := "sk-ant-1" |}.

(** A [parseInt] for the texts of the scenario. *)
Definition parseInt (text : string) (radix : option Z) : Setup.JsNumber :=
  if String.eqb text "48" then Setup.Finite 48 else Setup.NaN.

Definition config : Setup.SetupConfig :=
  match Setup.runSetupWizard parseInt typed with
  | Some c => c
  | None =>
      {| Setup.github_token := ""; Setup.github_owner := "";
         Setup.github_repo := ""; Setup.github_repos := None;
         Setup.team_members := []; Setup.slack_user_token := "";
         Setup.slack_channel_id := ""; Setup.anthropic_api_key := "";
         Setup.lookback_hours := Setup.NaN; Setup.schedule := "";
         Setup.timezone := "" |}
  end.

Definition repos : list Repo :=
  [ {| owner := "acme"; repo := "api" |}; {| owner := "acme"; repo := "web" |} ].

End SetupScenario.

(** * Properties *)

(** ** Examples of the embedding *)

Example lower_ex : JsString.toLowerCase "Acme/WEB" = "acme/web".
Proof. reflexivity. Qed.

Example trim_ex : trim "  exit  " = "exit".
Proof. reflexivity. Qed.

Example error_payload_ex :
  JSON.error_payload ("No " ++ dq ++ "x" ++ dq)
  = "{" ++ dq ++ "error" ++ dq ++ ":" ++ dq ++ "No \" ++ dq ++ "x\" ++ dq ++ dq ++ "}".
Proof. reflexivity. Qed.

Example stringify_indent_ex :
  JSON.stringify_indent2 (JArr [JObj [("n", JNum 42)]; JArr []])
  = "[" ++ nl ++ "  {" ++ nl ++ "    " ++ dq ++ "n" ++ dq ++ ": 42" ++ nl
    ++ "  }," ++ nl ++ "  []" ++ nl ++ "]".
Proof. reflexivity. Qed.

(** ** Strings *)

Section StringFacts.

Lemma append_cons (c : ascii) (a b : string) :
  String c a ++ b = String c (a ++ b).
Proof. reflexivity. Qed.

Lemma append_nil_r (a : string) : a ++ "" = a.
Proof. induction a as [|c a IH]; [done|]. by rewrite append_cons, IH. Qed.

Lemma append_assoc (a b c : string) : (a ++ b) ++ c = a ++ b ++ c.
Proof. induction a as [|x a IH]; [done|]. by rewrite !append_cons, IH. Qed.

Lemma prefix_app (n b : string) : String.prefix n (n ++ b) = true.
Proof.
  induction n as [|c n IH]; simpl.
  - by destruct b.
  - destruct (ascii_dec c c); [exact IH | congruence].
Qed.

Lemma includes_prefix (h n : string) :
  String.prefix n h = true -> includes h n = true.
Proof. intros H. destruct h; cbn [includes]; by rewrite H. Qed.

Lemma includes_here (n b : string) : includes (n ++ b) n = true.
Proof. apply includes_prefix, prefix_app. Qed.

Lemma includes_skip (a h n : string) :
  includes h n = true -> includes (a ++ h) n = true.
Proof.
  intros H. induction a as [|c a IH]; simpl; [done|].
  rewrite IH. apply orb_true_r.
Qed.

Lemma includes_mid (a n b : string) : includes (a ++ n ++ b) n = true.
Proof. apply includes_skip, includes_here. Qed.

Lemma includes_refl (n : string) : includes n n = true.
Proof.
  pose proof (includes_here n "") as H. by rewrite append_nil_r in H.
Qed.

Lemma includes_join (sep x : string) (parts : list string) :
  In x parts -> includes (join sep parts) x = true.
Proof.
  induction parts as [|y rest IH]; [done|].
  intros [->|Hin]; simpl.
  - destruct rest; [apply includes_refl | apply includes_here].
  - destruct rest as [|z rest']; [done|].
    apply includes_skip, includes_skip, IH, Hin.
Qed.

End StringFacts.

(** ** Array methods with callbacks that do not throw *)

Section PureCallbacks.

Context {A : Type}.

Lemma some_pure (f : A -> Outcome bool) (g : A -> bool) (l : list A) :
  (forall x, In x l -> f x = Ret (g x)) -> Js.some f l = Ret (existsb g l).
Proof.
  induction l as [|x l IH]; intros Hf; simpl; [done|].
  rewrite Hf by (by left). simpl.
  destruct (g x); simpl; [done|].
  apply IH. intros y Hy. apply Hf. by right.
Qed.

Lemma some_nil_or_throw (f : A -> Outcome bool) (e : Thrown) (l : list A) :
  (forall x, In x l -> f x = Throw e) ->
  Js.some f l = match l with [] => Ret false | _ => Throw e end.
Proof.
  destruct l as [|x l]; intros Hf; simpl; [done|].
  by rewrite Hf by (by left).
Qed.

Lemma filter_pure (f : A -> Outcome bool) (g : A -> bool) (l : list A) :
  (forall x, In x l -> f x = Ret (g x)) ->
  Js.filter f l = Ret (List.filter g l).
Proof.
  induction l as [|x l IH]; intros Hf; simpl; [done|].
  rewrite Hf by (by left). simpl.
  rewrite IH by (intros y Hy; apply Hf; by right). simpl.
  by destruct (g x).
Qed.

Lemma map_pure {B : Type} (f : A -> Outcome B) (g : A -> B) (l : list A) :
  (forall x, In x l -> f x = Ret (g x)) ->
  Js.map f l = Ret (List.map g l).
Proof.
  induction l as [|x l IH]; intros Hf; simpl; [done|].
  rewrite Hf by (by left). simpl.
  by rewrite IH by (intros y Hy; apply Hf; by right).
Qed.

End PureCallbacks.

(** ** The access guard *)

Module AccessGuard.

Import Tools.

Lemma repoMatches_str (o r : string) (x : Repo) :
  repoMatches (Some (JStr o)) (Some (JStr r)) x = Ret (sameRepo o r x).
Proof.
  unfold repoMatches, sameRepo. simpl.
  by destruct (String.eqb (toLowerCase (owner x)) (toLowerCase o)).
Qed.

Lemma validateRepo_str (o r : string) (ctx : ToolContext) :
  validateRepo (Some (JStr o)) (Some (JStr r)) ctx
  = match allowedRepos ctx with
    | None => Ret None
    | Some repos =>
        if existsb (sameRepo o r) repos then Ret None
        else Ret (Some (repoDenied (Some (JStr o)) (Some (JStr r)) repos))
    end.
Proof.
  unfold validateRepo. destruct (allowedRepos ctx) as [repos|]; [|done].
  rewrite (some_pure _ (sameRepo o r)) by (intros; apply repoMatches_str).
  simpl. by destruct (existsb _ _).
Qed.

Lemma validateMember_str (u : string) (ctx : ToolContext) :
  validateMember (Some (JStr u)) ctx
  = match allowedMembers ctx with
    | None => Ret None
    | Some members =>
        if existsb (sameMember u) members then Ret None
        else Ret (Some (memberDenied (Some (JStr u)) members))
    end.
Proof.
  unfold validateMember. destruct (allowedMembers ctx) as [members|]; [|done].
  rewrite (some_pure _ (sameMember u)) by done.
  simpl. by destruct (existsb _ _).
Qed.

Lemma sameRepo_iff (o r : string) (repos : list Repo) :
  existsb (sameRepo o r) repos = true
  <-> exists x, In x repos
                /\ toLowerCase (owner x) = toLowerCase o
                /\ toLowerCase (repo x) = toLowerCase r.
Proof.
  rewrite existsb_exists. unfold sameRepo.
  split; intros (x & Hin & H); exists x; split; try done.
  - apply andb_true_iff in H as [H1 H2].
    by apply String.eqb_eq in H1, H2.
  - destruct H as [-> ->]. by rewrite !String.eqb_refl.
Qed.

Lemma sameMember_iff (u : string) (members : list string) :
  existsb (sameMember u) members = true
  <-> exists m, In m members /\ toLowerCase m = toLowerCase u.
Proof.
  rewrite existsb_exists. unfold sameMember.
  split; intros (m & Hin & H); exists m; split; try done.
  - by apply String.eqb_eq.
  - by apply String.eqb_eq.
Qed.

End AccessGuard.

(** C6.  On string arguments the two guards are exact, case-insensitive
    membership tests that never throw.  [validateRepo] answers [null] when no
    repo allow-list is configured; with a list it answers [null] exactly when
    some configured pair equals the requested one on both components after
    lower-casing, and otherwise a denial that quotes the request and ends
    with every configured [owner/repo] in order.  [validateMember] does the
    same over the configured usernames. *)
Theorem access_guard_membership (o r u : string) (ctx : ToolContext) :
  let vr := Tools.validateRepo (Some (JStr o)) (Some (JStr r)) ctx in
  let vm := Tools.validateMember (Some (JStr u)) ctx in
  match allowedRepos ctx with
  | None => vr = Ret None
  | Some repos =>
      let allowed :=
        exists x, In x repos
                  /\ toLowerCase (owner x) = toLowerCase o
                  /\ toLowerCase (repo x) = toLowerCase r in
      let denial :=
        "Access denied: repository " ++ dq ++ o ++ "/" ++ r ++ dq
        ++ " is not in the configured list. Allowed repos: "
        ++ join ", " (map (fun x => owner x ++ "/" ++ repo x) repos) in
      (vr = Ret None <-> allowed)
      /\ (~ allowed <-> vr = Ret (Some denial))
      /\ (forall x, In x repos -> includes denial (owner x ++ "/" ++ repo x) = true)
  end
  /\
  match allowedMembers ctx with
  | None => vm = Ret None
  | Some members =>
      let allowed :=
        exists m, In m members /\ toLowerCase m = toLowerCase u in
      let denial :=
        "Access denied: " ++ dq ++ u ++ dq
        ++ " is not a configured team member. Allowed members: "
        ++ join ", " members in
      (vm = Ret None <-> allowed)
      /\ (~ allowed <-> vm = Ret (Some denial))
      /\ (forall m, In m members -> includes denial m = true)
  end.
Proof.
  cbv zeta.
  rewrite AccessGuard.validateRepo_str, AccessGuard.validateMember_str.
  split.
  - destruct (allowedRepos ctx) as [repos|]; [|done].
    rewrite <- AccessGuard.sameRepo_iff.
    unfold Tools.repoDenied, Tools.repoLabel. cbn [Js.String_ Js.toString].
    assert (forall x, In x repos ->
              includes (join ", " (map (fun x => owner x ++ "/" ++ repo x) repos))
                       (owner x ++ "/" ++ repo x) = true) as Hall
      by (intros x Hx; apply includes_join, in_map_iff; by exists x).
    destruct (existsb _ repos); (split; [|split]);
      try (intuition congruence);
      intros x Hx; do 7 apply includes_skip; by apply Hall.
  - destruct (allowedMembers ctx) as [members|]; [|done].
    rewrite <- AccessGuard.sameMember_iff.
    unfold Tools.memberDenied. cbn [Js.String_ Js.toString].
    destruct (existsb _ members); (split; [|split]);
      try (intuition congruence);
      intros m Hm; do 5 apply includes_skip; by apply includes_join.
Qed.

Lemma access_guard_membership_witness :
  Tools.validateRepo (Some (JStr "ACME")) (Some (JStr "Web")) Scenario.acme
  = Ret None
  /\ Tools.validateMember (Some (JStr "carol")) Scenario.acme
     = Ret (Some ("Access denied: " ++ dq ++ "carol" ++ dq
                  ++ " is not a configured team member. Allowed members: alice, bob")).
Proof.
  pose proof (access_guard_membership "ACME" "Web" "carol" Scenario.acme) as H.
  cbv zeta in H. cbn [allowedRepos allowedMembers Scenario.acme] in H.
  destruct H as ((Hrepo & _) & (_ & Hmember & _)). split.
  - apply Hrepo. exists {| owner := "acme"; repo := "web" |}.
    split; [by left|]. split; reflexivity.
  - apply Hmember. intros (m & [<-|[<-|[]]] & Hm); vm_compute in Hm; discriminate.
Defined.

(** ** The error normaliser *)

(** C9.  [formatGitHubError] is a total function of the thrown value.  A
    value that is not an [Error] is stringified.  An [Error] whose message
    carries one of the three signals is mapped to the fixed message of a
    category it signals, the first in the order not-found, bad-credentials,
    rate-limit; an [Error] with no signal keeps its message unchanged. *)
Theorem formatGitHubError_best_effort (error : Thrown) :
  match error with
  | NonError v => Tools.formatGitHubError error = Js.String_ v
  | ErrorObj msg =>
      let out := Tools.formatGitHubError error in
      let notFound := includes msg "Not Found" || includes msg "404" in
      let badCredentials := includes msg "Bad credentials" || includes msg "401" in
      let rateLimit := includes msg "rate limit" || includes msg "403" in
      let m404 :=
        "Repository or user not found. The repo may be private or the name may be incorrect." in
      let m401 :=
        "GitHub authentication failed. The token may be invalid or expired." in
      let m403 :=
        "GitHub API rate limit exceeded. Please wait a few minutes and try again." in
      (notFound = true -> out = m404)
      /\ (notFound = false -> badCredentials = true -> out = m401)
      /\ (notFound = false -> badCredentials = false -> rateLimit = true ->
          out = m403)
      /\ (notFound || badCredentials || rateLimit = true ->
          (notFound = true /\ out = m404)
          \/ (badCredentials = true /\ out = m401)
          \/ (rateLimit = true /\ out = m403))
      /\ (notFound || badCredentials || rateLimit = false -> out = msg)
  end.
Proof.
  destruct error as [msg|v]; [|done].
  cbv zeta. unfold Tools.formatGitHubError.
  destruct (includes msg "Not Found" || includes msg "404");
    destruct (includes msg "Bad credentials" || includes msg "401");
    destruct (includes msg "rate limit" || includes msg "403");
    cbn [orb]; intuition (done || auto).
Qed.

Lemma formatGitHubError_best_effort_witness :
  Tools.formatGitHubError (ErrorObj "HttpError: Bad credentials")
  = "GitHub authentication failed. The token may be invalid or expired.".
Proof.
  pose proof (formatGitHubError_best_effort
                (ErrorObj "HttpError: Bad credentials")) as H.
  cbv zeta in H. destruct H as (_ & H & _).
  apply H; reflexivity.
Defined.

Example formatGitHubError_ex1 :
  Tools.formatGitHubError (ErrorObj "HttpError: Not Found - https://docs.github.com")
  = Tools.msgNotFound.
Proof. reflexivity. Qed.

Example formatGitHubError_ex2 :
  Tools.formatGitHubError (ErrorObj "connect ETIMEDOUT") = "connect ETIMEDOUT".
Proof. reflexivity. Qed.

Example formatGitHubError_ex3 :
  Tools.formatGitHubError (NonError (Some (JArr [JNum 4; JNull; JStr "x"])))
  = "4,,x".
Proof. reflexivity. Qed.

(** ** Array methods with callbacks that may throw *)

Section ThrowingCallbacks.

Context {A : Type}.

Lemma some_true_inv (f : A -> Outcome bool) (l : list A) :
  Js.some f l = Ret true -> exists x, In x l /\ f x = Ret true.
Proof.
  induction l as [|x l IH]; simpl; [done|].
  destruct (f x) as [[|]|e] eqn:Hx; simpl; try done.
  - intros _. exists x. by split; [left|].
  - intros H. destruct (IH H) as (y & Hy & Hfy). exists y. by split; [right|].
Qed.

Lemma filter_nil_inv (f : A -> Outcome bool) (l : list A) :
  Js.filter f l = Ret [] -> Forall (fun x => f x = Ret false) l.
Proof.
  induction l as [|x l IH]; simpl; [by constructor|].
  destruct (f x) as [b|e] eqn:Hx; simpl; [|done].
  destruct (Js.filter f l) as [keep|e] eqn:Hl; simpl; [|done].
  destruct b; [done|]. intros [= ->]. constructor; [done | by apply IH].
Qed.

Lemma map_length_inv {B : Type} (f : A -> Outcome B) (l : list A) (ys : list B) :
  Js.map f l = Ret ys -> length ys = length l.
Proof.
  revert ys. induction l as [|x l IH]; simpl; intros ys.
  - by intros [= <-].
  - destruct (f x) as [y|e]; simpl; [|done].
    destruct (Js.map f l) as [ys'|e]; simpl; [|done].
    intros [= <-]. simpl. f_equal. by apply IH.
Qed.

End ThrowingCallbacks.

(** ** The tool executor *)

Module Executor.

Import Tools.

Lemma executeTool_fetch dl (name_ : string) (input_ : list (string * Json))
    (ctx : ToolContext) :
  In name_ fetchTools ->
  executeTool dl name_ input_ ctx = fetchCase (fetchCall name_) input_ ctx.
Proof.
  intros [<-|[<-|[<-|[]]]]; reflexivity.
Qed.

Lemma executeTool_post dl (input_ : list (string * Json)) (ctx : ToolContext) :
  executeTool dl "post_standup_to_slack" input_ ctx = postCase dl input_ ctx.
Proof. reflexivity. Qed.

(** A read tool reaches the network only after both guards have answered
    [null], and then with the three inputs as they came. *)
Lemma fetchCase_await call (input_ : list (string * Json)) (ctx : ToolContext)
    (c : NetCall) k :
  fetchCase call input_ ctx = Await c k ->
  validateRepo (Js.assoc "owner" input_) (Js.assoc "repo" input_) ctx = Ret None
  /\ validateMember (Js.assoc "username" input_) ctx = Ret None
  /\ c = call (Js.assoc "owner" input_) (Js.assoc "repo" input_)
              (Js.assoc "username" input_).
Proof.
  unfold fetchCase.
  destruct (validateRepo _ _ ctx) as [[?|]|?]; try done.
  destruct (validateMember _ ctx) as [[?|]|?]; try done.
  by intros [= <- _].
Qed.

Lemma fetchCase_repo_denied call (input_ : list (string * Json))
    (ctx : ToolContext) (msg : string) :
  validateRepo (Js.assoc "owner" input_) (Js.assoc "repo" input_) ctx
  = Ret (Some msg) ->
  fetchCase call input_ ctx = Done (Ret (JSON.error_payload msg)).
Proof. unfold fetchCase. by intros ->. Qed.

Lemma fetchCase_repo_throw call (input_ : list (string * Json))
    (ctx : ToolContext) (e : Thrown) :
  validateRepo (Js.assoc "owner" input_) (Js.assoc "repo" input_) ctx = Throw e ->
  fetchCase call input_ ctx = Done (Throw e).
Proof. unfold fetchCase. by intros ->. Qed.

Lemma fetchCase_member_throw call (input_ : list (string * Json))
    (ctx : ToolContext) (e : Thrown) :
  validateRepo (Js.assoc "owner" input_) (Js.assoc "repo" input_) ctx = Ret None ->
  validateMember (Js.assoc "username" input_) ctx = Throw e ->
  fetchCase call input_ ctx = Done (Throw e).
Proof. unfold fetchCase. by intros -> ->. Qed.

End Executor.

(** C2.  A read tool asked for a repository outside the configured repo
    allow-list answers, whatever the username, with the access-denied payload
    of the repo guard, and the driver's callback around it records no network
    call and sets no error flag.  In general a read tool issues its fetch only
    after the repo guard and then the member guard have both answered
    [null]. *)
Theorem repo_denied_before_network (env : Collaborators) (t : ToolUse)
    (ctx : ToolContext) (repos : list Repo) (o r : string) (tr : Trace) :
  In (name t) fetchTools ->
  Js.assoc "owner" (input t) = Some (JStr o) ->
  Js.assoc "repo" (input t) = Some (JStr r) ->
  allowedRepos ctx = Some repos ->
  ~ (exists x, In x repos
               /\ toLowerCase (owner x) = toLowerCase o
               /\ toLowerCase (repo x) = toLowerCase r) ->
  let payload :=
    JSON.error_payload
      ("Access denied: repository " ++ dq ++ o ++ "/" ++ r ++ dq
       ++ " is not in the configured list. Allowed repos: "
       ++ join ", " (map (fun x => owner x ++ "/" ++ repo x) repos)) in
  let started := Loop.startTool env ctx t tr in
  let settled := Loop.settleTool env (id t) started.1 started.2 in
  Tools.executeTool (dateLabelOf env) (name t) (input t) ctx = Done (Ret payload)
  /\ settled.1 = {| tool_use_id := id t; content := payload; is_error := None |}
  /\ networkCalls settled.2 = networkCalls tr
  /\ (forall name_ input_ ctx_ c k,
        In name_ fetchTools ->
        Tools.executeTool (dateLabelOf env) name_ input_ ctx_ = Await c k ->
        Tools.validateRepo (Js.assoc "owner" input_) (Js.assoc "repo" input_) ctx_
        = Ret None
        /\ Tools.validateMember (Js.assoc "username" input_) ctx_ = Ret None).
Proof.
  intros Hname Ho Hr Hrepos Hnot payload started settled.
  assert (Tools.executeTool (dateLabelOf env) (name t) (input t) ctx
          = Done (Ret payload)) as Hexec.
  { rewrite Executor.executeTool_fetch by done.
    apply Executor.fetchCase_repo_denied.
    rewrite Ho, Hr, AccessGuard.validateRepo_str, Hrepos.
    destruct (existsb _ repos) eqn:E; [|done].
    by apply AccessGuard.sameRepo_iff in E. }
  split; [done|].
  subst started settled. unfold Loop.startTool. rewrite Hexec. simpl.
  split; [done|]. split; [done|].
  intros name_ input_ ctx_ c k Hn Hawait.
  rewrite Executor.executeTool_fetch in Hawait by done.
  apply Executor.fetchCase_await in Hawait. tauto.
Qed.

Lemma repo_denied_before_network_witness :
  Tools.executeTool (dateLabelOf Scenario.quiet) "fetch_pull_requests"
    (Scenario.fetchInput "acme" "infra" "alice") Scenario.acme
  = Done (Ret (JSON.error_payload
                 ("Access denied: repository " ++ dq ++ "acme/infra" ++ dq
                  ++ " is not in the configured list. Allowed repos: acme/web"))).
Proof.
  refine (proj1 (repo_denied_before_network Scenario.quiet
                   Scenario.pullRequestsOfInfra Scenario.acme
                   [{| owner := "acme"; repo := "web" |}] "acme" "infra" []
                   _ _ _ _ _)).
  - vm_compute. tauto.
  - reflexivity.
  - reflexivity.
  - reflexivity.
  - intros (x & [<-|[]] & _ & H). vm_compute in H. discriminate.
Defined.

(** ** Missing inputs of the read tools *)

Module MissingInput.

Import Tools.

Lemma validateRepo_no_owner (repo_ : JsVal) (ctx : ToolContext)
    (x : Repo) (repos : list Repo) :
  allowedRepos ctx = Some (x :: repos) ->
  validateRepo None repo_ ctx = Throw undefinedToLowerCase.
Proof. unfold validateRepo. by intros ->. Qed.

Lemma repoMatches_no_repo (o : string) (x : Repo) :
  repoMatches (Some (JStr o)) None x
  = if String.eqb (toLowerCase (owner x)) (toLowerCase o)
    then Throw undefinedToLowerCase else Ret false.
Proof.
  unfold repoMatches. cbn [Js.toLowerCase mbind Outcome_bind].
  by destruct (String.eqb (toLowerCase (owner x)) (toLowerCase o)).
Qed.

Lemma some_no_repo (o : string) (repos : list Repo) :
  Js.some (repoMatches (Some (JStr o)) None) repos
  = if ownerConfigured o repos then Throw undefinedToLowerCase else Ret false.
Proof.
  unfold ownerConfigured.
  induction repos as [|x repos IH]; [done|].
  cbn [Js.some existsb]. rewrite repoMatches_no_repo.
  destruct (String.eqb (toLowerCase (owner x)) (toLowerCase o));
    [reflexivity | exact IH].
Qed.

Lemma validateRepo_no_repo (o : string) (ctx : ToolContext) (repos : list Repo) :
  allowedRepos ctx = Some repos ->
  validateRepo (Some (JStr o)) None ctx
  = if ownerConfigured o repos then Throw undefinedToLowerCase
    else Ret (Some (repoDenied (Some (JStr o)) None repos)).
Proof.
  unfold validateRepo. intros ->. rewrite some_no_repo.
  by destruct (ownerConfigured o repos).
Qed.

Lemma validateMember_no_username (ctx : ToolContext) (m : string)
    (members : list string) :
  allowedMembers ctx = Some (m :: members) ->
  validateMember None ctx = Throw undefinedToLowerCase.
Proof. unfold validateMember. by intros ->. Qed.

End MissingInput.

(** C10, as stated, fails: with the repo allow-list [acme/web] configured, a
    [fetch_commits] call that has an owner nobody configured and no [repo]
    returns the structured access-denied payload; nothing is thrown. *)
Lemma missing_repo_returns_denial :
  In (name Scenario.commitsWithoutRepo) fetchTools
  /\ Js.assoc "repo" (input Scenario.commitsWithoutRepo) = None
  /\ allowedRepos Scenario.acme = Some [{| owner := "acme"; repo := "web" |}]
  /\ Tools.executeTool (dateLabelOf Scenario.quiet)
       (name Scenario.commitsWithoutRepo)
       (input Scenario.commitsWithoutRepo) Scenario.acme
     = Done (Ret (JSON.error_payload
                    ("Access denied: repository " ++ dq ++ "octo/undefined" ++ dq
                     ++ " is not in the configured list. Allowed repos: acme/web")))
  /\ ~ (exists e,
          Tools.executeTool (dateLabelOf Scenario.quiet)
            (name Scenario.commitsWithoutRepo)
            (input Scenario.commitsWithoutRepo) Scenario.acme
          = Done (Throw e)).
Proof.
  split; [vm_compute; tauto|].
  repeat split; try reflexivity.
  intros [e H]. vm_compute in H. discriminate.
Qed.

(** C10, amended.  For a read tool: a missing [owner] makes the repo guard
    throw when the repo allow-list is configured and not empty; a missing
    [repo] makes it throw only when the owner given is the owner of some
    configured repository, and otherwise the call returns the access-denied
    payload for [owner/undefined]; a missing [username] makes the member
    guard throw when the repo guard has passed and the member allow-list is
    configured and not empty, while a repo denial is returned as a payload
    before the username is looked at.  Whatever [executeTool] throws, the
    driver's callback turns into a tool-result block with the call's id, the
    payload [{error: message}] and [is_error] set. *)
Theorem missing_fetch_input (env : Collaborators) (t : ToolUse)
    (ctx : ToolContext) (tr : Trace) :
  In (name t) fetchTools ->
  let owner_ := Js.assoc "owner" (input t) in
  let repo_ := Js.assoc "repo" (input t) in
  let username := Js.assoc "username" (input t) in
  let exec := Tools.executeTool (dateLabelOf env) (name t) (input t) ctx in
  let thrown :=
    ErrorObj "Cannot read properties of undefined (reading 'toLowerCase')" in
  (forall x repos,
      owner_ = None -> allowedRepos ctx = Some (x :: repos) ->
      exec = Done (Throw thrown))
  /\ (forall o repos,
        owner_ = Some (JStr o) -> repo_ = None -> allowedRepos ctx = Some repos ->
        exec =
          if existsb (fun x => String.eqb (toLowerCase (owner x)) (toLowerCase o))
                     repos
          then Done (Throw thrown)
          else Done (Ret (JSON.error_payload
                            ("Access denied: repository " ++ dq ++ o
                             ++ "/undefined" ++ dq
                             ++ " is not in the configured list. Allowed repos: "
                             ++ join ", "
                                  (map (fun x => owner x ++ "/" ++ repo x) repos)))))
  /\ (forall m members,
        username = None ->
        Tools.validateRepo owner_ repo_ ctx = Ret None ->
        allowedMembers ctx = Some (m :: members) ->
        exec = Done (Throw thrown))
  /\ (forall msg,
        username = None ->
        Tools.validateRepo owner_ repo_ ctx = Ret (Some msg) ->
        exec = Done (Ret (JSON.error_payload msg)))
  /\ (forall e,
        exec = Done (Throw e) ->
        let started := Loop.startTool env ctx t tr in
        Loop.settleTool env (id t) started.1 started.2
        = ({| tool_use_id := id t;
              content := JSON.error_payload (Js.errorText e);
              is_error := Some true |},
           Logged (LogToolError (Js.errorText e))
           :: Logged (LogToolUse (name t) (Loop.summarizeInput (input t)))
           :: tr)).
Proof.
  intros Hname owner_ repo_ username exec thrown.
  subst exec. rewrite Executor.executeTool_fetch by done.
  repeat split.
  - intros x repos Ho Hrepos.
    apply Executor.fetchCase_repo_throw. fold owner_. rewrite Ho.
    by apply MissingInput.validateRepo_no_owner with x repos.
  - intros o repos Ho Hr Hrepos.
    pose proof (MissingInput.validateRepo_no_repo o ctx repos Hrepos) as Hv.
    unfold ownerConfigured in Hv.
    destruct (existsb _ repos).
    + apply Executor.fetchCase_repo_throw. fold owner_ repo_. by rewrite Ho, Hr.
    + apply Executor.fetchCase_repo_denied with (msg := Tools.repoDenied (Some (JStr o)) None repos).
      fold owner_ repo_. by rewrite Ho, Hr.
  - intros m members Hu Hrepo Hmembers.
    apply Executor.fetchCase_member_throw; [done|].
    fold username. rewrite Hu.
    by apply MissingInput.validateMember_no_username with m members.
  - intros msg Hu Hrepo. by apply Executor.fetchCase_repo_denied.
  - intros e Hexec started. subst started. unfold Loop.startTool.
    rewrite Executor.executeTool_fetch by done. by rewrite Hexec.
Qed.

Lemma missing_fetch_input_witness :
  Tools.executeTool (dateLabelOf Scenario.quiet) "fetch_commits"
    [("repo", JStr "web"); ("username", JStr "alice")] Scenario.acme
  = Done (Throw (ErrorObj
                   "Cannot read properties of undefined (reading 'toLowerCase')")).
Proof.
  pose proof (missing_fetch_input Scenario.quiet
                {| id := "toolu_03"; name := "fetch_commits";
                   input := [("repo", JStr "web"); ("username", JStr "alice")] |}
                Scenario.acme []
                ltac:(vm_compute; tauto)) as H.
  cbv zeta in H. destruct H as (H & _).
  exact (H {| owner := "acme"; repo := "web" |} [] eq_refl eq_refl).
Defined.

(** ** The posting tool *)

Module Posting.

Import Tools.

Lemma usernameOf_getProp (e : Json) (u : string) :
  usernameOf e = Some u <-> Js.getProp (Some e) "username" = Ret (Some (JStr u)).
Proof.
  destruct e as [| | | |items|props]; simpl; try (split; done).
  destruct (Js.assoc "username" props) as [[| | |s| |]|]; split; try done.
  - by intros [= ->].
  - by intros [= ->].
Qed.

Lemma notMember_username (members : list string) (e : Json) (u : string) :
  usernameOf e = Some u ->
  notMember members e = Ret (negb (isMember members u)).
Proof.
  intros Hu. apply usernameOf_getProp in Hu. unfold notMember.
  rewrite (some_pure _ (sameMember u)); [done|].
  intros m _. by rewrite Hu.
Qed.

Lemma invalidUsers_wellformed (members : list string) (entries : list Json) :
  Forall (fun e => is_Some (usernameOf e)) entries ->
  exists invalid,
    invalidUsers members entries = Ret invalid
    /\ map Js.joinItem invalid = disallowed members entries.
Proof.
  intros Hwf. unfold invalidUsers.
  set (keep := fun e => match usernameOf e with
                        | Some u => negb (isMember members u)
                        | None => false
                        end).
  set (user := fun e => JStr <$> usernameOf e).
  rewrite (filter_pure _ keep).
  2:{ intros e He. rewrite List.Forall_forall in Hwf.
      destruct (Hwf e He) as [u Hu]. unfold keep. rewrite Hu.
      by apply notMember_username. }
  cbn [mbind Outcome_bind].
  rewrite (map_pure _ user).
  2:{ intros e He. apply filter_In in He as [He _].
      rewrite List.Forall_forall in Hwf. destruct (Hwf e He) as [u Hu].
      unfold user. rewrite Hu. by apply usernameOf_getProp. }
  eexists. split; [done|].
  unfold disallowed. clear -Hwf.
  induction Hwf as [|e entries [u Hu] _ IH]; [done|].
  cbn [List.filter omap list_omap]. unfold keep at 1. rewrite Hu.
  cbn [List.filter].
  destruct (negb (isMember members u)); cbn [map]; [|exact IH].
  rewrite IH. unfold user. by rewrite Hu.
Qed.

Lemma notMember_false_inv (members : list string) (e : Json) :
  notMember members e = Ret false ->
  exists u m, usernameOf e = Some u /\ In m members
              /\ toLowerCase m = toLowerCase u.
Proof.
  unfold notMember.
  destruct (Js.some _ members) as [[|]|] eqn:Hsome; try done.
  intros _. apply some_true_inv in Hsome as (m & Hm & Hcall).
  destruct (Js.getProp (Some e) "username") as [[[| | |u| |]|]|] eqn:Hget;
    try done.
  exists u, m. split; [by apply usernameOf_getProp|]. split; [done|].
  unfold memberMatches in Hcall. simpl in Hcall.
  injection Hcall as Hcall. by apply String.eqb_eq.
Qed.

Lemma notesMissing_false_array (entries : list Json) :
  notesMissing (Some (JArr entries)) = false -> entries <> [].
Proof. by destruct entries. Qed.

(** A post is issued only for an array of entries that all passed the
    member check. *)
Lemma postCase_await dl (input_ : list (string * Json)) (ctx : ToolContext)
    (members : list string) (c : NetCall) k :
  allowedMembers ctx = Some members ->
  postCase dl input_ ctx = Await c k ->
  exists entries,
    Js.assoc "standup_notes" input_ = Some (JArr entries)
    /\ entries <> []
    /\ Forall (fun e => exists u m, usernameOf e = Some u /\ In m members
                                    /\ toLowerCase m = toLowerCase u) entries.
Proof.
  intros Hmembers. unfold postCase. rewrite Hmembers.
  destruct (notesMissing _) eqn:Hmissing; [done|].
  destruct (Js.assoc "standup_notes" input_) as [[| | | |entries|]|];
    try done.
  cbn [asArray mbind Outcome_bind].
  destruct (invalidUsers members entries) as [invalid|] eqn:Hinvalid; [|done].
  destruct invalid as [|? ?]; [|done].
  intros _. exists entries. split; [done|].
  split; [by apply notesMissing_false_array|].
  unfold invalidUsers in Hinvalid.
  destruct (Js.filter (notMember members) entries) as [bad|] eqn:Hbad; [|done].
  cbn [mbind Outcome_bind] in Hinvalid.
  apply map_length_inv in Hinvalid. destruct bad; [|done].
  apply filter_nil_inv in Hbad.
  eapply Forall_impl; [exact Hbad|].
  intros e He. by apply notMember_false_inv.
Qed.

End Posting.

(** C3.  [post_standup_to_slack] answers a missing, [null] or empty
    [standup_notes] with the structured error "No standup notes provided.
    Include at least one team member.".  With a member allow-list configured,
    entries that all carry a string username, one of them outside the list,
    are rejected as a whole with the payload naming the usernames outside the
    list; and a post is issued only for a non-empty array whose every entry
    has the username of a configured member, so no entry of a rejected
    request reaches the network. *)
Theorem post_checked_before_posting (dl : string -> Outcome string)
    (input_ : list (string * Json)) (ctx : ToolContext) :
  let standup_notes := Js.assoc "standup_notes" input_ in
  let exec := Tools.executeTool dl "post_standup_to_slack" input_ ctx in
  (standup_notes = None \/ standup_notes = Some JNull
   \/ standup_notes = Some (JArr []) ->
   exec = Done (Ret (JSON.error_payload
                       "No standup notes provided. Include at least one team member.")))
  /\ (forall members entries,
        allowedMembers ctx = Some members ->
        standup_notes = Some (JArr entries) ->
        Forall (fun e => is_Some (usernameOf e)) entries ->
        disallowed members entries <> [] ->
        exec = Done (Ret (JSON.error_payload
                            ("Access denied: standup includes non-team members: "
                             ++ join ", " (disallowed members entries)
                             ++ ". Allowed: " ++ join ", " members))))
  /\ (forall members c k,
        allowedMembers ctx = Some members ->
        exec = Await c k ->
        exists entries,
          standup_notes = Some (JArr entries)
          /\ entries <> []
          /\ Forall (fun e => exists u m,
                         usernameOf e = Some u /\ In m members
                         /\ toLowerCase m = toLowerCase u) entries).
Proof.
  intros standup_notes exec. subst exec. rewrite Executor.executeTool_post.
  split; [|split].
  - unfold Tools.postCase. fold standup_notes.
    by intros [->|[->| ->]].
  - intros members entries Hmembers Hnotes Hwf Hbad.
    unfold Tools.postCase. fold standup_notes. rewrite Hnotes, Hmembers.
    destruct entries as [|e entries]; [done|].
    cbn [Tools.notesMissing Js.truthy Js.lengthOf negb orb length Z.of_nat].
    cbn [Tools.asArray mbind Outcome_bind].
    destruct (Posting.invalidUsers_wellformed members (e :: entries) Hwf)
      as (invalid & -> & Hjoin).
    cbn [mbind Outcome_bind].
    destruct invalid as [|v invalid].
    + simpl in Hjoin. by rewrite <- Hjoin in Hbad.
    + cbn [length Nat.ltb Nat.leb]. unfold Tools.standupDenied.
      by rewrite Hjoin.
  - intros members c k Hmembers Hawait.
    by apply Posting.postCase_await with dl ctx c k.
Qed.

Lemma post_checked_before_posting_witness :
  Tools.executeTool (dateLabelOf Scenario.quiet) "post_standup_to_slack"
    [("standup_notes", JArr [])] Scenario.acme
  = Done (Ret (JSON.error_payload
                 "No standup notes provided. Include at least one team member.")).
Proof.
  pose proof (post_checked_before_posting (dateLabelOf Scenario.quiet)
                [("standup_notes", JArr [])] Scenario.acme) as H.
  cbv zeta in H. destruct H as (H & _).
  apply H. right. right. reflexivity.
Defined.

(** ** The conversation driver *)

Lemma all_filled {A : Type} (slots : list (option A)) :
  (forall i, i < length slots -> exists b, slots !! i = Some (Some b)) ->
  slots = Some <$> omap (fun slot => slot) slots.
Proof.
  induction slots as [|slot rest IH]; intros Hall; [done|].
  destruct (Hall 0) as [b Hb]; [simpl; lia|].
  injection Hb as ->. cbn. f_equal.
  apply IH. intros i Hi. apply (Hall (S i)). simpl. lia.
Qed.

Section DriverFacts.

Variable env : Collaborators.

Lemma settleTool_id (id_ : string) (s : Step) (tr : Trace) :
  tool_use_id (Loop.settleTool env id_ s tr).1 = id_.
Proof.
  unfold Loop.settleTool.
  destruct s as [[text|e]|c k]; try done.
  by destruct (k (respond env tr c)).
Qed.

Lemma settleTool_inferences (id_ : string) (s : Step) (tr : Trace) :
  inferences (Loop.settleTool env id_ s tr).2 = inferences tr.
Proof.
  unfold Loop.settleTool.
  destruct s as [[text|e]|c k]; try done.
  by destruct (k (respond env tr c)).
Qed.

Lemma settleAll_filled (fuel : nat) :
  forall (pending : list (nat * (string * Step)))
         (slots : list (option ToolResultBlock)) (tr : Trace),
    length pending = fuel ->
    NoDup pending.*1 ->
    (forall p, p ∈ pending -> p.1 < length slots) ->
    let out := Loop.settleAll env fuel pending slots tr in
    length out.1 = length slots
    /\ (forall i id_ s,
          (i, (id_, s)) ∈ pending ->
          exists b, out.1 !! i = Some (Some b) /\ settledAs env id_ s b)
    /\ (forall i, i ∉ pending.*1 -> out.1 !! i = slots !! i)
    /\ inferences out.2 = inferences tr.
Proof.
  induction fuel as [|fuel IH]; intros pending slots tr Hlen Hnodup Hbound.
  - destruct pending; [|done]. simpl. repeat split; try done.
    intros i id_ s Hin. by apply elem_of_nil in Hin.
  - cbn [Loop.settleAll].
    set (j := pick env tr (length pending) mod length pending).
    assert (j < length pending) as Hj
      by (apply Nat.mod_upper_bound; lia).
    destruct (lookup_lt_is_Some_2 _ _ Hj) as [[i [id0 s0]] Hlook].
    rewrite Hlook.
    destruct (Loop.settleTool env id0 s0 tr) as [block tr1] eqn:Hsettle.
    pose proof (delete_Permutation _ _ _ Hlook) as Hperm.
    assert (NoDup (i :: (delete j pending).*1)) as Hnodup'.
    { change (NoDup ((i, (id0, s0)) :: delete j pending).*1).
      by rewrite <- Hperm. }
    apply NoDup_cons in Hnodup' as [Hfresh Hnodup'].
    assert (i < length slots) as Hi.
    { apply (Hbound (i, (id0, s0))). rewrite Hperm. by left. }
    destruct (IH (delete j pending) (<[i:=Some block]> slots) tr1)
      as (H1 & H2 & H3 & H4).
    + rewrite length_delete by eauto. lia.
    + done.
    + intros p Hp. rewrite length_insert. apply Hbound.
      rewrite Hperm. by right.
    + rewrite length_insert in H1.
      split; [done|]. split; [|split].
      * intros i' id' s' Hin. rewrite Hperm in Hin.
        apply elem_of_cons in Hin as [[= -> -> ->]|Hin]; [|by apply H2].
        exists block. split.
        -- rewrite H3 by done. by apply list_lookup_insert_eq.
        -- exists tr. by rewrite Hsettle.
      * intros i' Hi'. rewrite H3.
        -- apply list_lookup_insert_ne. intros ->. apply Hi'.
           apply list_elem_of_fmap. exists (i', (id0, s0)). split; [done|].
           rewrite Hperm. by left.
        -- intros Hin. apply Hi'.
           change (i' ∈ (pending).*1).
           rewrite Hperm. right. done.
      * rewrite H4. rewrite <- (settleTool_inferences id0 s0 tr).
        by rewrite Hsettle.
Qed.

Lemma startAll_length (ctx : ToolContext) (toolUses : list ToolUse) (tr : Trace) :
  length (Loop.startAll env ctx toolUses tr).1 = length toolUses.
Proof.
  revert tr. induction toolUses as [|t rest IH]; intros tr; [done|].
  cbn [Loop.startAll].
  destruct (Loop.startTool env ctx t tr) as [s tr1].
  specialize (IH tr1).
  destruct (Loop.startAll env ctx rest tr1) as [ss tr2].
  simpl in *. by rewrite IH.
Qed.

Lemma startTool_inferences (ctx : ToolContext) (t : ToolUse) (tr : Trace) :
  inferences (Loop.startTool env ctx t tr).2 = inferences tr.
Proof.
  unfold Loop.startTool. by destruct (Tools.executeTool _ _ _ _).
Qed.

Lemma startAll_inferences (ctx : ToolContext) (toolUses : list ToolUse)
    (tr : Trace) :
  inferences (Loop.startAll env ctx toolUses tr).2 = inferences tr.
Proof.
  revert tr. induction toolUses as [|t rest IH]; intros tr; [done|].
  cbn [Loop.startAll].
  pose proof (startTool_inferences ctx t tr) as Ht.
  destruct (Loop.startTool env ctx t tr) as [s tr1].
  specialize (IH tr1).
  destruct (Loop.startAll env ctx rest tr1) as [ss tr2].
  simpl in *. congruence.
Qed.

(** [Promise.all] gives one block per call, in the order of the calls, each
    the settled callback of the call at its position. *)
Lemma promiseAll_pairs (ctx : ToolContext) (toolUses : list ToolUse) (tr : Trace) :
  let out := Loop.promiseAll env ctx toolUses tr in
  length out.1 = length toolUses
  /\ (forall i t b,
        toolUses !! i = Some t -> out.1 !! i = Some b ->
        exists s, startedAs env ctx toolUses tr i = Some s /\ settledAs env (id t) s b)
  /\ inferences out.2 = inferences tr.
Proof.
  unfold Loop.promiseAll, startedAs.
  pose proof (startAll_length ctx toolUses tr) as Hsteps.
  pose proof (startAll_inferences ctx toolUses tr) as Hinf.
  destruct (Loop.startAll env ctx toolUses tr) as [steps tr1].
  cbn [fst snd] in *.
  set (n := length toolUses) in *.
  set (pending := zip (seq 0 n) (zip (map id toolUses) steps)).
  assert (length (zip (map id toolUses) steps) = n) as Hzip.
  { rewrite length_zip_with, length_map. fold n. lia. }
  assert (pending.*1 = seq 0 n) as Hfst.
  { apply fst_zip. rewrite length_seq. lia. }
  destruct (settleAll_filled n pending (replicate n None) tr1)
    as (H1 & H2 & _ & H4).
  { unfold pending. rewrite length_zip_with, length_seq. lia. }
  { rewrite Hfst. apply NoDup_seq. }
  { intros p Hp. rewrite length_replicate.
    assert (p.1 ∈ pending.*1) as Hp1 by (by apply list_elem_of_fmap_2).
    rewrite Hfst in Hp1. apply elem_of_seq in Hp1. lia. }
  destruct (Loop.settleAll env n pending (replicate n None) tr1)
    as [slots tr2].
  cbn [fst snd] in *. rewrite length_replicate in H1.
  assert (forall i t, toolUses !! i = Some t ->
            exists s b, steps !! i = Some s
                        /\ slots !! i = Some (Some b)
                        /\ settledAs env (id t) s b) as Hslot.
  { intros i t Ht.
    assert (i < n) as Hi by (by apply lookup_lt_Some in Ht).
    destruct (lookup_lt_is_Some_2 steps i) as [s Hs]; [lia|].
    destruct (H2 i (id t) s) as (b & Hb & Hsettled).
    - unfold pending. apply elem_of_lookup_zip_with.
      exists i, i, (id t, s). split; [done|].
      split; [by apply lookup_seq|].
      apply lookup_zip_with_Some. exists (id t), s.
      split; [done|]. split; [|done].
      by rewrite list_lookup_fmap, Ht.
    - by exists s, b. }
  set (bs := omap (fun slot => slot) slots).
  assert (slots = Some <$> bs) as Hslots.
  { apply all_filled. intros i Hi. rewrite H1 in Hi.
    destruct (lookup_lt_is_Some_2 toolUses i Hi) as [t Ht].
    destruct (Hslot i t Ht) as (s & b & _ & Hb & _). by exists b. }
  split; [|split; [|congruence]].
  - rewrite <- H1, Hslots at 1. by rewrite length_fmap.
  - intros i t b Ht Hb.
    destruct (Hslot i t Ht) as (s & b' & Hs & Hb' & Hsettled).
    exists s. split; [done|].
    rewrite Hslots, list_lookup_fmap, Hb in Hb'. by injection Hb' as <-.
Qed.

Lemma startAll_steps (ctx : ToolContext) (toolUses : list ToolUse) (tr : Trace) :
  (Loop.startAll env ctx toolUses tr).1
  = map (fun t => Tools.executeTool (dateLabelOf env) (name t) (input t) ctx)
        toolUses.
Proof.
  revert tr. induction toolUses as [|t rest IH]; intros tr; [done|].
  cbn [Loop.startAll map].
  assert ((Loop.startTool env ctx t tr).1
          = Tools.executeTool (dateLabelOf env) (name t) (input t) ctx) as Ht.
  { unfold Loop.startTool. by destruct (Tools.executeTool _ _ _ _). }
  destruct (Loop.startTool env ctx t tr) as [s tr1].
  specialize (IH tr1).
  destruct (Loop.startAll env ctx rest tr1) as [ss tr2].
  simpl in *. by rewrite Ht, IH.
Qed.

(** What one turn does, by the outcome of its inference call. *)
Lemma runAgentTurn_failed (messages : list Message) (systemPrompt : string)
    (ctx : ToolContext) (iteration : option nat) (tr : Trace) (error : Thrown) :
  let tr0 := Loop.logIteration iteration tr in
  infer env tr0 systemPrompt messages = Throw error ->
  Loop.runAgentTurn env messages systemPrompt ctx iteration tr
  = (true, messages,
     Logged (Loop.classifyApiError error)
     :: Inferred systemPrompt messages (Throw error) :: tr0).
Proof. intros tr0 H. unfold Loop.runAgentTurn. fold tr0. by rewrite H. Qed.

Lemma runAgentTurn_no_tools (messages : list Message) (systemPrompt : string)
    (ctx : ToolContext) (iteration : option nat) (tr : Trace)
    (response : list ContentBlock) :
  let tr0 := Loop.logIteration iteration tr in
  infer env tr0 systemPrompt messages = Ret response ->
  Loop.toolUsesOf response = [] ->
  Loop.runAgentTurn env messages systemPrompt ctx iteration tr
  = (true,
     (messages ++ [{| role := assistant; body := Blocks response |}])%list,
     (rev (Loop.thoughts response)
      ++ Inferred systemPrompt messages (Ret response) :: tr0)%list).
Proof.
  intros tr0 H Hnone. unfold Loop.runAgentTurn. fold tr0.
  by rewrite H, Hnone.
Qed.

Lemma runAgentTurn_tools (messages : list Message) (systemPrompt : string)
    (ctx : ToolContext) (iteration : option nat) (tr : Trace)
    (response : list ContentBlock) :
  let tr0 := Loop.logIteration iteration tr in
  let tr2 := (rev (Loop.thoughts response)
              ++ Inferred systemPrompt messages (Ret response) :: tr0)%list in
  let out := Loop.promiseAll env ctx (Loop.toolUsesOf response) tr2 in
  infer env tr0 systemPrompt messages = Ret response ->
  Loop.toolUsesOf response <> [] ->
  Loop.runAgentTurn env messages systemPrompt ctx iteration tr
  = (false,
     ((messages ++ [{| role := assistant; body := Blocks response |}])
      ++ [{| role := user; body := ToolResults out.1 |}])%list,
     out.2).
Proof.
  intros tr0 tr2 out H Hsome. unfold Loop.runAgentTurn. fold tr0.
  rewrite H. fold tr2.
  destruct (Loop.toolUsesOf response) as [|t rest] eqn:Htools; [done|].
  cbn [length Nat.eqb]. subst out.
  by destruct (Loop.promiseAll env ctx (t :: rest) tr2).
Qed.

End DriverFacts.

(** C1.  A turn whose response carries N >= 1 tool calls reports "continue"
    and appends, after the response, one single entry holding exactly N
    tool-result blocks; the block at each position carries the identifier of
    the call at that position and is what that call's own execution settled
    to.  This holds for every scheduler, that is, whatever the order in which
    the concurrent executions complete. *)
Theorem tool_results_match_calls (env : Collaborators)
    (messages : list Message) (systemPrompt : string) (ctx : ToolContext)
    (iteration : option nat) (tr : Trace) (response : list ContentBlock) :
  infer env (Loop.logIteration iteration tr) systemPrompt messages
  = Ret response ->
  Loop.toolUsesOf response <> [] ->
  exists results tr',
    Loop.runAgentTurn env messages systemPrompt ctx iteration tr
    = (false,
       (messages
        ++ [{| role := assistant; body := Blocks response |};
            {| role := user; body := ToolResults results |}])%list,
       tr')
    /\ length results = length (Loop.toolUsesOf response)
    /\ map tool_use_id results = map id (Loop.toolUsesOf response)
    /\ Forall2
         (fun t b =>
            settledAs env (id t)
              (Tools.executeTool (dateLabelOf env) (name t) (input t) ctx) b)
         (Loop.toolUsesOf response) results.
Proof.
  intros Hinfer Hsome.
  pose proof (runAgentTurn_tools env messages systemPrompt ctx iteration tr
                response Hinfer Hsome) as Hturn.
  cbv zeta in Hturn.
  set (tr2 := (rev (Loop.thoughts response) ++ _)%list) in Hturn.
  destruct (promiseAll_pairs env ctx (Loop.toolUsesOf response) tr2)
    as (Hlen & Hpairs & _).
  destruct (Loop.promiseAll env ctx (Loop.toolUsesOf response) tr2)
    as [results tr'].
  cbn [fst snd] in *.
  assert (Forall2
            (fun t b =>
               settledAs env (id t)
                 (Tools.executeTool (dateLabelOf env) (name t) (input t) ctx) b)
            (Loop.toolUsesOf response) results) as Hall.
  { apply Forall2_same_length_lookup. split; [done|].
    intros i t b Ht Hb.
    destruct (Hpairs i t b Ht Hb) as (s & Hs & Hsettled).
    unfold startedAs in Hs. rewrite startAll_steps, list_lookup_fmap, Ht in Hs.
    by injection Hs as <-. }
  exists results, tr'. split; [|split; [done|split; [|done]]].
  - rewrite Hturn. by rewrite <- app_assoc.
  - clear -Hall. induction Hall as [|t b ts bs [tr0 ->] _ IH]; [done|].
    cbn [map]. by rewrite settleTool_id, IH.
Qed.

Lemma tool_results_match_calls_witness :
  exists results tr',
    Loop.runAgentTurn Scenario.planner [Scenario.task] "system" Scenario.acme
      (Some 1) []
    = (false,
       ([Scenario.task]
        ++ [{| role := assistant; body := Blocks Scenario.twoCalls |};
            {| role := user; body := ToolResults results |}])%list,
       tr')
    /\ length results = length (Loop.toolUsesOf Scenario.twoCalls)
    /\ map tool_use_id results = map id (Loop.toolUsesOf Scenario.twoCalls)
    /\ Forall2
         (fun t b =>
            settledAs Scenario.planner (id t)
              (Tools.executeTool (dateLabelOf Scenario.planner) (name t)
                 (input t) Scenario.acme) b)
         (Loop.toolUsesOf Scenario.twoCalls) results.
Proof.
  apply (tool_results_match_calls Scenario.planner [Scenario.task] "system"
           Scenario.acme (Some 1) [] Scenario.twoCalls).
  - reflexivity.
  - discriminate.
Defined.

Example two_calls_turn :
  (Loop.runAgentTurn Scenario.planner [Scenario.task] "system" Scenario.acme
     (Some 1) []).1.2
  = [ Scenario.task;
      {| role := assistant; body := Blocks Scenario.twoCalls |};
      {| role := user;
         body := ToolResults
           [ {| tool_use_id := "toolu_A"; content := "[]"; is_error := None |};
             {| tool_use_id := "toolu_B";
                content := JSON.error_payload
                  ("Access denied: " ++ dq ++ "carol" ++ dq
                   ++ " is not a configured team member. Allowed members: alice, bob");
                is_error := None |} ] |} ].
Proof. vm_compute. reflexivity. Qed.

(** ** Session modes *)

Section SessionFacts.

Local Open Scope list_scope.

Variable env : Collaborators.

Lemma inferences_app (a b : Trace) :
  inferences (a ++ b)%list = (inferences a ++ inferences b)%list.
Proof.
  induction a as [|ev a IH]; [done|].
  destruct ev; simpl; by rewrite ?IH.
Qed.

Lemma inferences_thoughts (response : list ContentBlock) :
  inferences (rev (Loop.thoughts response)) = [].
Proof.
  induction response as [|b rest IH]; [done|].
  destruct b as [text| |]; simpl; try done.
  destruct (String.eqb (trim text) ""); [done|].
  simpl. by rewrite inferences_app, IH.
Qed.

Lemma inferences_logIteration (iteration : option nat) (tr : Trace) :
  inferences (Loop.logIteration iteration tr) = inferences tr.
Proof. by destruct iteration. Qed.

(** One turn makes exactly one inference call, reports what [finishes] says
    of its outcome, and only appends to the history. *)
Lemma runAgentTurn_summary (messages : list Message) (systemPrompt : string)
    (ctx : ToolContext) (iteration : option nat) (tr : Trace) :
  let out := Loop.runAgentTurn env messages systemPrompt ctx iteration tr in
  let r := infer env (Loop.logIteration iteration tr) systemPrompt messages in
  inferences out.2 = r :: inferences tr
  /\ out.1.1 = finishes r
  /\ exists extra, out.1.2 = (messages ++ extra)%list.
Proof.
  intros out r. subst out.
  destruct r as [response|error] eqn:Hr; subst r.
  - destruct (Loop.toolUsesOf response) as [|t rest] eqn:Htools.
    + rewrite (runAgentTurn_no_tools env _ _ _ _ _ response Hr Htools).
      cbn [fst snd finishes]. rewrite Htools.
      rewrite inferences_app, inferences_thoughts. cbn.
      rewrite inferences_logIteration. eauto.
    + assert (Loop.toolUsesOf response <> []) as Hsome by (by rewrite Htools).
      rewrite (runAgentTurn_tools env _ _ _ _ _ response Hr Hsome).
      cbn [fst snd].
      destruct (promiseAll_pairs env ctx (Loop.toolUsesOf response)
                  (rev (Loop.thoughts response)
                   ++ Inferred systemPrompt messages (Ret response)
                      :: Loop.logIteration iteration tr))
        as (_ & _ & Hinf).
      rewrite Hinf.
      rewrite inferences_app, inferences_thoughts. cbn [inferences app].
      rewrite inferences_logIteration.
      unfold finishes. rewrite Htools.
      split; [done|]. split; [done|].
      rewrite <- List.app_assoc. eauto.
  - rewrite (runAgentTurn_failed env _ _ _ _ _ error Hr).
    cbn. rewrite inferences_logIteration.
    split; [done|]. split; [done|]. exists []. by rewrite List.app_nil_r.
Qed.

Lemma subLoop_S (n : nat) (systemPrompt : string) (ctx : ToolContext)
    (messages : list Message) (tr : Trace) :
  Loop.subLoop env (S n) systemPrompt ctx messages tr
  = let '(done, messages1, tr1) :=
      Loop.runAgentTurn env messages systemPrompt ctx None tr in
    if done : bool then (messages1, tr1)
    else Loop.subLoop env n systemPrompt ctx messages1 tr1.
Proof. reflexivity. Qed.

Lemma subLoop_run (n : nat) (systemPrompt : string) (ctx : ToolContext) :
  forall (messages : list Message) (tr : Trace),
    let out := Loop.subLoop env (S n) systemPrompt ctx messages tr in
    (exists pre last, boundedRun (S n) tr out.2 pre last)
    /\ exists extra, out.1 = (messages ++ extra)%list.
Proof.
  induction n as [|n IH]; intros messages tr out; subst out;
    rewrite subLoop_S;
    destruct (runAgentTurn_summary messages systemPrompt ctx None tr)
      as (Hinf & Hdone & extra & Hmsgs);
    destruct (Loop.runAgentTurn env messages systemPrompt ctx None tr)
      as [[done messages1] tr1];
    cbn [fst snd] in *; subst done messages1;
    set (r := infer env (Loop.logIteration None tr) systemPrompt messages) in *;
    destruct (finishes r) eqn:Hfin.
  - split; [|eauto]. exists [], r. repeat split; simpl; auto.
  - split; [|eauto]. exists [], r. repeat split; simpl; auto.
  - split; [|eauto]. exists [], r. repeat split; simpl; auto with lia.
  - destruct (IH (messages ++ extra)%list tr1)
      as ((pre & last & Hrun & Hlen & Hpre & Hlast) & extra' & Hmsgs').
    split.
    + exists (r :: pre), last. repeat split.
      * rewrite Hrun, Hinf. simpl. by rewrite <- List.app_assoc.
      * simpl. lia.
      * by constructor.
      * destruct Hlast as [?|[? ?]]; [by left | right; simpl; auto with lia].
    + rewrite Hmsgs', <- List.app_assoc. eauto.
Qed.

Lemma boundedRun_failure_last (n : nat) (before after : Trace)
    (pre : list (Outcome (list ContentBlock)))
    (last : Outcome (list ContentBlock)) :
  boundedRun n before after pre last ->
  forall later error earlier,
    last :: rev pre = later ++ Throw error :: earlier -> later = [].
Proof.
  intros (_ & _ & Hpre & _) later error earlier Hsplit.
  destruct later as [|r later]; [done|].
  injection Hsplit as _ Hrev.
  assert (In (Throw error) pre) as Hin.
  { apply in_rev. rewrite Hrev. apply in_elt. }
  rewrite List.Forall_forall in Hpre. by specialize (Hpre _ Hin).
Qed.

Variable AUTONOMOUS_SYSTEM_PROMPT : string.

Lemma autoTurns_S (n iteration : nat) (ctx : ToolContext)
    (messages : list Message) (tr : Trace) :
  Loop.autoTurns env AUTONOMOUS_SYSTEM_PROMPT (S n) iteration ctx messages tr
  = let '(done, messages1, tr1) :=
      Loop.runAgentTurn env messages AUTONOMOUS_SYSTEM_PROMPT ctx
        (Some iteration) tr in
    if done : bool then (messages1, Logged (LogFinished iteration) :: tr1)
    else
      Loop.autoTurns env AUTONOMOUS_SYSTEM_PROMPT n (S iteration) ctx messages1
        (if (iteration =? Loop.MAX_ITERATIONS)%nat
         then Logged (LogMaxIterations Loop.MAX_ITERATIONS) :: tr1
         else tr1).
Proof. reflexivity. Qed.

(** The [for] loop of the autonomous mode, entered at [iteration] with
    [S n] iterations to go, the last of them the twentieth. *)
Lemma autoTurns_run (ctx : ToolContext) (n : nat) :
  forall (iteration : nat) (messages : list Message) (tr : Trace),
    iteration + n = Loop.MAX_ITERATIONS ->
    let out :=
      Loop.autoTurns env AUTONOMOUS_SYSTEM_PROMPT (S n) iteration ctx messages tr in
    (exists pre last,
        boundedRun (S n) tr out.2 pre last
        /\ (finishes last = true ->
            exists rest,
              out.2 = Logged (LogFinished (iteration + length pre)) :: rest)
        /\ (finishes last = false ->
            exists rest,
              out.2 = Logged (LogMaxIterations Loop.MAX_ITERATIONS) :: rest))
    /\ exists extra, out.1 = messages ++ extra.
Proof.
  induction n as [|n IH]; intros iteration messages tr Hit out; subst out;
    rewrite autoTurns_S;
    destruct (runAgentTurn_summary messages AUTONOMOUS_SYSTEM_PROMPT ctx
                (Some iteration) tr)
      as (Hinf & Hdone & extra & Hmsgs);
    destruct (Loop.runAgentTurn env messages AUTONOMOUS_SYSTEM_PROMPT ctx
                (Some iteration) tr)
      as [[done messages1] tr1];
    cbn [fst snd] in *; subst done messages1;
    set (r := infer env (Loop.logIteration (Some iteration) tr)
                AUTONOMOUS_SYSTEM_PROMPT messages) in *;
    destruct (finishes r) eqn:Hfin.
  - split; [|eauto]. exists [], r. cbn [length]. rewrite Nat.add_0_r.
    repeat split; simpl; eauto. congruence.
  - split; [|eauto]. exists [], r.
    replace (iteration =? Loop.MAX_ITERATIONS)%nat with true
      by (symmetry; apply Nat.eqb_eq; lia).
    repeat split; simpl; eauto. congruence.
  - split; [|eauto]. exists [], r. cbn [length]. rewrite Nat.add_0_r.
    repeat split; simpl; eauto with lia. congruence.
  - replace (iteration =? Loop.MAX_ITERATIONS)%nat with false
      by (symmetry; apply Nat.eqb_neq; lia).
    destruct (IH (S iteration) (messages ++ extra) tr1)
      as ((pre & last & (Hrun & Hlen & Hpre & Hlast) & Hdone & Hmax)
          & extra' & Hmsgs'); [lia|].
    split.
    + exists (r :: pre), last. split; [|split].
      * repeat split.
        -- rewrite Hrun, Hinf. simpl. by rewrite <- List.app_assoc.
        -- simpl. lia.
        -- by constructor.
        -- destruct Hlast as [?|[? ?]]; [by left | right; simpl; auto with lia].
      * intros Hl. destruct (Hdone Hl) as [rest ->]. exists rest.
        cbn [length]. do 3 f_equal. lia.
      * done.
    + rewrite Hmsgs', <- List.app_assoc. eauto.
Qed.

(** The read-loop of the interactive mode only appends to the history. *)
Lemma readLoop_appends (systemPrompt : string) (ctx : ToolContext)
    (lines : list string) :
  forall (messages : list Message) (tr : Trace),
    exists extra,
      (Loop.readLoop env lines systemPrompt ctx messages tr).1 = messages ++ extra.
Proof.
  induction lines as [|line rest IH]; intros messages tr; cbn [Loop.readLoop].
  - exists []. by rewrite List.app_nil_r.
  - destruct (String.eqb (trim line) ""); [apply IH|].
    destruct (Loop.isExit (trim line)).
    + exists []. by rewrite List.app_nil_r.
    + destruct (subLoop_run (pred Loop.MAX_ITERATIONS) systemPrompt ctx
                  (messages ++ [{| role := user; body := Text (trim line) |}]) tr)
        as (_ & extra & Hsub).
      change (S (pred Loop.MAX_ITERATIONS)) with Loop.MAX_ITERATIONS in Hsub.
      destruct (Loop.subLoop env Loop.MAX_ITERATIONS systemPrompt ctx _ tr)
        as [messages2 tr2].
      cbn [fst] in Hsub. subst messages2.
      destruct (IH ((messages ++ [{| role := user; body := Text (trim line) |}])
                    ++ extra)
                  (Logged LogPrompt :: Logged LogBlank :: tr2)) as [extra' ->].
      rewrite <- !List.app_assoc. eauto.
Qed.

End SessionFacts.

(** C5.  The autonomous session runs at least one and at most twenty turns.
    Every turn before the last issued tool calls; the session stops with the
    first turn that reports "finished" (a response without tool calls, or a
    failed inference call) and logs that it finished after that many
    iterations; when the twentieth turn still issues tool calls it stops
    there and logs the max-iterations warning.  The history starts with the
    task description. *)
Theorem autonomous_session_bounded (env : Collaborators)
    (AUTONOMOUS_SYSTEM_PROMPT slackToken_ slackChannelId_ : string)
    (config : AgentConfig) (tr : Trace) :
  let out :=
    Loop.runAgentLoop env AUTONOMOUS_SYSTEM_PROMPT slackToken_ slackChannelId_
      config tr in
  exists pre last,
    inferences out.2 = (last :: rev pre ++ inferences tr)%list
    /\ length pre < 20
    /\ Forall (fun r => exists response,
                   r = Ret response /\ Loop.toolUsesOf response <> []) pre
    /\ (((exists error, last = Throw error)
         \/ (exists response, last = Ret response
                              /\ Loop.toolUsesOf response = []))
        /\ (exists rest,
              out.2 = Logged (LogFinished (S (length pre))) :: rest)
        \/ (exists response, last = Ret response
                             /\ Loop.toolUsesOf response <> [])
           /\ length pre = 19
           /\ (exists rest, out.2 = Logged (LogMaxIterations 20) :: rest))
    /\ exists taskPrompt extra,
         out.1 = ({| role := user; body := Text taskPrompt |} :: extra)%list.
Proof.
  intros out. subst out. unfold Loop.runAgentLoop.
  destruct (Loop.buildToolContext env slackToken_ slackChannelId_ config)
    as [ctx repos].
  set (tr1 := (Logged _ :: Logged _ :: tr)%list).
  set (messages := [{| role := user; body := Text _ |}]).
  destruct (autoTurns_run env AUTONOMOUS_SYSTEM_PROMPT ctx 19 1 messages tr1)
    as ((pre & last & (Hrun & Hlen & Hpre & Hlast) & Hdone & Hmax)
        & extra & Hmsgs); [done|].
  change (S 19) with Loop.MAX_ITERATIONS in *.
  exists pre, last. split; [done|]. split; [done|].
  assert (forall r, finishes r = false ->
            exists response, r = Ret response /\ Loop.toolUsesOf response <> [])
    as Hcont.
  { intros [response|error]; [|done]. unfold finishes.
    destruct (Loop.toolUsesOf response) eqn:E; [done|].
    intros _. exists response. by rewrite E. }
  assert (forall r, finishes r = true ->
            (exists error, r = Throw error)
            \/ (exists response, r = Ret response /\ Loop.toolUsesOf response = []))
    as Hstop.
  { intros [response|error]; [|by left; eauto]. unfold finishes.
    destruct (Loop.toolUsesOf response) eqn:E; [|done].
    intros _. right. by exists response. }
  split; [|split].
  - eapply Forall_impl; [exact Hpre|]. exact Hcont.
  - destruct Hlast as [Hfin|[Hfin Hn]].
    + left. split; [by apply Hstop | by apply Hdone].
    + right. split; [by apply Hcont|]. split; [unfold Loop.MAX_ITERATIONS in Hn; lia|].
      by apply Hmax.
  - rewrite Hmsgs. unfold messages. simpl. eauto.
Qed.

(** C4.  A turn whose inference call fails reports "finished" at once: it
    makes that one call, logs one classified line, leaves the history as it
    was and runs no tool.  Hence in the autonomous loop, and in the sub-loop
    of an interactive line, a failed inference call is the last inference
    call of the task. *)
Theorem inference_failure_not_retried (env : Collaborators)
    (systemPrompt : string) (ctx : ToolContext) :
  (forall messages iteration tr error,
      infer env (Loop.logIteration iteration tr) systemPrompt messages
      = Throw error ->
      Loop.runAgentTurn env messages systemPrompt ctx iteration tr
      = (true, messages,
         Logged (Loop.classifyApiError error)
         :: Inferred systemPrompt messages (Throw error)
         :: Loop.logIteration iteration tr))
  /\ (forall messages tr,
        exists calls,
          inferences
            (Loop.autoTurns env systemPrompt Loop.MAX_ITERATIONS 1 ctx
               messages tr).2
          = (calls ++ inferences tr)%list
          /\ forall later error earlier,
               calls = (later ++ Throw error :: earlier)%list -> later = [])
  /\ (forall messages tr,
        exists calls,
          inferences
            (Loop.subLoop env Loop.MAX_ITERATIONS systemPrompt ctx messages tr).2
          = (calls ++ inferences tr)%list
          /\ forall later error earlier,
               calls = (later ++ Throw error :: earlier)%list -> later = []).
Proof.
  split; [|split].
  - intros messages iteration tr error Hfail.
    by apply runAgentTurn_failed.
  - intros messages tr.
    destruct (autoTurns_run env systemPrompt ctx 19 1 messages tr)
      as ((pre & last & Hrun & _) & _); [done|].
    exists (last :: rev pre)%list. split; [apply Hrun|].
    by eapply boundedRun_failure_last.
  - intros messages tr.
    destruct (subLoop_run env 19 systemPrompt ctx messages tr)
      as ((pre & last & Hrun) & _).
    exists (last :: rev pre)%list. split; [apply Hrun|].
    by eapply boundedRun_failure_last.
Qed.

Lemma inference_failure_not_retried_witness :
  Loop.runAgentTurn Scenario.unauthenticated [Scenario.task] "system"
    Scenario.acme (Some 1) []
  = (true, [Scenario.task],
     [ Logged LogAuthFailed;
       Inferred "system" [Scenario.task]
         (Throw (ErrorObj "401 authentication_error: invalid x-api-key"));
       Logged (LogIteration 1) ]).
Proof.
  exact (proj1 (inference_failure_not_retried Scenario.unauthenticated "system"
                  Scenario.acme)
           [Scenario.task] (Some 1) [] _ eq_refl).
Defined.

(** C7.  In the read-loop of the interactive mode, a line that is [exit] or
    [quit] once trimmed and lower-cased ends the loop as it stands: no turn
    runs, whatever lines follow.  Any other line that is not blank is
    appended, trimmed, to the history and drives between one and twenty
    turns before the next line is read, with the history it has grown.  The
    read-loop only ever appends to the history. *)
Theorem interactive_read_loop (env : Collaborators) (systemPrompt : string)
    (ctx : ToolContext) (line : string) (rest : list string)
    (messages : list Message) (tr : Trace) :
  let input_ := trim line in
  let entered := {| role := user; body := Text input_ |} in
  let sub :=
    Loop.subLoop env Loop.MAX_ITERATIONS systemPrompt ctx
      (messages ++ [entered])%list tr in
  (toLowerCase input_ = "exit" \/ toLowerCase input_ = "quit" ->
   Loop.readLoop env (line :: rest) systemPrompt ctx messages tr
   = (messages, tr))
  /\ (input_ <> "" ->
      toLowerCase input_ <> "exit" -> toLowerCase input_ <> "quit" ->
      Loop.readLoop env (line :: rest) systemPrompt ctx messages tr
      = Loop.readLoop env rest systemPrompt ctx sub.1
          (Logged LogPrompt :: Logged LogBlank :: sub.2)
      /\ (exists calls,
            inferences sub.2 = (calls ++ inferences tr)%list
            /\ 1 <= length calls <= 20)
      /\ exists extra, sub.1 = (messages ++ [entered] ++ extra)%list)
  /\ (forall lines,
        exists extra,
          (Loop.readLoop env lines systemPrompt ctx messages tr).1
          = (messages ++ extra)%list).
Proof.
  intros input_ entered sub. split; [|split].
  - intros Hexit. cbn [Loop.readLoop]. fold input_.
    assert (Loop.isExit input_ = true) as ->.
    { unfold Loop.isExit. destruct Hexit as [-> | ->]; reflexivity. }
    destruct (String.eqb input_ "") eqn:E; [|done].
    apply String.eqb_eq in E. rewrite E in Hexit.
    by destruct Hexit.
  - intros Hne Hexit Hquit. cbn [Loop.readLoop]. fold input_.
    replace (String.eqb input_ "") with false
      by (symmetry; by apply String.eqb_neq).
    assert (Loop.isExit input_ = false) as ->.
    { unfold Loop.isExit. apply orb_false_iff.
      split; by apply String.eqb_neq. }
    fold entered. fold sub.
    destruct (subLoop_run env 19 systemPrompt ctx (messages ++ [entered])%list tr)
      as ((pre & last & Hrun & Hlen & _) & extra & Hmsgs).
    change (Loop.subLoop env 20 systemPrompt ctx (messages ++ [entered])%list tr)
      with sub in *.
    split; [by destruct sub|]. split.
    + exists (last :: rev pre)%list. split; [exact Hrun|].
      cbn [length]. rewrite length_rev. lia.
    + exists extra. by rewrite Hmsgs, <- List.app_assoc.
  - intros lines. apply readLoop_appends.
Qed.

Lemma interactive_read_loop_witness :
  Loop.readLoop Scenario.greedy [" Exit  "; "what did alice do?"] "system"
    Scenario.acme [Scenario.task] []
  = ([Scenario.task], []).
Proof.
  pose proof (interactive_read_loop Scenario.greedy "system" Scenario.acme
                " Exit  " ["what did alice do?"] [Scenario.task] []) as H.
  cbv zeta in H. destruct H as (H & _).
  apply H. left. reflexivity.
Defined.

(** ** JSON texts *)

Example is_json_ex1 :
  JsonText.is_json
    (JSON.stringify_indent2
       (JArr [JObj [("sha", JStr "1a2b3c4"); ("n", JNum (-12)); ("ok", JBool true)];
              JArr []; JNull; JStr ("tab" ++ chr 9 ++ "bell" ++ chr 7)]))
  = true.
Proof. vm_compute. reflexivity. Qed.

Example is_json_ex2 :
  JsonText.is_json (JSON.error_payload ("Access denied: " ++ dq ++ "x\y" ++ dq))
  = true.
Proof. vm_compute. reflexivity. Qed.

Example is_json_ex3 : JsonText.is_json "[1, 2.50e+3, -0.1E7, {}]" = true.
Proof. vm_compute. reflexivity. Qed.

Example is_json_ex4 :
  map JsonText.is_json ["[1,]"; "01"; "tru"; "{1:2}"; "[1] 2"; ""; "1."; "-"]
  = [false; false; false; false; false; false; false; false].
Proof. vm_compute. reflexivity. Qed.

Example is_json_ex5 : JsonText.is_json (Tools.msgPosted 3) = false.
Proof. vm_compute. reflexivity. Qed.

(** *** Every output of [JSON.stringify] is a JSON text *)

Module JsonTextFacts.

Import JsonText.

Lemma steps_app (m : Mode) (stack : list Frame) (x y : string) :
  steps m stack (x ++ y)
  = match steps m stack x with
    | Some (m', stack') => steps m' stack' y
    | None => None
    end.
Proof.
  revert m stack. induction x as [|c x IH]; intros m stack; [done|].
  rewrite append_cons. cbn [steps].
  destruct (step m stack c) as [[m' stack']|]; [apply IH | done].
Qed.

Lemma run_steps (m : Mode) (stack : list Frame) (x : string) :
  run m stack x
  = match steps m stack x with
    | Some (m', stack') => complete m' stack'
    | None => false
    end.
Proof.
  revert m stack. induction x as [|c x IH]; intros m stack; [done|].
  cbn [run steps].
  destruct (step m stack c) as [[m' stack']|]; [apply IH | done].
Qed.

Lemma blank_app (a b : string) : blank (a ++ b) = blank a && blank b.
Proof.
  induction a as [|c a IH]; [done|].
  rewrite append_cons. cbn [blank]. by rewrite IH, andb_assoc.
Qed.

Lemma settled_delimiter (m : Mode) (stack : list Frame) (c : ascii) :
  settled m -> delimiter c = true -> step m stack c = follow stack c.
Proof.
  intros [->|[->| ->]] Hc; [done| |].
  - destruct c as [[] [] [] [] [] [] [] []]; try done.
  - destruct c as [[] [] [] [] [] [] [] []]; try done.
Qed.

Lemma settled_complete (m : Mode) : settled m -> complete m [] = true.
Proof. by intros [->|[->| ->]]. Qed.

(** White space after a value. *)
Lemma steps_blank_after (m : Mode) (stack : list Frame) (w : string) :
  settled m -> blank w = true ->
  exists m', steps m stack w = Some (m', stack) /\ settled m'.
Proof.
  intros Hm Hw. revert m Hm. induction w as [|c w IH]; intros m Hm.
  - by exists m.
  - cbn [blank] in Hw. apply andb_true_iff in Hw as [Hc Hw].
    cbn [steps]. rewrite settled_delimiter; [|done|].
    + unfold follow. rewrite Hc. apply IH; [done | by left].
    + unfold delimiter. by rewrite Hc.
Qed.

(** White space where it is skipped. *)
Lemma steps_blank_skip (m : Mode) (stack : list Frame) (w : string) :
  m = Value \/ m = ArrayFirst \/ m = ObjectFirst \/ m = Key \/ m = Colon ->
  blank w = true -> steps m stack w = Some (m, stack).
Proof.
  intros Hm Hw. induction w as [|c w IH]; [done|].
  cbn [blank] in Hw. apply andb_true_iff in Hw as [Hc Hw].
  cbn [steps].
  assert (step m stack c = Some (m, stack)) as ->; [|by apply IH].
  destruct Hm as [->|[->|[->|[->| ->]]]]; cbn [step]; by rewrite Hc.
Qed.

(** Strings. *)
Lemma steps_quote_char (key : bool) (stack : list Frame) (c : ascii) :
  steps (Str key) stack (JSON.quote_char c) = Some (Str key, stack).
Proof.
  destruct c as [[] [] [] [] [] [] [] []]; reflexivity.
Qed.

Lemma steps_quote_body (key : bool) (stack : list Frame) (s : string) :
  steps (Str key) stack (JSON.quote_body s) = Some (Str key, stack).
Proof.
  induction s as [|c s IH]; [done|].
  cbn [JSON.quote_body]. by rewrite steps_app, steps_quote_char.
Qed.

Lemma steps_quote_value (stack : list Frame) (s : string) :
  steps Value stack (JSON.quote s) = Some (After, stack).
Proof.
  unfold JSON.quote. rewrite steps_app.
  assert (steps Value stack dq = Some (Str false, stack)) as -> by reflexivity.
  by rewrite steps_app, steps_quote_body.
Qed.

Lemma steps_quote_key (m : Mode) (stack : list Frame) (s : string) :
  m = ObjectFirst \/ m = Key ->
  steps m stack (JSON.quote s) = Some (Colon, stack).
Proof.
  intros Hm. unfold JSON.quote. rewrite steps_app.
  assert (steps m stack dq = Some (Str true, stack)) as ->
    by (by destruct Hm as [-> | ->]).
  by rewrite steps_app, steps_quote_body.
Qed.

(** Numbers. *)

Lemma digits_app (a b : string) : digits (a ++ b) = digits a && digits b.
Proof.
  induction a as [|c a IH]; [done|].
  rewrite append_cons. cbn [digits]. by rewrite IH, andb_assoc.
Qed.

Lemma pretty_N_char_digit (x : N) : is_digit (pretty_N_char x) = true.
Proof.
  unfold pretty_N_char. repeat case_match; reflexivity.
Qed.

Lemma pretty_N_char_nonzero (x : N) :
  (0 < x)%N -> (code (pretty_N_char x) =? 48)%nat = false.
Proof.
  intros Hx. unfold pretty_N_char.
  repeat case_match; try reflexivity. by apply N.lt_irrefl in Hx.
Qed.

(** The decimal digits of a positive number: a digit that is not 0, then
    digits. *)
Lemma pretty_N_go_digits (x : N) :
  forall s, (0 < x)%N ->
    exists d ds,
      pretty_N_go x s = String d (ds ++ s)
      /\ is_digit d = true /\ (code d =? 48)%nat = false /\ digits ds = true.
Proof.
  induction (N.lt_wf_0 x) as [x _ IH]. intros s Hx.
  rewrite pretty_N_go_step by done.
  destruct (decide (x `div` 10 = 0)%N) as [Hsmall|Hbig].
  - rewrite Hsmall, pretty_N_go_0.
    exists (pretty_N_char (x `mod` 10)), "".
    split; [done|]. split; [apply pretty_N_char_digit|]. split; [|done].
    apply pretty_N_char_nonzero.
    apply N.div_small_iff in Hsmall; [|done].
    rewrite N.mod_small by done. done.
  - destruct (IH (x `div` 10)%N) with
      (s := String (pretty_N_char (x `mod` 10)) s)
      as (d & ds & Hgo & Hd & Hnz & Hds).
    + apply N.div_lt; [done | lia].
    + by apply N.neq_0_lt_0.
    + exists d, (ds ++ String (pretty_N_char (x `mod` 10)) "").
      split; [|split; [done|split; [done|]]].
      * rewrite Hgo. f_equal. by rewrite append_assoc.
      * rewrite digits_app, Hds. cbn [digits].
        by rewrite pretty_N_char_digit.
Qed.

Lemma steps_digits (stack : list Frame) (ds : string) :
  digits ds = true -> steps Int stack ds = Some (Int, stack).
Proof.
  induction ds as [|c ds IH]; [done|].
  cbn [digits]. intros [Hc Hds]%andb_true_iff.
  cbn [steps step]. rewrite Hc. by apply IH.
Qed.

Lemma step_first_digit (m : Mode) (stack : list Frame) (d : ascii) :
  m = Value \/ m = ArrayFirst \/ m = Minus ->
  is_digit d = true -> (code d =? 48)%nat = false ->
  step m stack d = Some (Int, stack).
Proof.
  intros Hm Hd Hnz.
  destruct d as [[] [] [] [] [] [] [] []]; try done;
    by destruct Hm as [->|[->| ->]].
Qed.

Lemma steps_pretty_pos (m : Mode) (stack : list Frame) (p : positive) :
  m = Value \/ m = ArrayFirst \/ m = Minus ->
  steps m stack (pretty p) = Some (Int, stack).
Proof.
  intros Hm. unfold pretty, pretty_positive, pretty, pretty_N.
  destruct (decide (N.pos p = 0%N)); [done|].
  destruct (pretty_N_go_digits (N.pos p) "") as (d & ds & -> & Hd & Hnz & Hds);
    [lia|].
  rewrite append_nil_r. cbn [steps].
  rewrite step_first_digit by done. by apply steps_digits.
Qed.

Lemma steps_pretty_Z (m : Mode) (stack : list Frame) (z : Z) :
  m = Value \/ m = ArrayFirst ->
  exists m', steps m stack (pretty z) = Some (m', stack) /\ settled m'.
Proof.
  intros Hm. destruct z as [|p|p]; unfold pretty, pretty_Z.
  - exists Zero. split; [|by right; left].
    by destruct Hm as [-> | ->].
  - exists Int. split; [|by right; right].
    apply steps_pretty_pos. tauto.
  - exists Int. split; [|by right; right].
    rewrite steps_app.
    assert (steps m stack "-" = Some (Minus, stack)) as ->
      by (by destruct Hm as [-> | ->]).
    apply steps_pretty_pos. tauto.
Qed.

(** Arrays and objects. *)

Lemma serialize_array (gap indent : string) (x : Json) (xs : list Json) :
  JSON.serialize gap indent (JArr (x :: xs))
  = "[" ++ openWs gap indent
    ++ join ("," ++ openWs gap indent)
         (map (JSON.serialize gap (indent ++ gap)) (x :: xs))
    ++ closeWs gap indent ++ "]".
Proof.
  unfold openWs, closeWs. cbn [JSON.serialize].
  destruct (String.eqb gap ""); reflexivity.
Qed.

Lemma serialize_object (gap indent : string) (x : string * Json)
    (xs : list (string * Json)) :
  JSON.serialize gap indent (JObj (x :: xs))
  = "{" ++ openWs gap indent
    ++ join ("," ++ openWs gap indent)
         (map (member gap (indent ++ gap)) (x :: xs))
    ++ closeWs gap indent ++ "}".
Proof.
  unfold openWs, closeWs, member, colonWs. cbn [JSON.serialize].
  destruct (String.eqb gap ""); reflexivity.
Qed.

Lemma blank_openWs (gap indent : string) :
  blank gap = true -> blank indent = true -> blank (openWs gap indent) = true.
Proof.
  intros Hg Hi. unfold openWs. destruct (String.eqb gap ""); [done|].
  by rewrite !blank_app, Hg, Hi.
Qed.

Lemma blank_closeWs (gap indent : string) :
  blank indent = true -> blank (closeWs gap indent) = true.
Proof.
  intros Hi. unfold closeWs. destruct (String.eqb gap ""); [done|].
  by rewrite blank_app, Hi.
Qed.

Lemma blank_colonWs (gap : string) : blank (colonWs gap) = true.
Proof. unfold colonWs. by destruct (String.eqb gap ""). Qed.

Lemma Json_nested_ind (P : Json -> Prop) :
  P JNull ->
  (forall b, P (JBool b)) ->
  (forall z, P (JNum z)) ->
  (forall s, P (JStr s)) ->
  (forall items, Forall P items -> P (JArr items)) ->
  (forall props, Forall (fun kv => P (snd kv)) props -> P (JObj props)) ->
  forall v, P v.
Proof.
  intros Hnull Hbool Hnum Hstr Harr Hobj.
  fix IH 1. intros [| b | z | s | items | props].
  - exact Hnull.
  - apply Hbool.
  - apply Hnum.
  - apply Hstr.
  - apply Harr. induction items as [|x items IHitems]; constructor.
    + apply IH.
    + exact IHitems.
  - apply Hobj. induction props as [|[k x] props IHprops]; constructor.
    + apply IH.
    + exact IHprops.
Qed.

Lemma steps_elements (gap inner w : string) (below : list Frame)
    (items : list Json) :
  Forall accepted items -> items <> [] ->
  blank gap = true -> blank inner = true -> blank w = true ->
  forall m, m = Value \/ m = ArrayFirst ->
    exists m',
      steps m (InArray :: below)
        (join ("," ++ w) (map (JSON.serialize gap inner) items))
      = Some (m', InArray :: below)
      /\ settled m'.
Proof.
  intros Hall Hne Hgap Hinner Hw.
  induction Hall as [|x items Hx _ IH]; [done|]. clear Hne.
  intros m Hm.
  destruct (Hx gap inner m (InArray :: below) Hgap Hinner Hm)
    as (m1 & Hsteps1 & Hm1).
  destruct items as [|y items]; [by exists m1|].
  cbn [map join]. cbn [map] in IH.
  rewrite steps_app, Hsteps1, !steps_app.
  assert (steps m1 (InArray :: below) "," = Some (Value, InArray :: below))
    as ->.
  { cbn [steps]. by rewrite settled_delimiter. }
  rewrite steps_blank_skip by tauto.
  apply IH; [done | tauto].
Qed.

Lemma steps_members (gap inner w : string) (below : list Frame)
    (props : list (string * Json)) :
  Forall (fun kv => accepted (snd kv)) props -> props <> [] ->
  blank gap = true -> blank inner = true -> blank w = true ->
  forall m, m = ObjectFirst \/ m = Key ->
    exists m',
      steps m (InObject :: below)
        (join ("," ++ w) (map (member gap inner) props))
      = Some (m', InObject :: below)
      /\ settled m'.
Proof.
  intros Hall Hne Hgap Hinner Hw.
  induction Hall as [|[k x] props Hx _ IH]; [done|]. clear Hne.
  intros m Hm.
  assert (exists m1,
             steps m (InObject :: below) (member gap inner (k, x))
             = Some (m1, InObject :: below) /\ settled m1)
    as (m1 & Hsteps1 & Hm1).
  { unfold member. cbn [fst snd].
    rewrite steps_app, steps_quote_key by done.
    rewrite steps_app.
    assert (steps Colon (InObject :: below) ":"
            = Some (Value, InObject :: below)) as -> by reflexivity.
    rewrite steps_app, steps_blank_skip by (tauto || apply blank_colonWs).
    apply Hx; [done | done | tauto]. }
  destruct props as [|y props]; [by exists m1|].
  cbn [map join]. cbn [map] in IH.
  rewrite steps_app, Hsteps1, !steps_app.
  assert (steps m1 (InObject :: below) "," = Some (Key, InObject :: below))
    as ->.
  { cbn [steps]. by rewrite settled_delimiter. }
  rewrite steps_blank_skip by tauto.
  apply IH; [done | tauto].
Qed.

(** After the elements: the white space before the closing bracket, and the
    bracket. *)
Lemma steps_close (m : Mode) (top : Frame) (below : list Frame)
    (w : string) (closing : string) :
  settled m -> blank w = true ->
  closing = match top with InArray => "]" | InObject => "}" end ->
  steps m (top :: below) (w ++ closing) = Some (After, below).
Proof.
  intros Hm Hw ->. rewrite steps_app.
  destruct (steps_blank_after m (top :: below) w Hm Hw) as (m' & -> & Hm').
  destruct top; cbn [steps]; by rewrite settled_delimiter.
Qed.

Theorem serialize_accepted (v : Json) : accepted v.
Proof.
  induction v as [| b | z | s | items IH | props IH] using Json_nested_ind;
    intros gap indent m stack Hgap Hindent Hm.
  - exists After. split; [|by left].
    by destruct Hm as [-> | ->].
  - exists After. split; [|by left].
    by destruct b, Hm as [-> | ->].
  - by apply steps_pretty_Z.
  - exists After. split; [|by left]. cbn [JSON.serialize].
    destruct Hm as [-> | ->]; [apply steps_quote_value|].
    unfold JSON.quote. rewrite steps_app.
    assert (steps ArrayFirst stack dq = Some (Str false, stack)) as ->
      by reflexivity.
    by rewrite steps_app, steps_quote_body.
  - exists After. split; [|by left].
    destruct items as [|x items]; [by destruct Hm as [-> | ->]|].
    rewrite serialize_array, steps_app.
    assert (steps m stack "[" = Some (ArrayFirst, InArray :: stack)) as ->
      by (by destruct Hm as [-> | ->]).
    rewrite steps_app, steps_blank_skip
      by (tauto || by apply blank_openWs).
    rewrite steps_app.
    destruct (steps_elements gap (indent ++ gap) (openWs gap indent) stack
                (x :: items) IH) with (m := ArrayFirst)
      as (m1 & -> & Hm1); try done.
    + by rewrite blank_app, Hindent, Hgap.
    + by apply blank_openWs.
    + tauto.
    + apply steps_close; [done | by apply blank_closeWs | done].
  - exists After. split; [|by left].
    destruct props as [|x props]; [by destruct Hm as [-> | ->]|].
    rewrite serialize_object, steps_app.
    assert (steps m stack "{" = Some (ObjectFirst, InObject :: stack)) as ->
      by (by destruct Hm as [-> | ->]).
    rewrite steps_app, steps_blank_skip
      by (tauto || by apply blank_openWs).
    rewrite steps_app.
    destruct (steps_members gap (indent ++ gap) (openWs gap indent) stack
                (x :: props) IH) with (m := ObjectFirst)
      as (m1 & -> & Hm1); try done.
    + by rewrite blank_app, Hindent, Hgap.
    + by apply blank_openWs.
    + tauto.
    + apply steps_close; [done | by apply blank_closeWs | done].
Qed.

(** [JSON.stringify(v)] and [JSON.stringify(v, null, 2)] are JSON texts. *)
Lemma is_json_stringify (v : Json) : is_json (JSON.stringify v) = true.
Proof.
  unfold is_json, JSON.stringify. rewrite run_steps.
  destruct (serialize_accepted v "" "" Value []) as (m & -> & Hm);
    [done | done | tauto |].
  by apply settled_complete.
Qed.

Lemma is_json_stringify_indent2 (v : Json) :
  is_json (JSON.stringify_indent2 v) = true.
Proof.
  unfold is_json, JSON.stringify_indent2. rewrite run_steps.
  destruct (serialize_accepted v "  " "" Value []) as (m & -> & Hm);
    [done | done | tauto |].
  by apply settled_complete.
Qed.

Lemma is_json_error_payload (msg : string) :
  is_json (JSON.error_payload msg) = true.
Proof. apply is_json_stringify. Qed.

(** The confirmation of a post is not a JSON text. *)
Lemma msgPosted_not_json (n : nat) : is_json (Tools.msgPosted n) = false.
Proof. reflexivity. Qed.

End JsonTextFacts.

(** ** Tool-result payloads *)

Module Payloads.

Import Tools.

(** What [executeTool] returns without touching the network is a structured
    [{error}] payload. *)
Lemma fetchCase_returned call (input_ : list (string * Json))
    (ctx : ToolContext) (text : string) :
  fetchCase call input_ ctx = Done (Ret text) ->
  exists msg, text = JSON.error_payload msg.
Proof.
  unfold fetchCase.
  destruct (validateRepo _ _ ctx) as [[repoErr|]|?]; try done.
  - intros [= <-]. by exists repoErr.
  - destruct (validateMember _ ctx) as [[memberErr|]|?]; try done.
    intros [= <-]. by exists memberErr.
Qed.

Lemma postCase_returned dl (input_ : list (string * Json))
    (ctx : ToolContext) (text : string) :
  postCase dl input_ ctx = Done (Ret text) ->
  exists msg, text = JSON.error_payload msg.
Proof.
  unfold postCase.
  destruct (notesMissing _); [intros [= <-]; by eexists|].
  match goal with
  | |- context [match ?checked with Ret _ => _ | Throw _ => _ end] =>
      destruct checked as [[denied|]|?]
  end; try done.
  - intros [= <-]. by exists denied.
  - match goal with
    | |- context [match ?prepared with Ret _ => _ | Throw _ => _ end] =>
        destruct prepared as [[dateLabel notes]|?]
    end; done.
Qed.

Lemma executeTool_returned dl (name_ : string) (input_ : list (string * Json))
    (ctx : ToolContext) (text : string) :
  executeTool dl name_ input_ ctx = Done (Ret text) ->
  exists msg, text = JSON.error_payload msg.
Proof.
  unfold executeTool.
  repeat (case_match; [by (apply fetchCase_returned || apply postCase_returned)|]).
  intros [= <-]. by eexists.
Qed.

(** After its network call [executeTool] always returns: the serialised
    data or an [{error}] payload for a read tool, the confirmation sentence
    or an [{error}] payload for the posting tool. *)
Lemma fetchSettled_returns (r : Outcome Json) :
  exists text, fetchSettled r = Ret text /\ JsonText.is_json text = true.
Proof.
  destruct r as [data|error]; eexists; (split; [reflexivity|]).
  - apply JsonTextFacts.is_json_stringify_indent2.
  - apply JsonTextFacts.is_json_error_payload.
Qed.

Lemma postSettled_returns (n : nat) (r : Outcome Json) :
  exists text,
    postSettled n r = Ret text
    /\ (text = msgPosted n \/ JsonText.is_json text = true).
Proof.
  destruct r as [data|error]; cbn [postSettled].
  - eexists. split; [reflexivity | by left].
  - repeat case_match; eexists; (split; [reflexivity|]); right;
      apply JsonTextFacts.is_json_error_payload.
Qed.

Lemma executeTool_awaiting dl (name_ : string) (input_ : list (string * Json))
    (ctx : ToolContext) (c : NetCall) k :
  executeTool dl name_ input_ ctx = Await c k ->
  (k = fetchSettled /\ In name_ fetchTools)
  \/ (exists n, k = postSettled n /\ name_ = "post_standup_to_slack").
Proof.
  unfold executeTool, fetchTools.
  destruct (String.eqb_spec name_ "fetch_commits") as [->|_].
  { intros H. left. split; [|by left].
    unfold fetchCase in H. repeat case_match; congruence. }
  destruct (String.eqb_spec name_ "fetch_pull_requests") as [->|_].
  { intros H. left. split; [|by right; left].
    unfold fetchCase in H. repeat case_match; congruence. }
  destruct (String.eqb_spec name_ "fetch_issues") as [->|_].
  { intros H. left. split; [|by right; right; left].
    unfold fetchCase in H. repeat case_match; congruence. }
  destruct (String.eqb_spec name_ "post_standup_to_slack") as [->|_]; [|done].
  intros H. right. unfold postCase in H.
  repeat case_match; try congruence; injection H as _ <-; eauto.
Qed.

End Payloads.

Lemma settled_feedsBack (env : Collaborators) (ctx : ToolContext)
    (t : ToolUse) (b : ToolResultBlock) :
  let exec := Tools.executeTool (dateLabelOf env) (name t) (input t) ctx in
  settledAs env (id t) exec b -> feedsBack exec t b.
Proof.
  intros exec [tr0 ->]. unfold feedsBack.
  split; [apply settleTool_id|].
  unfold Loop.settleTool.
  destruct exec as [[text|error]|c k] eqn:Hexec; cbn [fst content is_error].
  - destruct (Payloads.executeTool_returned _ _ _ _ _ Hexec) as [msg ->].
    split; [left; apply JsonTextFacts.is_json_error_payload|].
    split; [by right|]. split; [split; [done | by intros [? ?]]|].
    split; [done|]. intros text [= <-]. eauto.
  - split; [left; apply JsonTextFacts.is_json_error_payload|].
    split; [by left|]. split; [split; eauto|].
    split; [by intros ? [= <-] | done].
  - assert (exists text,
               k (respond env tr0 c) = Ret text
               /\ (JsonText.is_json text = true
                   \/ name t = "post_standup_to_slack"
                      /\ exists n, text = Tools.msgPosted n))
      as (text & -> & Htext).
    { destruct (Payloads.executeTool_awaiting _ _ _ _ _ _ Hexec)
        as [[-> _]|(n & -> & Hname)].
      - destruct (Payloads.fetchSettled_returns (respond env tr0 c))
          as (text & -> & Hjson). eauto.
      - destruct (Payloads.postSettled_returns n (respond env tr0 c))
          as (text & -> & [->|Hjson]); eauto 6. }
    cbn [fst content is_error].
    split.
    { destruct Htext as [Hjson|(Hname & n & ->)]; [by left|].
      right. split; [done|]. split; [done|].
      split; [apply JsonTextFacts.msgPosted_not_json | by exists n]. }
    split; [by right|]. split; [split; [done | by intros [? ?]]|].
    split; done.
Qed.

(** C8, as stated, fails: the turn that posts a standup feeds back, without
    an error flag, the confirmation sentence, which is no JSON text. *)
Lemma post_confirmation_is_plain_text :
  let confirmation :=
    {| tool_use_id := "toolu_P";
       content := "Standup posted to Slack for 1 team member(s).";
       is_error := None |} in
  (Loop.runAgentTurn Scenario.poster [Scenario.task] "system" Scenario.acme
     None []).1.2
  = [ Scenario.task;
      {| role := assistant; body := Blocks [ToolUseBlock Scenario.postAlice] |};
      {| role := user; body := ToolResults [confirmation] |} ]
  /\ JsonText.is_json (content confirmation) = false.
Proof. vm_compute. split; reflexivity. Qed.

(** C8, amended.  A turn with tool calls feeds back, for each call in
    order, a block that [feedsBack] describes: its content is a JSON text,
    except for the plain confirmation sentence of a successful post; it
    carries [is_error: true] exactly when [executeTool] threw, with the
    thrown message as [{error}] payload; and an [{error}] payload that
    [executeTool] returned, such as a denial of the access guard, carries no
    flag. *)
Theorem tool_result_payloads (env : Collaborators)
    (messages : list Message) (systemPrompt : string) (ctx : ToolContext)
    (iteration : option nat) (tr : Trace) (response : list ContentBlock) :
  infer env (Loop.logIteration iteration tr) systemPrompt messages
  = Ret response ->
  Loop.toolUsesOf response <> [] ->
  exists results,
    (Loop.runAgentTurn env messages systemPrompt ctx iteration tr).1.2
    = (messages
       ++ [{| role := assistant; body := Blocks response |};
           {| role := user; body := ToolResults results |}])%list
    /\ Forall2
         (fun t b =>
            feedsBack
              (Tools.executeTool (dateLabelOf env) (name t) (input t) ctx) t b)
         (Loop.toolUsesOf response) results.
Proof.
  intros Hinfer Hsome.
  rewrite (runAgentTurn_tools env messages systemPrompt ctx iteration tr
             response Hinfer Hsome).
  cbn [fst snd].
  set (tr2 := (rev (Loop.thoughts response) ++ _)%list).
  destruct (promiseAll_pairs env ctx (Loop.toolUsesOf response) tr2)
    as (Hlen & Hpairs & _).
  exists (Loop.promiseAll env ctx (Loop.toolUsesOf response) tr2).1.
  split; [by rewrite <- List.app_assoc|].
  apply Forall2_same_length_lookup. split; [done|].
  intros i t b Ht Hb.
  destruct (Hpairs i t b Ht Hb) as (s & Hs & Hsettled).
  unfold startedAs in Hs. rewrite startAll_steps, list_lookup_fmap, Ht in Hs.
  injection Hs as <-. by apply settled_feedsBack.
Qed.

Lemma tool_result_payloads_witness :
  exists results,
    (Loop.runAgentTurn Scenario.planner [Scenario.task] "system" Scenario.acme
       (Some 1) []).1.2
    = ([Scenario.task]
       ++ [{| role := assistant; body := Blocks Scenario.twoCalls |};
           {| role := user; body := ToolResults results |}])%list
    /\ Forall2
         (fun t b =>
            feedsBack
              (Tools.executeTool (dateLabelOf Scenario.planner) (name t)
                 (input t) Scenario.acme) t b)
         (Loop.toolUsesOf Scenario.twoCalls) results.
Proof.
  apply (tool_result_payloads Scenario.planner [Scenario.task] "system"
           Scenario.acme (Some 1) [] Scenario.twoCalls).
  - reflexivity.
  - discriminate.
Defined.

(** ** The scenarios of the specification *)

Example scenario_member_denied :
  Tools.executeTool (dateLabelOf Scenario.quiet) "fetch_commits"
    (Scenario.fetchInput "acme" "web" "carol") Scenario.acme
  = Done (Ret (JSON.error_payload
                 ("Access denied: " ++ dq ++ "carol" ++ dq
                  ++ " is not a configured team member. Allowed members: alice, bob"))).
Proof. reflexivity. Qed.

Example scenario_allowed_fetch :
  Tools.executeTool (dateLabelOf Scenario.quiet) "fetch_commits"
    (Scenario.fetchInput "ACME" "Web" "Alice") Scenario.acme
  = Await (FetchCommits (Some (JStr "ACME")) (Some (JStr "Web"))
                        (Some (JStr "Alice")))
          Tools.fetchSettled.
Proof. reflexivity. Qed.

Example scenario_no_notes :
  Tools.executeTool (dateLabelOf Scenario.quiet) "post_standup_to_slack"
    [("standup_notes", JArr [])] Scenario.acme
  = Done (Ret (JSON.error_payload
                 "No standup notes provided. Include at least one team member.")).
Proof. reflexivity. Qed.

Example scenario_unknown_tool :
  Tools.executeTool (dateLabelOf Scenario.quiet) "delete_repo" [] Scenario.acme
  = Done (Ret (JSON.error_payload "Unknown tool: delete_repo")).
Proof. reflexivity. Qed.

Example scenario_authentication_failure :
  let out :=
    Loop.runAgentLoop Scenario.unauthenticated "system" "xoxp-token" "C0123456"
      Scenario.config [] in
  inferences out.2
  = [Throw (ErrorObj "401 authentication_error: invalid x-api-key")]
  /\ firstn 2 out.2 = [Logged (LogFinished 1); Logged LogAuthFailed]
  /\ length out.1 = 1.
Proof. vm_compute. repeat split. Qed.

Example scenario_exhausted :
  let out :=
    Loop.runAgentLoop Scenario.greedy "system" "xoxp-token" "C0123456"
      Scenario.config [] in
  length (inferences out.2) = 20
  /\ Scenario.allContinue (inferences out.2) = true
  /\ firstn 1 out.2 = [Logged (LogMaxIterations 20)]
  /\ length out.1 = 41.
Proof. vm_compute. repeat split. Qed.

Example scenario_exit :
  Loop.readLoop Scenario.greedy ["  "; " Exit  "; "what did alice do?"] "system"
    Scenario.acme [] []
  = ([], [Logged LogPrompt]).
Proof. reflexivity. Qed.

Example scenario_line :
  let out :=
    Loop.readLoop Scenario.planner ["what did alice do?"; "quit"] "system"
      Scenario.acme [] [] in
  length (inferences out.2) = 2 /\ length out.1 = 4.
Proof. vm_compute. split; reflexivity. Qed.

Example scenario_missing_username :
  let t := {| id := "toolu_M"; name := "fetch_issues";
              input := [("owner", JStr "acme"); ("repo", JStr "web")] |} in
  let started := Loop.startTool Scenario.quiet Scenario.acme t [] in
  started.1 = Done (Throw undefinedToLowerCase)
  /\ (Loop.settleTool Scenario.quiet (id t) started.1 started.2).1
     = {| tool_use_id := "toolu_M";
          content :=
            JSON.error_payload
              "Cannot read properties of undefined (reading 'toLowerCase')";
          is_error := Some true |}
  /\ networkCalls (Loop.settleTool Scenario.quiet (id t) started.1 started.2).2
     = 0.
Proof. vm_compute. repeat split. Qed.

(** * Further properties *)

(** ** Traces that grow *)

Section Grows.

Local Open Scope list_scope.

Variable P : Event -> Prop.

Lemma grows_refl (tr : Trace) : grows P tr tr.
Proof. exists []. by split; [|constructor]. Qed.

Lemma grows_trans (a b c : Trace) : grows P a b -> grows P b c -> grows P a c.
Proof.
  intros (d1 & -> & H1) (d2 & -> & H2). exists (d2 ++ d1).
  split; [by rewrite List.app_assoc | by apply Forall_app].
Qed.

Lemma grows_cons (ev : Event) (a b : Trace) :
  P ev -> grows P a b -> grows P a (ev :: b).
Proof.
  intros Hev (d & -> & Hd). exists (ev :: d). split; [done | by constructor].
Qed.

Lemma grows_app (d a b : Trace) :
  Forall P d -> grows P a b -> grows P a (d ++ b).
Proof.
  intros Hd (d' & -> & Hd'). exists (d ++ d').
  split; [by rewrite List.app_assoc | by apply Forall_app].
Qed.

End Grows.

Lemma grows_impl (P Q : Event -> Prop) (a b : Trace) :
  (forall ev, P ev -> Q ev) -> grows P a b -> grows Q a b.
Proof.
  intros HPQ (d & -> & Hd). exists d. split; [done|].
  eapply Forall_impl; [exact Hd | exact HPQ].
Qed.

(** ** The guards, read backwards *)

Module Guarded.

Import Tools.

Lemma validateRepo_null_inv (o r : JsVal) (ctx : ToolContext)
    (repos : list Repo) :
  validateRepo o r ctx = Ret None -> allowedRepos ctx = Some repos ->
  repoConfigured repos o r.
Proof.
  unfold validateRepo. intros H Hrepos. rewrite Hrepos in H.
  destruct (Js.some (repoMatches o r) repos) as [[|]|] eqn:Hsome; try done.
  apply some_true_inv in Hsome as (x & Hx & Hmatch).
  unfold repoMatches in Hmatch.
  destruct o as [[| | |o'| |]|]; try done. cbn in Hmatch.
  destruct (String.eqb_spec (toLowerCase (owner x)) (toLowerCase o'))
    as [Ho|]; [|done].
  destruct r as [[| | |r'| |]|]; try done. cbn in Hmatch.
  injection Hmatch as Hr. apply String.eqb_eq in Hr.
  by exists o', r', x.
Qed.

Lemma validateMember_null_inv (u : JsVal) (ctx : ToolContext)
    (members : list string) :
  validateMember u ctx = Ret None -> allowedMembers ctx = Some members ->
  memberConfigured members u.
Proof.
  unfold validateMember. intros H Hmembers. rewrite Hmembers in H.
  destruct (Js.some (memberMatches "username" u) members) as [[|]|] eqn:Hsome;
    try done.
  apply some_true_inv in Hsome as (m & Hm & Hmatch).
  unfold memberMatches in Hmatch.
  destruct u as [[| | |u'| |]|]; try done. cbn in Hmatch.
  injection Hmatch as Hu. apply String.eqb_eq in Hu.
  by exists u', m.
Qed.

Lemma fetchCase_permitted call (input_ : list (string * Json))
    (ctx : ToolContext) (c : NetCall) k :
  (forall o r u, permitted ctx (call o r u)
                 <-> permitted ctx (FetchCommits o r u)) ->
  fetchCase call input_ ctx = Await c k -> permitted ctx c.
Proof.
  intros Hcall Hawait.
  apply Executor.fetchCase_await in Hawait as (Hrepo & Hmember & ->).
  apply Hcall. split.
  - intros repos Hrepos. by apply validateRepo_null_inv with ctx.
  - intros members Hmembers. by apply validateMember_null_inv with ctx.
Qed.

(** The notes of a post are the entries, one for one. *)
Lemma toNote_username (e : Json) (n : Note) (u : string) :
  toNote e = Ret n -> usernameOf e = Some u ->
  note_username n = Some (JStr u).
Proof.
  intros Hnote Hu. destruct e as [| | | | |props]; try done.
  injection Hnote as <-. cbn [note_username].
  unfold usernameOf in Hu.
  destruct (Js.assoc "username" props) as [[| | |s| |]|]; try done.
  by injection Hu as ->.
Qed.

Lemma map_toNote_usernames (members : list string) (entries : list Json) :
  forall notes,
    Js.map toNote entries = Ret notes ->
    Forall (fun e => exists u m, usernameOf e = Some u /\ In m members
                                 /\ toLowerCase m = toLowerCase u) entries ->
    Forall (fun n => memberConfigured members (note_username n)) notes.
Proof.
  induction entries as [|e entries IH]; intros notes Hmap Hall.
  - injection Hmap as <-. constructor.
  - cbn [Js.map] in Hmap.
    destruct (toNote e) as [n|] eqn:Hn; [|done]. cbn in Hmap.
    destruct (Js.map toNote entries) as [ns|]; [|done]. cbn in Hmap.
    injection Hmap as <-.
    apply List.Forall_cons_iff in Hall as [(u & m & Hu & Hm & Heq) Hall].
    constructor; [|by apply IH].
    exists u, m. split; [by apply toNote_username with e | done].
Qed.

Lemma postCase_call dl (input_ : list (string * Json)) (ctx : ToolContext)
    (c : NetCall) k :
  postCase dl input_ ctx = Await c k ->
  exists entries notes dateLabel,
    Js.assoc "standup_notes" input_ = Some (JArr entries)
    /\ entries <> []
    /\ dl (timezone ctx) = Ret dateLabel
    /\ Js.map toNote entries = Ret notes
    /\ c = PostSlack notes dateLabel
    /\ k = postSettled (length entries).
Proof.
  unfold postCase.
  destruct (notesMissing _) eqn:Hmissing; [done|].
  match goal with
  | |- context [match ?checked with Ret _ => _ | Throw _ => _ end] =>
      destruct checked as [[denied|]|?]
  end; try done.
  destruct (dl (timezone ctx)) as [dateLabel|]; [|done].
  destruct (Js.assoc "standup_notes" input_) as [[| | | |entries|]|]; try done.
  cbn [asArray mbind Outcome_bind].
  destruct (Js.map toNote entries) as [notes|] eqn:Hmap; [|done].
  cbn [mbind Outcome_bind].
  intros [= <- <-]. exists entries, notes, dateLabel.
  split; [done|]. split; [by apply Posting.notesMissing_false_array|].
  split; [done|]. split; [done|]. split; [done|].
  by rewrite (map_length_inv _ _ _ Hmap).
Qed.

Lemma postCase_permitted dl (input_ : list (string * Json))
    (ctx : ToolContext) (c : NetCall) k :
  postCase dl input_ ctx = Await c k -> permitted ctx c.
Proof.
  intros Hawait.
  destruct (postCase_call _ _ _ _ _ Hawait)
    as (entries & notes & dateLabel & Hnotes & _ & _ & Hmap & -> & _).
  intros members Hmembers.
  destruct (Posting.postCase_await _ _ _ _ _ _ Hmembers Hawait)
    as (entries' & Hnotes' & _ & Hall).
  rewrite Hnotes in Hnotes'. injection Hnotes' as <-.
  by apply map_toNote_usernames with entries.
Qed.

Lemma executeTool_permitted dl (name_ : string)
    (input_ : list (string * Json)) (ctx : ToolContext) (c : NetCall) k :
  executeTool dl name_ input_ ctx = Await c k -> permitted ctx c.
Proof.
  unfold executeTool.
  repeat case_match; try done;
    (apply fetchCase_permitted || apply postCase_permitted); done.
Qed.

End Guarded.

(** ** What a session asks of the network *)

Section Requests.

Local Open Scope list_scope.

Variable env : Collaborators.
Variable ctx : ToolContext.

Local Abbreviation ok := (permittedEvent ctx).

Lemma startTool_grows (t : ToolUse) (tr : Trace) :
  grows ok tr (Loop.startTool env ctx t tr).2.
Proof.
  unfold Loop.startTool.
  destruct (Tools.executeTool _ _ _ _) as [r|c k] eqn:Hexec; cbn [snd].
  - apply grows_cons; [done | apply grows_refl].
  - apply grows_cons; [by apply Guarded.executeTool_permitted in Hexec|].
    apply grows_cons; [done | apply grows_refl].
Qed.

Lemma startAll_grows (toolUses : list ToolUse) (tr : Trace) :
  grows ok tr (Loop.startAll env ctx toolUses tr).2.
Proof.
  revert tr. induction toolUses as [|t rest IH]; intros tr.
  - apply grows_refl.
  - cbn [Loop.startAll].
    pose proof (startTool_grows t tr) as Ht.
    destruct (Loop.startTool env ctx t tr) as [s tr1].
    specialize (IH tr1).
    destruct (Loop.startAll env ctx rest tr1) as [ss tr2].
    by apply grows_trans with tr1.
Qed.

Lemma settleTool_grows (id_ : string) (s : Step) (tr : Trace) :
  grows ok tr (Loop.settleTool env id_ s tr).2.
Proof.
  unfold Loop.settleTool.
  destruct s as [[text|e]|c k]; cbn [snd].
  - apply grows_refl.
  - apply grows_cons; [done | apply grows_refl].
  - destruct (k (respond env tr c)); cbn [snd];
      repeat (apply grows_cons; [done|]); apply grows_refl.
Qed.

Lemma settleAll_grows (fuel : nat) :
  forall pending slots (tr : Trace),
    grows ok tr (Loop.settleAll env fuel pending slots tr).2.
Proof.
  induction fuel as [|fuel IH]; intros pending slots tr; cbn [Loop.settleAll].
  - apply grows_refl.
  - destruct (pending !! _) as [[i [id_ s]]|]; [|apply grows_refl].
    pose proof (settleTool_grows id_ s tr) as Hs.
    destruct (Loop.settleTool env id_ s tr) as [block tr1].
    eapply grows_trans; [exact Hs | apply IH].
Qed.

Lemma promiseAll_grows (toolUses : list ToolUse) (tr : Trace) :
  grows ok tr (Loop.promiseAll env ctx toolUses tr).2.
Proof.
  unfold Loop.promiseAll.
  pose proof (startAll_grows toolUses tr) as Hstart.
  destruct (Loop.startAll env ctx toolUses tr) as [steps tr1].
  match goal with
  | |- context [Loop.settleAll env ?n ?p ?sl tr1] =>
      pose proof (settleAll_grows n p sl tr1) as Hsettle;
      destruct (Loop.settleAll env n p sl tr1) as [slots tr2]
  end.
  by apply grows_trans with tr1.
Qed.

Lemma thoughts_logged (response : list ContentBlock) :
  Forall ok (rev (Loop.thoughts response)).
Proof.
  apply Forall_rev.
  induction response as [|[text| |] rest IH]; cbn [Loop.thoughts]; try done.
  destruct (String.eqb (trim text) ""); [done | by constructor].
Qed.

Lemma runAgentTurn_grows (messages : list Message) (systemPrompt : string)
    (iteration : option nat) (tr : Trace) :
  grows ok tr (Loop.runAgentTurn env messages systemPrompt ctx iteration tr).2.
Proof.
  unfold Loop.runAgentTurn.
  assert (grows ok tr (Loop.logIteration iteration tr)) as H0.
  { destruct iteration; [apply grows_cons; [done|]|]; apply grows_refl. }
  destruct (infer env _ systemPrompt messages) as [response|error]; cbn [snd].
  - destruct (length (Loop.toolUsesOf response) =? 0)%nat; cbn [snd].
    + apply grows_app; [apply thoughts_logged|]. by apply grows_cons.
    + match goal with
      | |- context [Loop.promiseAll env ctx ?ts ?t0] =>
          pose proof (promiseAll_grows ts t0) as Hp;
          destruct (Loop.promiseAll env ctx ts t0) as [results tr3]
      end.
      cbn [snd] in *. eapply grows_trans; [|exact Hp].
      apply grows_app; [apply thoughts_logged|]. by apply grows_cons.
  - repeat (apply grows_cons; [done|]). exact H0.
Qed.

Lemma subLoop_grows (n : nat) (systemPrompt : string) :
  forall (messages : list Message) (tr : Trace),
    grows ok tr (Loop.subLoop env n systemPrompt ctx messages tr).2.
Proof.
  induction n as [|n IH]; intros messages tr; [apply grows_refl|].
  rewrite subLoop_S.
  pose proof (runAgentTurn_grows messages systemPrompt None tr) as Ht.
  destruct (Loop.runAgentTurn env messages systemPrompt ctx None tr)
    as [[done messages1] tr1].
  destruct done; [done|]. eapply grows_trans; [exact Ht | apply IH].
Qed.

Lemma autoTurns_grows (prompt : string) (n : nat) :
  forall (iteration : nat) (messages : list Message) (tr : Trace),
    grows ok tr (Loop.autoTurns env prompt n iteration ctx messages tr).2.
Proof.
  induction n as [|n IH]; intros iteration messages tr; [apply grows_refl|].
  rewrite autoTurns_S.
  pose proof (runAgentTurn_grows messages prompt (Some iteration) tr) as Ht.
  destruct (Loop.runAgentTurn env messages prompt ctx (Some iteration) tr)
    as [[done messages1] tr1].
  cbn [snd] in Ht. destruct done; cbn [snd].
  - by apply grows_cons.
  - eapply grows_trans; [|apply IH].
    destruct (iteration =? Loop.MAX_ITERATIONS)%nat; [by apply grows_cons|done].
Qed.

Lemma readLoop_grows (systemPrompt : string) (lines : list string) :
  forall (messages : list Message) (tr : Trace),
    grows ok tr (Loop.readLoop env lines systemPrompt ctx messages tr).2.
Proof.
  induction lines as [|line rest IH]; intros messages tr; cbn [Loop.readLoop].
  - apply grows_refl.
  - destruct (String.eqb (trim line) "").
    { eapply grows_trans; [|apply IH]. apply grows_cons; [done|apply grows_refl]. }
    destruct (Loop.isExit (trim line)); [apply grows_refl|].
    match goal with
    | |- context [Loop.subLoop env ?n systemPrompt ctx ?m tr] =>
        pose proof (subLoop_grows n systemPrompt m tr) as Hs;
        destruct (Loop.subLoop env n systemPrompt ctx m tr) as [messages2 tr2]
    end.
    cbn [snd] in Hs. eapply grows_trans; [|apply IH].
    by repeat (apply grows_cons; [done|]).
Qed.

End Requests.

(** X1.  Whatever the planner asks for, a session only reaches the network
    for what its configuration allows: every fetch it issues, in the
    autonomous or in the interactive mode, is for a configured repository
    and a configured team member, both given as strings, and every post it
    issues carries notes for team members only. *)
Theorem session_requests_permitted (env : Collaborators)
    (AUTONOMOUS_SYSTEM_PROMPT : string)
    (buildInteractiveSystemPrompt :
       list string -> list Repo -> Z -> Z -> string -> string)
    (slackToken_ slackChannelId_ : string) (config : AgentConfig)
    (lines : list string) (tr : Trace) :
  (exists delta,
      (Loop.runAgentLoop env AUTONOMOUS_SYSTEM_PROMPT slackToken_
         slackChannelId_ config tr).2 = (delta ++ tr)%list
      /\ forall c, In (Requested c) delta -> sessionPermits config c)
  /\ (exists delta,
        (Loop.runInteractiveAgent env buildInteractiveSystemPrompt slackToken_
           slackChannelId_ config lines tr).2 = (delta ++ tr)%list
        /\ forall c, In (Requested c) delta -> sessionPermits config c).
Proof.
  set (ctx := (Loop.buildToolContext env slackToken_ slackChannelId_ config).1).
  assert (forall c, permitted ctx c -> sessionPermits config c) as Hsession.
  { intros [o r u|o r u|o r u|notes label] Hc; cbn in Hc |- *;
      try (destruct Hc as [Hrepo Hmember]; split;
           [by apply Hrepo | by apply Hmember]).
    by apply Hc. }
  assert (forall a b, grows (permittedEvent ctx) a b ->
            exists delta, b = (delta ++ a)%list
                          /\ forall c, In (Requested c) delta -> sessionPermits config c)
    as Hgrows.
  { intros a b (delta & -> & Hall). exists delta. split; [done|].
    intros c Hin. apply Hsession.
    rewrite List.Forall_forall in Hall. exact (Hall _ Hin). }
  split; apply Hgrows.
  - unfold Loop.runAgentLoop. fold ctx.
    destruct (Loop.buildToolContext env slackToken_ slackChannelId_ config)
      as [ctx' repos] eqn:Hctx. cbn [fst] in ctx. subst ctx.
    eapply grows_trans; [|apply autoTurns_grows].
    repeat (apply grows_cons; [done|]). apply grows_refl.
  - unfold Loop.runInteractiveAgent.
    destruct (Loop.buildToolContext env slackToken_ slackChannelId_ config)
      as [ctx' repos] eqn:Hctx. cbn [fst] in ctx. subst ctx.
    match goal with
    | |- context [Loop.readLoop env lines ?sp ctx' ?m ?t0] =>
        pose proof (readLoop_grows env ctx' sp lines m t0) as Hr;
        destruct (Loop.readLoop env lines sp ctx' m t0) as [messages tr3]
    end.
    cbn [snd] in *. apply grows_cons; [done|].
    eapply grows_trans; [|exact Hr].
    repeat (apply grows_cons; [done|]). apply grows_refl.
Qed.

(** ** Requests and replies of a turn *)

Section Pairing.

Local Open Scope list_scope.

Variable env : Collaborators.

Lemma awaits_Permutation (a b : list Step) : a ≡ₚ b -> awaits a = awaits b.
Proof.
  induction 1 as [|x a b _ IH|x y a|a b c _ IH1 _ IH2]; cbn [awaits].
  - done.
  - destruct x; by rewrite IH.
  - by destruct x, y.
  - congruence.
Qed.

Lemma counts_app (a b : Trace) :
  networkCalls (a ++ b) = networkCalls a + networkCalls b
  /\ replies (a ++ b) = replies a + replies b.
Proof.
  induction a as [|ev a [IH1 IH2]]; [done|].
  destruct ev; cbn; rewrite ?IH1, ?IH2; done.
Qed.

Lemma counts_thoughts (response : list ContentBlock) :
  networkCalls (rev (Loop.thoughts response)) = 0
  /\ replies (rev (Loop.thoughts response)) = 0.
Proof.
  induction response as [|[text| |] rest [IH1 IH2]]; cbn [Loop.thoughts];
    try done.
  destruct (String.eqb (trim text) ""); [done|].
  cbn [rev]. destruct (counts_app (rev (Loop.thoughts rest))
                         [Logged (LogThought (trim text))]) as [-> ->].
  by rewrite IH1, IH2.
Qed.

Lemma startAll_counts (ctx : ToolContext) (toolUses : list ToolUse) (tr : Trace) :
  let out := Loop.startAll env ctx toolUses tr in
  networkCalls out.2 = networkCalls tr + awaits out.1
  /\ replies out.2 = replies tr.
Proof.
  revert tr. induction toolUses as [|t rest IH]; intros tr; [by cbn|].
  cbn [Loop.startAll].
  assert (networkCalls (Loop.startTool env ctx t tr).2
          = networkCalls tr + awaits [(Loop.startTool env ctx t tr).1]
          /\ replies (Loop.startTool env ctx t tr).2 = replies tr) as [H1 H2].
  { unfold Loop.startTool.
    destruct (Tools.executeTool _ _ _ _); cbn; split; lia. }
  destruct (Loop.startTool env ctx t tr) as [s tr1].
  specialize (IH tr1).
  destruct (Loop.startAll env ctx rest tr1) as [ss tr2].
  cbn [fst snd awaits] in *. destruct IH as [IH1 IH2].
  split; [|congruence]. destruct s; lia.
Qed.

Lemma settleTool_counts (id_ : string) (s : Step) (tr : Trace) :
  let out := Loop.settleTool env id_ s tr in
  networkCalls out.2 = networkCalls tr
  /\ replies out.2 = replies tr + awaits [s].
Proof.
  unfold Loop.settleTool.
  destruct s as [[text|e]|c k]; cbn; try (split; lia).
  destruct (k (respond env tr c)); cbn; split; lia.
Qed.

Lemma settleAll_counts (fuel : nat) :
  forall (pending : list (nat * (string * Step))) slots (tr : Trace),
    length pending = fuel ->
    let out := Loop.settleAll env fuel pending slots tr in
    networkCalls out.2 = networkCalls tr
    /\ replies out.2 = replies tr + awaits (map (fun p => p.2.2) pending).
Proof.
  induction fuel as [|fuel IH]; intros pending slots tr Hlen.
  - destruct pending; [|done]. cbn. split; lia.
  - cbn [Loop.settleAll].
    set (j := pick env tr (length pending) mod length pending).
    assert (j < length pending) as Hj by (apply Nat.mod_upper_bound; lia).
    destruct (lookup_lt_is_Some_2 _ _ Hj) as [[i [id0 s0]] Hlook].
    rewrite Hlook.
    pose proof (settleTool_counts id0 s0 tr) as [Hn Hr].
    destruct (Loop.settleTool env id0 s0 tr) as [block tr1].
    cbn [snd] in Hn, Hr.
    destruct (IH (delete j pending) (<[i:=Some block]> slots) tr1)
      as [IH1 IH2].
    { rewrite length_delete by eauto. lia. }
    split; [congruence|]. rewrite IH2, Hr.
    rewrite (awaits_Permutation (map (fun p => p.2.2) pending)
               (s0 :: map (fun p => p.2.2) (delete j pending))).
    + cbn [awaits]. destruct s0; lia.
    + change (s0 :: map (fun p => p.2.2) (delete j pending))
        with (map (fun p : nat * (string * Step) => p.2.2)
                ((i, (id0, s0)) :: delete j pending)).
      apply Permutation_map. by apply delete_Permutation.
Qed.

Lemma promiseAll_counts (ctx : ToolContext) (toolUses : list ToolUse)
    (tr : Trace) :
  let out := Loop.promiseAll env ctx toolUses tr in
  let k :=
    awaits (map (fun t => Tools.executeTool (dateLabelOf env) (name t)
                            (input t) ctx) toolUses) in
  networkCalls out.2 = networkCalls tr + k
  /\ replies out.2 = replies tr + k.
Proof.
  unfold Loop.promiseAll.
  pose proof (startAll_counts ctx toolUses tr) as [Hn Hr].
  pose proof (startAll_length env ctx toolUses tr) as Hlen.
  pose proof (startAll_steps env ctx toolUses tr) as Hsteps.
  destruct (Loop.startAll env ctx toolUses tr) as [steps tr1].
  cbn [fst snd] in *.
  set (n := length toolUses) in *.
  set (pending := zip (seq 0 n) (zip (map id toolUses) steps)).
  assert (map (fun p : nat * (string * Step) => p.2.2) pending = steps)
    as Hpending.
  { unfold pending. rewrite <- (List.map_map snd snd).
    change (map snd ?l) with (l.*2).
    rewrite snd_zip by (rewrite length_zip_with, length_seq, length_map; lia).
    apply snd_zip. rewrite length_map. lia. }
  destruct (settleAll_counts n pending (replicate n None) tr1) as [Sn Sr].
  { unfold pending. rewrite !length_zip_with, length_seq, length_map. lia. }
  destruct (Loop.settleAll env n pending (replicate n None) tr1)
    as [slots tr2].
  cbn [fst snd] in *. rewrite Hpending in Sr. rewrite <- Hsteps.
  split; lia.
Qed.

Lemma awaits_le (steps : list Step) : awaits steps <= length steps.
Proof. induction steps as [|[|] steps IH]; cbn; lia. Qed.

End Pairing.

(** X2.  A turn leaves no network call of a tool unanswered, and issues at
    most one per tool call: the requests and the replies it adds to the
    trace are equally many, namely one for each tool call whose
    [executeTool] reached its fetch or post, and none when the inference
    call failed or asked for no tool. *)
Theorem turn_requests_answered (env : Collaborators)
    (messages : list Message) (systemPrompt : string) (ctx : ToolContext)
    (iteration : option nat) (tr : Trace) :
  let out := Loop.runAgentTurn env messages systemPrompt ctx iteration tr in
  let calls :=
    callsOf (infer env (Loop.logIteration iteration tr) systemPrompt messages) in
  let k :=
    awaits (map (fun t => Tools.executeTool (dateLabelOf env) (name t)
                            (input t) ctx) calls) in
  networkCalls out.2 = networkCalls tr + k
  /\ replies out.2 = replies tr + k
  /\ k <= length calls.
Proof.
  intros out calls k.
  assert (k <= length calls) as Hk.
  { subst k. etransitivity; [apply awaits_le|]. by rewrite length_map. }
  split; [|split; [|done]]; subst out k calls;
    assert (forall n, networkCalls (Loop.logIteration n tr) = networkCalls tr
                      /\ replies (Loop.logIteration n tr) = replies tr)
      as Hlog by (by intros [n|]);
    destruct (Hlog iteration) as [Hn Hr];
    destruct (infer env (Loop.logIteration iteration tr) systemPrompt messages)
      as [response|error] eqn:Hinfer.
  - destruct (Loop.toolUsesOf response) as [|t rest] eqn:Htools.
    + rewrite (runAgentTurn_no_tools env _ _ _ _ _ response Hinfer Htools).
      cbn [snd callsOf]. rewrite Htools.
      destruct (counts_app (rev (Loop.thoughts response))
                  (Inferred systemPrompt messages (Ret response)
                   :: Loop.logIteration iteration tr)) as [-> _].
      destruct (counts_thoughts response) as [-> _]. cbn. lia.
    + assert (Loop.toolUsesOf response <> []) as Hsome by (by rewrite Htools).
      rewrite (runAgentTurn_tools env _ _ _ _ _ response Hinfer Hsome).
      cbn [snd callsOf].
      destruct (promiseAll_counts env ctx (Loop.toolUsesOf response)
                  (rev (Loop.thoughts response)
                   ++ Inferred systemPrompt messages (Ret response)
                      :: Loop.logIteration iteration tr)%list) as [-> _].
      destruct (counts_app (rev (Loop.thoughts response))
                  (Inferred systemPrompt messages (Ret response)
                   :: Loop.logIteration iteration tr)) as [-> _].
      destruct (counts_thoughts response) as [-> _]. cbn. lia.
  - rewrite (runAgentTurn_failed env _ _ _ _ _ error Hinfer). cbn. lia.
  - destruct (Loop.toolUsesOf response) as [|t rest] eqn:Htools.
    + rewrite (runAgentTurn_no_tools env _ _ _ _ _ response Hinfer Htools).
      cbn [snd callsOf]. rewrite Htools.
      destruct (counts_app (rev (Loop.thoughts response))
                  (Inferred systemPrompt messages (Ret response)
                   :: Loop.logIteration iteration tr)) as [_ ->].
      destruct (counts_thoughts response) as [_ ->]. cbn. lia.
    + assert (Loop.toolUsesOf response <> []) as Hsome by (by rewrite Htools).
      rewrite (runAgentTurn_tools env _ _ _ _ _ response Hinfer Hsome).
      cbn [snd callsOf].
      destruct (promiseAll_counts env ctx (Loop.toolUsesOf response)
                  (rev (Loop.thoughts response)
                   ++ Inferred systemPrompt messages (Ret response)
                      :: Loop.logIteration iteration tr)%list) as [_ ->].
      destruct (counts_app (rev (Loop.thoughts response))
                  (Inferred systemPrompt messages (Ret response)
                   :: Loop.logIteration iteration tr)) as [_ ->].
      destruct (counts_thoughts response) as [_ ->]. cbn. lia.
  - rewrite (runAgentTurn_failed env _ _ _ _ _ error Hinfer). cbn. lia.
Qed.

(** ** The shape of the history *)

Section History.

Local Open Scope list_scope.

Variable env : Collaborators.

Lemma promiseAll_ids (ctx : ToolContext) (toolUses : list ToolUse) (tr : Trace) :
  map tool_use_id (Loop.promiseAll env ctx toolUses tr).1 = map id toolUses.
Proof.
  destruct (promiseAll_pairs env ctx toolUses tr) as (Hlen & Hpairs & _).
  apply list_eq. intros i. change (map ?f ?l) with (f <$> l).
  rewrite !list_lookup_fmap.
  destruct (toolUses !! i) as [t|] eqn:Ht.
  - destruct (lookup_lt_is_Some_2 (Loop.promiseAll env ctx toolUses tr).1 i)
      as [b Hb].
    { rewrite Hlen. by apply lookup_lt_Some in Ht. }
    rewrite Hb. cbn.
    destruct (Hpairs i t b Ht Hb) as (s & _ & tr0 & ->).
    by rewrite settleTool_id.
  - apply lookup_ge_None in Ht. rewrite <- Hlen in Ht.
    apply lookup_ge_None in Ht. by rewrite Ht.
Qed.

(** What one turn appends. *)
Lemma runAgentTurn_appends (messages : list Message) (systemPrompt : string)
    (ctx : ToolContext) (iteration : option nat) (tr : Trace) :
  let out := Loop.runAgentTurn env messages systemPrompt ctx iteration tr in
  (out.1.1 = true /\ out.1.2 = messages)
  \/ (exists response,
        Loop.toolUsesOf response = []
        /\ out.1.1 = true
        /\ out.1.2 = messages ++ [{| role := assistant; body := Blocks response |}])
  \/ (exists response results,
        answers response results
        /\ out.1.1 = false
        /\ out.1.2 = messages
                     ++ [{| role := assistant; body := Blocks response |};
                         {| role := user; body := ToolResults results |}]).
Proof.
  intros out. subst out.
  destruct (infer env (Loop.logIteration iteration tr) systemPrompt messages)
    as [response|error] eqn:Hinfer.
  - destruct (Loop.toolUsesOf response) as [|t rest] eqn:Htools.
    + right. left. exists response.
      rewrite (runAgentTurn_no_tools env _ _ _ _ _ response Hinfer Htools).
      done.
    + right. right.
      assert (Loop.toolUsesOf response <> []) as Hsome by (by rewrite Htools).
      rewrite (runAgentTurn_tools env _ _ _ _ _ response Hinfer Hsome).
      eexists response, _. cbn [fst snd].
      split; [|split; [done | by rewrite <- List.app_assoc]].
      split; [done | apply promiseAll_ids].
  - left. by rewrite (runAgentTurn_failed env _ _ _ _ _ error Hinfer).
Qed.

Lemma subLoop_dialogue (n : nat) (systemPrompt : string) (ctx : ToolContext) :
  forall (messages : list Message) (tr : Trace),
    exists d,
      (Loop.subLoop env n systemPrompt ctx messages tr).1 = messages ++ d
      /\ Dialogue d.
Proof.
  induction n as [|n IH]; intros messages tr.
  - exists []. split; [by rewrite List.app_nil_r | constructor].
  - rewrite subLoop_S.
    pose proof (runAgentTurn_appends messages systemPrompt ctx None tr) as Ht.
    destruct (Loop.runAgentTurn env messages systemPrompt ctx None tr)
      as [[done messages1] tr1].
    cbn [fst snd] in Ht.
    destruct Ht as [[-> ->]|[(response & Hnone & -> & ->)
                            |(response & results & Hans & -> & ->)]].
    + exists []. split; [by rewrite List.app_nil_r | constructor].
    + eexists. split; [done | by constructor].
    + destruct (IH (messages
                    ++ [{| role := assistant; body := Blocks response |};
                        {| role := user; body := ToolResults results |}]) tr1)
        as (d & -> & Hd).
      eexists. split; [by rewrite <- List.app_assoc | by constructor].
Qed.

Lemma autoTurns_dialogue (prompt : string) (ctx : ToolContext) (n : nat) :
  forall (iteration : nat) (messages : list Message) (tr : Trace),
    exists d,
      (Loop.autoTurns env prompt n iteration ctx messages tr).1 = messages ++ d
      /\ Dialogue d.
Proof.
  induction n as [|n IH]; intros iteration messages tr.
  - exists []. split; [by rewrite List.app_nil_r | constructor].
  - rewrite autoTurns_S.
    pose proof (runAgentTurn_appends messages prompt ctx (Some iteration) tr)
      as Ht.
    destruct (Loop.runAgentTurn env messages prompt ctx (Some iteration) tr)
      as [[done messages1] tr1].
    cbn [fst snd] in Ht.
    destruct Ht as [[-> ->]|[(response & Hnone & -> & ->)
                            |(response & results & Hans & -> & ->)]].
    + exists []. split; [by rewrite List.app_nil_r | constructor].
    + eexists. split; [done | by constructor].
    + match goal with
      | |- context [Loop.autoTurns env prompt n ?i ctx ?m ?t0] =>
          destruct (IH i m t0) as (d & -> & Hd)
      end.
      eexists. split; [by rewrite <- List.app_assoc | by constructor].
Qed.

Lemma Dialogue_alternating (d : list Message) :
  Dialogue d -> alternating assistant d.
Proof. induction 1; cbn; tauto. Qed.

End History.

(** X3.  The history of an autonomous session is the task description
    followed by a well-formed dialogue: every response with tool calls is
    directly followed by the one entry of results that answers its calls,
    identifier by identifier, a response without tool calls can only come
    last, and so the roles alternate from [user] on.  A sub-loop of the
    interactive mode appends such a dialogue to the history it is given. *)
Theorem history_is_dialogue (env : Collaborators)
    (AUTONOMOUS_SYSTEM_PROMPT slackToken_ slackChannelId_ : string)
    (config : AgentConfig) (systemPrompt : string) (ctx : ToolContext)
    (messages : list Message) (tr : Trace) :
  (exists taskPrompt d,
      (Loop.runAgentLoop env AUTONOMOUS_SYSTEM_PROMPT slackToken_
         slackChannelId_ config tr).1
      = ({| role := user; body := Text taskPrompt |} :: d)%list
      /\ Dialogue d
      /\ alternating user ({| role := user; body := Text taskPrompt |} :: d))
  /\ (exists d,
        (Loop.subLoop env Loop.MAX_ITERATIONS systemPrompt ctx messages tr).1
        = (messages ++ d)%list
        /\ Dialogue d).
Proof.
  split; [|apply subLoop_dialogue].
  unfold Loop.runAgentLoop.
  destruct (Loop.buildToolContext env slackToken_ slackChannelId_ config)
    as [ctx' repos].
  match goal with
  | |- context [Loop.autoTurns env ?p ?n ?i ctx' ?m ?t0] =>
      destruct (autoTurns_dialogue env p ctx' n i m t0) as (d & -> & Hd)
  end.
  eexists _, d. split; [done|]. split; [done|].
  split; [done | by apply Dialogue_alternating].
Qed.

(** ** Well-formed tool input *)

Module WellFormed.

Import Tools.

Lemma toNote_noteOf (e : Json) (n : Note) : toNote e = Ret n -> n = noteOf e.
Proof.
  destruct e; try done; unfold toNote; cbn; by intros [= <-].
Qed.

Lemma map_toNote_noteOf (entries : list Json) :
  forall notes, Js.map toNote entries = Ret notes -> notes = map noteOf entries.
Proof.
  induction entries as [|e entries IH]; intros notes Hmap.
  - by injection Hmap as <-.
  - cbn [Js.map] in Hmap.
    destruct (toNote e) as [n|] eqn:Hn; [|done]. cbn in Hmap.
    destruct (Js.map toNote entries) as [ns|]; [|done]. cbn in Hmap.
    injection Hmap as <-. cbn [map].
    by rewrite (toNote_noteOf e n Hn), (IH ns).
Qed.




End WellFormed.



(** X5.  When the posting tool reaches Slack, it posts one note for each
    entry of [standup_notes], in order, made of the entry's [username],
    [yesterday], [today] and [blockers] as they came and an empty
    [rawSummary], under today's label for the session's time zone; and when
    Slack accepts the post, the confirmation counts exactly these entries. *)
Theorem post_carries_every_entry (dl : string -> Outcome string)
    (input_ : list (string * Json)) (ctx : ToolContext) (c : NetCall)
    (k : Outcome Json -> Outcome string) :
  Tools.executeTool dl "post_standup_to_slack" input_ ctx = Await c k ->
  exists entries dateLabel,
    Js.assoc "standup_notes" input_ = Some (JArr entries)
    /\ entries <> []
    /\ dl (timezone ctx) = Ret dateLabel
    /\ c = PostSlack (map noteOf entries) dateLabel
    /\ forall reply,
         k (Ret reply)
         = Ret ("Standup posted to Slack for " ++ pretty (length entries)
                ++ " team member(s).").
Proof.
  rewrite Executor.executeTool_post. intros Hawait.
  destruct (Guarded.postCase_call _ _ _ _ _ Hawait)
    as (entries & notes & dateLabel & Hnotes & Hne & Hdl & Hmap & -> & ->).
  exists entries, dateLabel.
  rewrite (WellFormed.map_toNote_noteOf entries notes Hmap).
  repeat split; done.
Qed.

Lemma post_carries_every_entry_witness :
  exists entries dateLabel,
    Js.assoc "standup_notes" (input Scenario.postAlice) = Some (JArr entries)
    /\ entries <> []
    /\ dateLabelOf Scenario.poster (timezone Scenario.acme) = Ret dateLabel
    /\ PostSlack
         [{| note_username := Some (JStr "alice");
             note_yesterday := Some (JArr [JStr "Merged PR 42"]);
             note_today := Some (JArr []);
             note_blockers := Some (JArr []);
             note_rawSummary := "" |}]
         "Monday, 2 November 2026"
       = PostSlack (map noteOf entries) dateLabel
    /\ forall reply,
         Tools.postSettled 1 (Ret reply)
         = Ret ("Standup posted to Slack for " ++ pretty (length entries)
                ++ " team member(s).").
Proof.
  apply (post_carries_every_entry (dateLabelOf Scenario.poster)
           (input Scenario.postAlice) Scenario.acme).
  reflexivity.
Defined.

(** ** Failures that are kept as data *)





(** X8.  The interactive mode does not take a line back when its inference
    call fails: the line stays in the history, one classified line is
    logged, and the next line is read with that history, so that it is
    appended directly behind the failed one. *)
Theorem failed_line_stays_in_history (env : Collaborators)
    (systemPrompt : string) (ctx : ToolContext) (line : string)
    (rest : list string) (messages : list Message) (tr : Trace)
    (error : Thrown) :
  let input_ := trim line in
  let entered := {| role := user; body := Text input_ |} in
  input_ <> "" ->
  toLowerCase input_ <> "exit" -> toLowerCase input_ <> "quit" ->
  infer env tr systemPrompt (messages ++ [entered])%list = Throw error ->
  Loop.readLoop env (line :: rest) systemPrompt ctx messages tr
  = Loop.readLoop env rest systemPrompt ctx (messages ++ [entered])%list
      (Logged LogPrompt :: Logged LogBlank
       :: Logged (Loop.classifyApiError error)
       :: Inferred systemPrompt (messages ++ [entered])%list (Throw error)
       :: tr).
Proof.
  intros input_ entered Hne Hexit Hquit Hfail.
  cbn [Loop.readLoop]. fold input_.
  replace (String.eqb input_ "") with false
    by (symmetry; by apply String.eqb_neq).
  assert (Loop.isExit input_ = false) as ->.
  { unfold Loop.isExit. apply orb_false_iff. split; by apply String.eqb_neq. }
  fold entered. change Loop.MAX_ITERATIONS with (S 19).
  rewrite subLoop_S.
  by rewrite (runAgentTurn_failed env _ _ _ None tr error Hfail).
Qed.

Lemma failed_line_stays_in_history_witness :
  (Loop.readLoop Scenario.unauthenticated ["standup please"; "again"] "system"
     Scenario.acme [] []).1
  = [ {| role := user; body := Text "standup please" |};
      {| role := user; body := Text "again" |} ].
Proof.
  rewrite (failed_line_stays_in_history Scenario.unauthenticated "system"
             Scenario.acme "standup please" ["again"] [] []
             (ErrorObj "401 authentication_error: invalid x-api-key"));
    done.
Defined.

(** ** The data-fetch functions *)

Section MoreStringFacts.



Lemma length_drop (n : nat) (s : string) :
  String.length (JsMore.drop n s) = String.length s - n.
Proof.
  revert s. induction n as [|n IH]; intros [|c r]; try done.
  cbn. by rewrite IH.
Qed.



End MoreStringFacts.


Example commits_example :
  Commits.reply
    (Ret [{| Commits.raw_sha := "1a2b3c4d5e6f7a8b9c0d";
             Commits.raw_message := "Fix login" ++ nl ++ nl ++ "Closes 12";
             Commits.raw_html_url := "https://github.com/acme/web/commit/1a2b3c4";
             Commits.raw_author_date := None |}]) "alice"
  = Ret (JArr [JObj [("sha", JStr "1a2b3c4"); ("message", JStr "Fix login");
                     ("url", JStr "https://github.com/acme/web/commit/1a2b3c4");
                     ("timestamp", JStr "")]]).
Proof. reflexivity. Qed.

Module PRFacts.

Import PRs.

Section Facts.

Variable parseDate : string -> option Z.
Variable api : Api.
Variable username : string.
Variable since : Z.


End Facts.

End PRFacts.



Module IssueFacts.

Import Issues.

Section Facts.

Local Open Scope list_scope.

Variable api : Api.
Variable username : string.

Lemma take_length (n : nat) (s : string) :
  String.length (JsMore.take n s) <= n.
Proof.
  revert s. induction n as [|n IH]; intros [|c r]; cbn; try lia.
  specialize (IH r). lia.
Qed.

Lemma commentedEntries_source (comments all : list RawComment) :
  listComments api = Ret all ->
  (forall c, In c comments ->
             In c all /\ byUser username (comment_login c) = true) ->
  forall i e,
    In e (commentedEntries api i comments) -> issueSource api username e.
Proof.
  intros Hall. induction comments as [|c rest IH]; intros Hsub i e Hin; [done|].
  cbn [commentedEntries] in Hin. apply in_app_or in Hin as [Hin|Hin].
  - unfold commentedEntry in Hin.
    destruct (issueNumberOf (comment_issue_url c)) as [n|] eqn:Hn; [|done].
    destruct (getIssue api i n) as [issue|] eqn:Hget; [|done].
    destruct (raw_pull_request issue) eqn:Hpr; [done|].
    destruct Hin as [<-|[]]. left. split; [done|].
    destruct (Hsub c) as [Hc Hlogin]; [by left|].
    by exists all, i, c, issue.
  - apply (IH (fun c' Hc' => Hsub c' (or_intror Hc')) (S i) e Hin).
Qed.

Lemma createdEntry_source (created : list RawIssue) (e : IssueActivitySummary) :
  listCreated api = Ret created ->
  In e (flat_map createdEntry created) -> issueSource api username e.
Proof.
  intros Hcreated Hin. apply in_flat_map in Hin as (issue & Hissue & Hin).
  unfold createdEntry in Hin.
  destruct (raw_pull_request issue) eqn:Hpr; [done|].
  destruct Hin as [<-|[]]. right. left. split.
  - cbn. destruct (String.eqb _ "closed"); cbn; tauto.
  - by exists created, issue.
Qed.

Lemma assignedOnce_snoc (results : list IssueActivitySummary)
    (entry : IssueActivitySummary) :
  assignedOnce results ->
  existsb (fun r => (number r =? number entry)%Z) results = false ->
  assignedOnce (results ++ [entry]).
Proof.
  intros Hfresh Hnew i j x e Hij Hx He Hassigned.
  destruct (decide (j < length results)) as [Hj|Hj].
  - rewrite lookup_app_l in He by done.
    rewrite lookup_app_l in Hx by lia.
    by apply (Hfresh i j).
  - assert (j = length results) as ->.
    { apply lookup_lt_Some in He. rewrite length_app in He. cbn in He. lia. }
    rewrite lookup_app_l in Hx by lia.
    rewrite lookup_app_r, Nat.sub_diag in He by lia.
    injection He as <-.
    intros Heq.
    assert (existsb (fun r => (number r =? number entry)%Z) results = true)
      as Hfound; [|congruence].
    apply existsb_exists. exists x. split.
    + apply list_elem_of_In, list_elem_of_lookup. eauto.
    + by apply Z.eqb_eq.
Qed.

Lemma addAssigned_inv (assigned all : list RawIssue) :
  listAssigned api = Ret all ->
  forall results,
    (forall issue, In issue assigned -> In issue all) ->
    Forall (issueSource api username) results ->
    assignedOnce results ->
    Forall (issueSource api username) (addAssigned results assigned)
    /\ assignedOnce (addAssigned results assigned).
Proof.
  intros Hall.
  induction assigned as [|issue rest IH]; intros results Hsub Hsrc Hfresh;
    [done|].
  cbn [addAssigned].
  assert (forall x, In x rest -> In x all) as Hrest
    by (intros x Hx; apply Hsub; by right).
  destruct (raw_pull_request issue) eqn:Hpr; [by apply IH|].
  destruct (existsb _ results) eqn:Hexists; [by apply IH|].
  apply IH; [done| |].
  - apply Forall_app. split; [done|]. constructor; [|done].
    right. right. split; [done|]. exists all, issue.
    split; [done|]. split; [apply Hsub; by left | done].
  - by apply assignedOnce_snoc.
Qed.

Lemma noAssigned_once (results : list IssueActivitySummary) :
  Forall (fun e => action e <> "assigned") results -> assignedOnce results.
Proof.
  intros Hall i j x e _ _ He Hassigned.
  rewrite Forall_lookup in Hall. by destruct (Hall j e He).
Qed.

End Facts.

End IssueFacts.

(** X11.  Every entry [fetchIssueActivityByUser] returns, also when it
    returns early after a failed listing, comes from an issue that is not a
    pull request: one fetched for a comment of the member, with at most the
    first 200 characters of the comment; one listed as created by the
    member, reported as [closed] or [opened]; or one listed as assigned to
    the member.  An issue is reported as assigned only when no earlier
    entry has its number, so no number is reported as assigned twice. *)
Theorem issues_reported_once (api : Issues.Api) (username : string)
    (results : list Issues.IssueActivitySummary) (warnings : list Warning) :
  Issues.fetchIssueActivityByUser api username = Ret (results, warnings) ->
  Forall (issueSource api username) results
  /\ Forall (fun e => match Issues.comment e with
                      | Some text => String.length text <= 200
                      | None => True
                      end) results
  /\ assignedOnce results.
Proof.
  intros Hfetch.
  assert (Forall (issueSource api username) results /\ assignedOnce results)
    as [Hsrc Hfresh].
  { unfold Issues.fetchIssueActivityByUser in Hfetch.
    destruct (Issues.listComments api) as [comments|error] eqn:Hcomments.
    2:{ unfold Issues.warned in Hfetch.
        destruct (JsMore.messageOf error); [|done].
        injection Hfetch as <- <-. split; [constructor|].
        by apply IssueFacts.noAssigned_once. }
    set (r1 := Issues.commentedEntries api 0 _) in Hfetch.
    assert (Forall (issueSource api username) r1) as H1.
    { apply List.Forall_forall. intros e He.
      eapply (IssueFacts.commentedEntries_source api username _ comments);
        [done| |exact He].
      intros c Hc. by apply filter_In in Hc. }
    assert (forall l, Forall (issueSource api username) l ->
              Forall (fun e => Issues.action e = "commented"
                               \/ In (Issues.action e) ["opened"; "closed"]) l ->
              Forall (fun e => Issues.action e <> "assigned") l) as Hno.
    { intros l _ Hl. eapply Forall_impl; [exact Hl|].
      intros e [->|[<-|[<-|[]]]]; done. }
    assert (Forall (fun e => Issues.action e = "commented"
                             \/ In (Issues.action e) ["opened"; "closed"]) r1)
      as A1.
    { apply List.Forall_forall. intros e He. left. subst r1.
      clear -He. revert He. generalize 0.
      induction (List.filter _ comments) as [|c rest IH]; intros i He; [done|].
      cbn [Issues.commentedEntries] in He.
      apply in_app_or in He as [He|He]; [|by apply (IH (S i))].
      unfold Issues.commentedEntry in He.
      repeat case_match; try done. by destruct He as [<-|[]]. }
    destruct (Issues.listCreated api) as [created|error] eqn:Hcreated.
    2:{ unfold Issues.warned in Hfetch.
        destruct (JsMore.messageOf error); [|done].
        injection Hfetch as <- <-. split; [done|].
        apply IssueFacts.noAssigned_once. by apply Hno. }
    set (r2 := (r1 ++ flat_map Issues.createdEntry created)%list) in Hfetch.
    assert (Forall (issueSource api username) r2) as H2.
    { apply Forall_app. split; [done|]. apply List.Forall_forall.
      intros e He. by apply IssueFacts.createdEntry_source with created. }
    assert (Forall (fun e => Issues.action e = "commented"
                             \/ In (Issues.action e) ["opened"; "closed"]) r2)
      as A2.
    { apply Forall_app. split; [done|]. apply List.Forall_forall.
      intros e He. right.
      apply in_flat_map in He as (issue & _ & He).
      unfold Issues.createdEntry in He.
      destruct (Issues.raw_pull_request issue); [done|].
      destruct He as [<-|[]]. cbn.
      destruct (String.eqb _ "closed"); cbn; tauto. }
    destruct (Issues.listAssigned api) as [assigned|error] eqn:Hassigned.
    2:{ unfold Issues.warned in Hfetch.
        destruct (JsMore.messageOf error); [|done].
        injection Hfetch as <- <-. split; [done|].
        apply IssueFacts.noAssigned_once. by apply Hno. }
    injection Hfetch as <- <-.
    apply (IssueFacts.addAssigned_inv api username assigned assigned);
      try done.
    apply IssueFacts.noAssigned_once. by apply Hno. }
  split; [done|]. split; [|done].
  eapply Forall_impl; [exact Hsrc|].
  intros e [(_ & comments & i & c & issue & _ & _ & _ & _ & _ & _ & _ & ->)
           |[(_ & created & issue & _ & _ & _ & _ & _ & ->)
            |(_ & assigned & issue & _ & _ & _ & ->)]].
  - destruct (Issues.comment_body c) as [body|]; [|done].
    exact (IssueFacts.take_length 200 body).
  - done.
  - done.
Qed.

Example issues_example :
  map (fun e => (Issues.number e, Issues.action e)) IssueScenario.reported
  = [(42%Z, "commented"); (42%Z, "opened"); (43%Z, "assigned")].
Proof. reflexivity. Qed.

Lemma issues_reported_once_witness :
  Issues.fetchIssueActivityByUser IssueScenario.api "alice"
  = Ret (IssueScenario.reported, [])
  /\ Forall (issueSource IssueScenario.api "alice") IssueScenario.reported
  /\ assignedOnce IssueScenario.reported.
Proof.
  split; [reflexivity|].
  destruct (issues_reported_once IssueScenario.api "alice"
              IssueScenario.reported [] eq_refl) as (Hsrc & _ & Honce).
  by split.
Defined.

Module IssueNumberFacts.

Import Issues.

Local Open Scope string_scope.




Lemma drop_app (s t : string) : JsMore.drop (String.length s) (s ++ t) = t.
Proof.
  induction s as [|c r IH]; [by destruct t|].
  by rewrite append_cons.
Qed.

Lemma length_append (s t : string) :
  String.length (s ++ t) = String.length s + String.length t.
Proof.
  induction s as [|c r IH]; [done|].
  rewrite append_cons. cbn [String.length]. by rewrite IH.
Qed.






End IssueNumberFacts.


Module SetupFacts.

Import Setup.

Local Open Scope string_scope.

Lemma every_app (p : ascii -> bool) (s t : string) :
  every p (s ++ t) = every p s && every p t.
Proof.
  induction s as [|c r IH]; [done|].
  rewrite append_cons. cbn [every]. by rewrite IH, andb_assoc.
Qed.

Lemma every_impl (p q : ascii -> bool) (s : string) :
  (forall c, p c = true -> q c = true) ->
  every p s = true -> every q s = true.
Proof.
  intros Hpq. induction s as [|c r IH]; [done|]. cbn [every].
  intros [Hc Hr]%andb_true_iff. by rewrite (Hpq c Hc), (IH Hr).
Qed.

Lemma plain_inv (s : string) :
  plain s = true ->
  every (fun c => negb (is_space c)) s = true
  /\ every (isNot ",") s = true /\ every (isNot "/") s = true.
Proof.
  intros Hs. repeat split; (eapply every_impl; [|exact Hs]); cbn;
    intros c Hc; repeat (apply andb_true_iff in Hc as [Hc ?]); done.
Qed.

Lemma split_every (sep : ascii) (s : string) :
  every (isNot sep) s = true -> JsMore.split sep s = [s].
Proof.
  induction s as [|c r IH]; [done|]. cbn [every JsMore.split].
  intros [Hc Hr]%andb_true_iff. unfold isNot in Hc.
  apply negb_true_iff in Hc. by rewrite Hc, (IH Hr).
Qed.

Lemma split_nonempty (sep : ascii) (s : string) : JsMore.split sep s <> [].
Proof.
  destruct s as [|c r]; [done|]. cbn [JsMore.split].
  destruct (Ascii.eqb c sep); [done|]. by destruct (JsMore.split sep r).
Qed.

Lemma split_app (sep : ascii) (a b : string) :
  every (isNot sep) a = true ->
  JsMore.split sep (a ++ String sep b) = a :: JsMore.split sep b.
Proof.
  induction a as [|c r IH].
  - intros _. change ("" ++ String sep b) with (String sep b).
    cbn [JsMore.split]. by rewrite Ascii.eqb_refl.
  - cbn [every]. intros [Hc Hr]%andb_true_iff. unfold isNot in Hc.
    apply negb_true_iff in Hc.
    rewrite append_cons. cbn [JsMore.split]. by rewrite Hc, (IH Hr).
Qed.

Lemma split_join (x : string) (rest : list string) :
  Forall (fun s => every (isNot ",") s = true) (x :: rest) ->
  JsMore.split "," (join "," (x :: rest)) = x :: rest.
Proof.
  revert x. induction rest as [|y rest IH]; intros x Hall.
  - apply split_every. by inversion Hall.
  - inversion Hall as [|? ? Hx Hrest]; subst.
    change (join "," (x :: y :: rest))
      with (x ++ String "," (join "," (y :: rest))).
    by rewrite (split_app _ _ _ Hx), (IH y Hrest).
Qed.

Lemma trimEnd_every (s : string) :
  every (fun c => negb (is_space c)) s = true -> trimEnd s = s.
Proof.
  induction s as [|c r IH]; [done|]. cbn [every trimEnd].
  intros [Hc Hr]%andb_true_iff. apply negb_true_iff in Hc.
  rewrite (IH Hr), Hc. by destruct r.
Qed.

Lemma trim_every (s : string) :
  every (fun c => negb (is_space c)) s = true -> trim s = s.
Proof.
  intros Hs. unfold trim.
  assert (trimStart s = s) as ->; [|by apply trimEnd_every].
  destruct s as [|c r]; [done|]. cbn [every] in Hs.
  apply andb_true_iff in Hs as [Hc _]. apply negb_true_iff in Hc.
  cbn [trimStart]. by rewrite Hc.
Qed.

Lemma nonEmpty_app (s t : string) :
  nonEmpty s = true -> nonEmpty (s ++ t) = true.
Proof. by destruct s. Qed.

Lemma nonEmpty_true (s : string) : nonEmpty s = true <-> s <> "".
Proof.
  unfold nonEmpty. rewrite negb_true_iff. by destruct (String.eqb_spec s "").
Qed.

(** The label of a well-named repository: how [pieces] and [parseRepos]
    read it. *)
Lemma repoLabel_read (r : Repo) :
  plainName (owner r) = true -> plainName (repo r) = true ->
  every (isNot ",") (Tools.repoLabel r) = true
  /\ trim (Tools.repoLabel r) = Tools.repoLabel r
  /\ nonEmpty (Tools.repoLabel r) = true
  /\ JsMore.split "/" (Tools.repoLabel r) = [owner r; repo r].
Proof.
  unfold plainName. intros [Ho Hpo]%andb_true_iff [Hr Hpr]%andb_true_iff.
  apply plain_inv in Hpo as (Hso & Hco & Hlo).
  apply plain_inv in Hpr as (Hsr & Hcr & Hlr).
  unfold Tools.repoLabel.
  change ("/" ++ repo r) with (String "/" (repo r)).
  repeat split.
  - rewrite every_app, Hco. cbn [every]. by rewrite Hcr.
  - apply trim_every. rewrite every_app, Hso. cbn [every]. by rewrite Hsr.
  - by apply nonEmpty_app.
  - by rewrite (split_app _ _ _ Hlo), (split_every _ _ Hlr).
Qed.

Lemma pieces_labels (first : Repo) (rest : list Repo) :
  Forall (fun r => plainName (owner r) = true /\ plainName (repo r) = true)
    (first :: rest) ->
  pieces (join "," (map Tools.repoLabel (first :: rest)))
  = map Tools.repoLabel (first :: rest).
Proof.
  intros Hall. unfold pieces.
  change (map Tools.repoLabel (first :: rest))
    with (Tools.repoLabel first :: map Tools.repoLabel rest).
  rewrite split_join.
  2:{ change (Tools.repoLabel first :: map Tools.repoLabel rest)
        with (map Tools.repoLabel (first :: rest)).
      apply Forall_map. eapply Forall_impl; [exact Hall|].
      intros r [Ho Hr]. by destruct (repoLabel_read r Ho Hr). }
  change (Tools.repoLabel first :: map Tools.repoLabel rest)
    with (map Tools.repoLabel (first :: rest)).
  induction Hall as [|r l [Ho Hr] _ IH]; [done|].
  destruct (repoLabel_read r Ho Hr) as (_ & Htrim & Hne & _).
  cbn [map List.filter]. by rewrite Htrim, Hne, IH.
Qed.

Lemma parseRepos_labels (repos : list Repo) :
  Forall (fun r => plainName (owner r) = true /\ plainName (repo r) = true)
    repos ->
  parseRepos (map Tools.repoLabel repos) = inr repos.
Proof.
  induction 1 as [|r l [Ho Hr] _ IH]; [done|].
  destruct (repoLabel_read r Ho Hr) as (_ & _ & _ & Hsplit).
  cbn [map parseRepos]. rewrite Hsplit, IH.
  unfold plainName in Ho, Hr.
  apply andb_true_iff in Ho as [-> _]. apply andb_true_iff in Hr as [-> _].
  by destruct r.
Qed.

Lemma parseRepos_named (entries : list string) (parsed : list Repo) :
  parseRepos entries = inr parsed ->
  Forall (fun r => nonEmpty (owner r) = true /\ nonEmpty (repo r) = true)
    parsed.
Proof.
  revert parsed. induction entries as [|entry rest IH]; intros parsed Hparse.
  - injection Hparse as <-. constructor.
  - cbn [parseRepos] in Hparse.
    destruct (JsMore.split "/" entry) as [|o [|r [|]]]; try done.
    destruct (nonEmpty o) eqn:Ho; [|done].
    destruct (nonEmpty r) eqn:Hr; [|done]. cbn in Hparse.
    destruct (parseRepos rest) as [|others]; [done|].
    injection Hparse as <-. constructor; [done|]. by apply IH.
Qed.

Lemma extraRepos_named (entries : list string) :
  Forall (fun r => nonEmpty (owner r) = true /\ nonEmpty (repo r) = true)
    (extraRepos entries).
Proof.
  induction entries as [|entry rest IH]; [constructor|].
  cbn [extraRepos].
  destruct (JsMore.split "/" entry) as [|o [|r [|]]]; try done.
  destruct (nonEmpty o) eqn:Ho; [|done].
  destruct (nonEmpty r) eqn:Hr; [|done]. by constructor.
Qed.

Lemma take_app (s t : string) : JsMore.take (String.length s) (s ++ t) = s.
Proof.
  induction s as [|c r IH]; [by destruct t|].
  rewrite append_cons. cbn [String.length JsMore.take]. by rewrite IH.
Qed.

End SetupFacts.

(** X13.  What [maskSecret] shows of a secret of eight code units or more:
    its first four and its last four, with four asterisks between them
    whatever stands in the middle, also when nothing does. *)
Theorem maskSecret_hides_middle (first middle last : string) :
  String.length first = 4 ->
  String.length last = 4 ->
  Setup.maskSecret (first ++ middle ++ last) = first ++ "****" ++ last.
Proof.
  intros Hfirst Hlast. unfold Setup.maskSecret.
  assert (String.length (first ++ middle ++ last)
          = 4 + String.length middle + 4) as Hlen.
  { rewrite !IssueNumberFacts.length_append. lia. }
  assert (Setup.nonEmpty (first ++ middle ++ last) = true) as ->.
  { apply SetupFacts.nonEmpty_app. by destruct first. }
  assert ((String.length (first ++ middle ++ last) <? 8)%nat = false) as ->.
  { apply Nat.ltb_ge. lia. }
  cbn [negb orb]. f_equal.
  - rewrite <- Hfirst. apply SetupFacts.take_app.
  - f_equal. rewrite Hlen, <- append_assoc.
    replace (4 + String.length middle + 4 - 4)
      with (String.length (first ++ middle)).
    + apply IssueNumberFacts.drop_app.
    + rewrite IssueNumberFacts.length_append. lia.
Qed.

Lemma maskSecret_hides_middle_witness :
  Setup.maskSecret "ghp_0123456789abcdef" = "ghp_****cdef"
  /\ Setup.maskSecret "ghp_cdef" = "ghp_****cdef".
Proof.
  split.
  - exact (maskSecret_hides_middle "ghp_" "0123456789ab" "cdef"
             eq_refl eq_refl).
  - exact (maskSecret_hides_middle "ghp_" "" "cdef" eq_refl eq_refl).
Defined.

Example wizard_example :
  Setup.reposOf SetupScenario.config
  = [ {| owner := "acme"; repo := "web" |};
      {| owner := "acme"; repo := "infra" |} ]
  /\ Setup.team_members SetupScenario.config = ["alice"; "bob"]
  /\ Setup.lookback_hours SetupScenario.config = Setup.Finite 24
  /\ Setup.schedule SetupScenario.config = "0 9 * * 1-5".
Proof. by vm_compute. Qed.

(** X14.  When [updateConfig] writes, there was a configuration and a
    value; the field it names has passed its check (members and
    repositories are there and have names, the first repository is the one
    of the pipeline, the hours are positive); every other field is as it
    was; and the repository of the pipeline is still among the
    repositories of the agent if it was. *)
Theorem update_writes_checked_field (parseInt : string -> option Z -> Setup.JsNumber)
    (field value : string) (loaded : option Setup.SetupConfig)
    (after : Setup.SetupConfig) :
  Setup.updateConfig parseInt field value loaded = Setup.Written after ->
  exists before,
    loaded = Some before
    /\ value <> ""
    /\ fieldChecked field after
    /\ othersKept field before after
    /\ (primaryListed before -> primaryListed after).
Proof.
  unfold Setup.updateConfig. intros Hupdate.
  destruct (Setup.nonEmpty value) eqn:Hvalue; [|done]. cbn [negb] in Hupdate.
  apply SetupFacts.nonEmpty_true in Hvalue.
  destruct loaded as [before|]; [|done].
  exists before. split; [done|]. split; [done|].
  destruct (String.eqb_spec field "team-members") as [->|Hf1].
  { destruct (Setup.pieces value) as [|m ms] eqn:Hpieces; [done|].
    injection Hupdate as <-.
    split; [|split; [|done]].
    - split; [|done]. intros _. cbn. split; [done|].
      rewrite <- Hpieces. unfold Setup.pieces.
      apply List.Forall_forall. intros x Hx. by apply filter_In in Hx as [_ Hx].
    - by repeat split. }
  destruct (String.eqb_spec field "repos") as [->|Hf2].
  { destruct (Setup.parseRepos (Setup.pieces value)) as [|[|first rest]]
      eqn:Hparse; try done.
    injection Hupdate as <-.
    split; [|split].
    - split; [done|]. split; [|done]. intros _.
      split; [done|]. split; [by exists rest; destruct first|].
      by apply (SetupFacts.parseRepos_named (Setup.pieces value)).
    - by repeat split.
    - intros _. exists rest. by destruct first. }
  destruct (String.eqb_spec field "slack-channel") as [->|Hf3].
  { injection Hupdate as <-. by repeat split. }
  destruct (String.eqb_spec field "slack-token") as [->|Hf4].
  { injection Hupdate as <-. by repeat split. }
  destruct (String.eqb_spec field "github-token") as [->|Hf5].
  { injection Hupdate as <-. by repeat split. }
  destruct (String.eqb_spec field "anthropic-key") as [->|Hf6].
  { injection Hupdate as <-. by repeat split. }
  destruct (String.eqb_spec field "lookback-hours") as [->|Hf7].
  { cbn zeta in Hupdate.
    destruct (Setup.notPositive (parseInt value (Some 10%Z))) eqn:Hhours;
      [done|].
    injection Hupdate as <-. by repeat split. }
  destruct (String.eqb_spec field "timezone") as [->|Hf8].
  { injection Hupdate as <-. by repeat split. }
  destruct (String.eqb_spec field "schedule") as [->|Hf9]; [|done].
  injection Hupdate as <-. by repeat split.
Qed.

Lemma update_writes_checked_field_witness :
  exists after,
    Setup.updateConfig SetupScenario.parseInt "lookback-hours" "48"
      (Some SetupScenario.config) = Setup.Written after
    /\ fieldChecked "lookback-hours" after
    /\ othersKept "lookback-hours" SetupScenario.config after.
Proof.
  eexists. split; [reflexivity|].
  destruct (update_writes_checked_field SetupScenario.parseInt
              "lookback-hours" "48" (Some SetupScenario.config) _ eq_refl)
    as (before & Hloaded & _ & Hchecked & Hkept & _).
  injection Hloaded as <-. by split.
Defined.

(** X15.  [updateConfig] reads a list of repositories back from its own
    notation: given the labels [owner/repo] of well-named repositories
    joined by commas, it writes exactly these repositories, the first of
    them as the repository of the pipeline. *)
Theorem update_repos_round_trip (parseInt : string -> option Z -> Setup.JsNumber)
    (config : Setup.SetupConfig) (first : Repo) (rest : list Repo) :
  Forall (fun r => plainName (owner r) = true /\ plainName (repo r) = true)
    (first :: rest) ->
  Setup.updateConfig parseInt "repos"
    (join "," (map Tools.repoLabel (first :: rest))) (Some config)
  = Setup.Written (Setup.withRepos config first (first :: rest)).
Proof.
  intros Hall. unfold Setup.updateConfig.
  assert (Setup.nonEmpty (join "," (map Tools.repoLabel (first :: rest)))
          = true) as ->.
  { inversion Hall as [|? ? [Ho Hr] _]; subst.
    destruct (SetupFacts.repoLabel_read first Ho Hr) as (_ & _ & Hne & _).
    destruct rest as [|second rest]; [done|].
    change (join "," (map Tools.repoLabel (first :: second :: rest)))
      with (Tools.repoLabel first
            ++ "," ++ join "," (map Tools.repoLabel (second :: rest))).
    by apply SetupFacts.nonEmpty_app. }
  cbn [negb]. change (String.eqb "repos" "team-members") with false.
  change (String.eqb "repos" "repos") with true. cbv iota.
  by rewrite (SetupFacts.pieces_labels first rest Hall),
    (SetupFacts.parseRepos_labels (first :: rest) Hall).
Qed.

Lemma update_repos_round_trip_witness :
  Setup.updateConfig SetupScenario.parseInt "repos" "acme/api,acme/web"
    (Some SetupScenario.config)
  = Setup.Written
      (Setup.withRepos SetupScenario.config {| owner := "acme"; repo := "api" |}
         SetupScenario.repos).
Proof.
  apply (update_repos_round_trip SetupScenario.parseInt SetupScenario.config
           {| owner := "acme"; repo := "api" |}
           [ {| owner := "acme"; repo := "web" |} ]).
  repeat constructor.
Defined.

(** X16.  The configuration [runSetupWizard] writes: the Anthropic key is
    not empty; the repositories start with the repository of the pipeline,
    and every additional one has an owner and a name; there is one team
    member for each piece between the commas typed, so at least one. *)
Theorem wizard_lists_primary_repo (parseInt : string -> option Z -> Setup.JsNumber)
    (typed : Setup.Answers) (config : Setup.SetupConfig) :
  Setup.runSetupWizard parseInt typed = Some config ->
  Setup.anthropic_api_key config <> ""
  /\ (exists extras,
        Setup.github_repos config
        = Some ({| owner := Setup.github_owner config;
                   repo := Setup.github_repo config |} :: extras)
        /\ Forall (fun r => Setup.nonEmpty (owner r) = true
                            /\ Setup.nonEmpty (repo r) = true) extras)
  /\ primaryListed config
  /\ Setup.team_members config
     = map trim (JsMore.split "," (trim (Setup.typed_team typed)))
  /\ Setup.team_members config <> [].
Proof.
  unfold Setup.runSetupWizard. cbv zeta. intros Hwizard.
  destruct (Setup.nonEmpty (Setup.prompt (Setup.typed_anthropic_key typed)))
    eqn:Hkey; [|done].
  cbn [negb] in Hwizard. injection Hwizard as <-.
  apply SetupFacts.nonEmpty_true in Hkey.
  split; [done|].
  assert (exists extras,
            (if Setup.nonEmpty (Setup.prompt (Setup.typed_extra_repos typed))
             then {| owner := Setup.prompt (Setup.typed_github_owner typed);
                     repo := Setup.prompt (Setup.typed_github_repo typed) |}
                  :: Setup.extraRepos
                       (Setup.pieces
                          (Setup.prompt (Setup.typed_extra_repos typed)))
             else [ {| owner := Setup.prompt (Setup.typed_github_owner typed);
                       repo := Setup.prompt (Setup.typed_github_repo typed) |} ])
            = {| owner := Setup.prompt (Setup.typed_github_owner typed);
                 repo := Setup.prompt (Setup.typed_github_repo typed) |}
              :: extras
            /\ Forall (fun r => Setup.nonEmpty (owner r) = true
                                /\ Setup.nonEmpty (repo r) = true) extras)
    as (extras & Hrepos & Hnamed).
  { destruct (Setup.nonEmpty _).
    - eexists. split; [done|]. apply SetupFacts.extraRepos_named.
    - by exists []. }
  split; [|split; [|split]].
  - exists extras. cbn. by rewrite Hrepos.
  - exists extras. unfold Setup.reposOf. cbn. by rewrite Hrepos.
  - done.
  - cbn. intros Hnone%map_eq_nil. by apply SetupFacts.split_nonempty in Hnone.
Qed.

Lemma wizard_lists_primary_repo_witness :
  Setup.runSetupWizard SetupScenario.parseInt SetupScenario.typed
  = Some SetupScenario.config
  /\ primaryListed SetupScenario.config
  /\ Setup.team_members SetupScenario.config <> [].
Proof.
  split; [reflexivity|].
  destruct (wizard_lists_primary_repo SetupScenario.parseInt
              SetupScenario.typed SetupScenario.config eq_refl)
    as (_ & _ & Hprimary & _ & Hteam).
  by split.
Defined.

Module PromptFacts.

Local Open Scope string_scope.

Lemma prefix_app_l (n h b : string) :
  String.prefix n h = true -> String.prefix n (h ++ b) = true.
Proof.
  revert h. induction n as [|c n IH]; intros h Hprefix; [by destruct (h ++ b)|].
  destruct h as [|d h]; [done|]. rewrite append_cons.
  cbn [String.prefix] in *. destruct (ascii_dec c d); [by apply IH | done].
Qed.

Lemma includes_app_l (h b n : string) :
  includes h n = true -> includes (h ++ b) n = true.
Proof.
  induction h as [|c h IH].
  - cbn [includes]. rewrite orb_false_r. intros Hprefix.
    apply includes_prefix. by apply (prefix_app_l n "" b).
  - rewrite append_cons. cbn [includes].
    intros [Hprefix|Hrest]%orb_true_iff.
    + pose proof (prefix_app_l n (String c h) b Hprefix) as Hhere.
      rewrite append_cons in Hhere. by rewrite Hhere.
    + rewrite (IH Hrest). apply orb_true_r.
Qed.

End PromptFacts.

(** X17.  The task description of an autonomous session names what the
    tool context of the same session allows: both allow-lists are
    configured, every member of the one occurs in the description, and
    every repository of the other occurs in it as a list item
    [  - owner/repo]. *)
Theorem task_names_what_is_allowed (env : Collaborators)
    (slackToken_ slackChannelId_ : string) (config : AgentConfig) :
  let session := Loop.buildToolContext env slackToken_ slackChannelId_ config in
  let task := Loop.buildTaskPrompt env config session.2 (since session.1) in
  (exists members,
      allowedMembers session.1 = Some members
      /\ forall m, In m members -> includes task m = true)
  /\ (exists repos,
        allowedRepos session.1 = Some repos
        /\ forall r, In r repos ->
                     includes task ("  - " ++ Tools.repoLabel r) = true).
Proof.
  cbn zeta. unfold Loop.buildToolContext, Loop.buildTaskPrompt. cbn [fst snd].
  split.
  - eexists. split; [reflexivity|]. intros m Hm. cbn [since].
    do 4 apply includes_skip.
    by apply PromptFacts.includes_app_l, includes_join.
  - eexists. split; [reflexivity|]. intros r Hr.
    do 9 apply includes_skip.
    apply PromptFacts.includes_app_l, includes_join.
    by apply (in_map (fun r => "  - " ++ Tools.repoLabel r)).
Qed.
